(** * Verification of the genre-classification, matching and subgenre code of muindb

    Shallow embedding of the Python sources:
    - src/phase2/src/api/enhanced_genius_client.py (title cleaning, query
      generation, fuzzy matching),
    - src/phase3/scripts/genre_classification_system.py (multi-source reasoning
      engine, crossover detection, idempotence short-cut),
    - src/phase3/src/ml_subgenre_classifier.py and
      src/phase3/training/subgenre_definitions.py (subgenre classification),
    - src/phase3/src/api/producer_genre_patterns.py (producer enrichment).

    Python strings are modelled as [list ascii] (all inputs considered are
    ASCII); the regular expressions passed to [re.sub] / [re.search] are
    translated to the small backtracking matcher of module [Re], which follows
    the leftmost, priority-ordered semantics of Python's [sre] engine. *)

From Stdlib Require Import Bool Ascii String List ZArith QArith Qfield Lia Lqa.
From Stdlib Require Import Permutation Sorted.
From Stdlib Require Import Floats.
Import ListNotations.

Open Scope bool_scope.

(** ** Python string helpers over [list ascii] *)
Module PyStr.
  Local Open Scope nat_scope.

Definition chars (s : string) : list ascii := list_ascii_of_string s.
Definition str (l : list ascii) : string := string_of_list_ascii l.

Definition code (c : ascii) : nat := nat_of_ascii c.

  (** [str.isspace] / regex [\s] restricted to ASCII: \t \n \v \f \r,
      the separators \x1c-\x1f and the space. *)
Definition is_space (c : ascii) : bool :=
    let n := code c in
    ((9 <=? n) && (n <=? 13)) || ((28 <=? n) && (n <=? 32)).

Definition is_upper (c : ascii) : bool :=
    let n := code c in (65 <=? n) && (n <=? 90).
Definition is_lower (c : ascii) : bool :=
    let n := code c in (97 <=? n) && (n <=? 122).
Definition is_digit (c : ascii) : bool :=
    let n := code c in (48 <=? n) && (n <=? 57).

  (** regex [\w] on ASCII: letters, digits and underscore. *)
Definition is_word (c : ascii) : bool :=
    is_upper c || is_lower c || is_digit c || Ascii.eqb c "_".

Definition lower_char (c : ascii) : ascii :=
    if is_upper c then ascii_of_nat (code c + 32) else c.
Definition upper_char (c : ascii) : ascii :=
    if is_lower c then ascii_of_nat (code c - 32) else c.

  (** [str.lower()] *)
Definition lower (l : list ascii) : list ascii := map lower_char l.

Fixpoint lstrip (l : list ascii) : list ascii :=
    match l with
    | c :: l' => if is_space c then lstrip l' else l
    | [] => []
    end.

  (** [str.strip()] *)
Definition strip (l : list ascii) : list ascii := rev (lstrip (rev (lstrip l))).

Fixpoint prefixb (p l : list ascii) : bool :=
    match p, l with
    | [], _ => true
    | c :: p', d :: l' => Ascii.eqb c d && prefixb p' l'
    | _ :: _, [] => false
    end.

  (** [needle in hay] for Python strings *)
Fixpoint contains (needle hay : list ascii) : bool :=
    prefixb needle hay ||
    match hay with
    | [] => false
    | _ :: hay' => contains needle hay'
    end.

  (** [s.split(sep)[0]] for a one-character separator. *)
Fixpoint split_first (sep : ascii) (l : list ascii) : list ascii :=
    match l with
    | [] => []
    | c :: l' => if Ascii.eqb c sep then [] else c :: split_first sep l'
    end.

Fixpoint list_ascii_eqb (a b : list ascii) : bool :=
    match a, b with
    | [], [] => true
    | c :: a', d :: b' => Ascii.eqb c d && list_ascii_eqb a' b'
    | _, _ => false
    end.

  (** f"{a} {b}" *)
Definition join_space (a b : list ascii) : list ascii := a ++ " "%char :: b.

Fixpoint mem (x : list ascii) (l : list (list ascii)) : bool :=
    match l with
    | [] => false
    | y :: l' => list_ascii_eqb x y || mem x l'
    end.

  (** The "remove duplicates while preserving order" loop with a [seen] set. *)
Fixpoint dedup_aux (seen : list (list ascii)) (l : list (list ascii)) : list (list ascii) :=
    match l with
    | [] => []
    | x :: l' => if mem x seen then dedup_aux seen l'
                 else x :: dedup_aux (x :: seen) l'
    end.
Definition dedup (l : list (list ascii)) : list (list ascii) := dedup_aux [] l.

End PyStr.

(** ** A backtracking matcher for the regular expressions of the sources

    [m ic r prev s k] tries to match [r] at the start of [s]; [prev] is the
    character before the current position ([None] at the start of the
    string, used by [^] and [\b]); on success the continuation [k] receives
    the last consumed character and the rest of the input. Alternatives
    and quantifiers are tried in the priority order of Python's [sre]
    (greedy: one more iteration first; lazy: stop first). [ic] is
    [re.IGNORECASE]. *)
Module Re.
  Import PyStr.
  Local Open Scope nat_scope.

Inductive cls : Type :=
  | CChar (c : ascii)
  | CRange (lo hi : ascii)
  | CSpace                      (* \s *)
  | CWord.                      (* \w *)

Inductive re : Type :=
  | Chr (c : ascii)
  | Set_ (negated : bool) (items : list cls)
  | Any                         (* . *)
  | Eps
  | Seq (r1 r2 : re)
  | Alt (r1 r2 : re)
  | Star (greedy : bool) (r : re)
  | Bol                         (* ^ *)
  | Eol                         (* $ : end of string or before a final \n *)
  | WordB.                      (* \b *)

Definition result := option (option ascii * list ascii).

Definition chr_eq (ic : bool) (c x : ascii) : bool :=
    if ic then Ascii.eqb (lower_char c) (lower_char x) else Ascii.eqb c x.

Definition cls_item (c : cls) (x : ascii) : bool :=
    match c with
    | CChar d => Ascii.eqb d x
    | CRange lo hi => (code lo <=? code x) && (code x <=? code hi)
    | CSpace => is_space x
    | CWord => is_word x
    end.

Definition cls_any (items : list cls) (x : ascii) : bool :=
    existsb (fun c => cls_item c x) items.

Definition set_match (ic negated : bool) (items : list cls) (x : ascii) : bool :=
    let hit := if ic then cls_any items x || cls_any items (lower_char x)
                          || cls_any items (upper_char x)
               else cls_any items x in
    if negated then negb hit else hit.

Definition word_opt (o : option ascii) : bool :=
    match o with Some c => is_word c | None => false end.

  (** The loop of a star [r1*] ([greedy] or lazy [*?]) whose body matcher is
      [body]; every iteration must consume input, and the fuel
      [S (length s)] given by [m] is never exhausted since each iteration
      shortens the input. *)
Fixpoint star_loop (body : option ascii -> list ascii ->
                             (option ascii -> list ascii -> result) -> result)
           (greedy : bool) (k : option ascii -> list ascii -> result)
           (n : nat) (p : option ascii) (s0 : list ascii) : result :=
    match n with
    | O => k p s0
    | S n' =>
        let more := body p s0 (fun p1 s1 => if length s1 <? length s0
                                            then star_loop body greedy k n' p1 s1
                                            else None) in
        if greedy then
          match more with Some e => Some e | None => k p s0 end
        else
          match k p s0 with Some e => Some e | None => more end
    end.

Fixpoint m (ic : bool) (r : re) (prev : option ascii) (s : list ascii)
           (k : option ascii -> list ascii -> result) {struct r} : result :=
    match r with
    | Chr c =>
        match s with
        | x :: s' => if chr_eq ic c x then k (Some x) s' else None
        | [] => None
        end
    | Set_ neg items =>
        match s with
        | x :: s' => if set_match ic neg items x then k (Some x) s' else None
        | [] => None
        end
    | Any =>
        match s with
        | x :: s' => if Ascii.eqb x "010"%char then None else k (Some x) s'
        | [] => None
        end
    | Eps => k prev s
    | Seq r1 r2 => m ic r1 prev s (fun p s1 => m ic r2 p s1 k)
    | Alt r1 r2 =>
        match m ic r1 prev s k with
        | Some e => Some e
        | None => m ic r2 prev s k
        end
    | Star g r1 => star_loop (m ic r1) g k (S (length s)) prev s
    | Bol => match prev with None => k prev s | Some _ => None end
    | Eol =>
        match s with
        | [] => k prev s
        | [x] => if Ascii.eqb x "010"%char then k prev s else None
        | _ => None
        end
    | WordB =>
        if xorb (word_opt prev) (word_opt (hd_error s)) then k prev s else None
    end.

Definition match_here (ic : bool) (r : re) (prev : option ascii) (s : list ascii) : result :=
    m ic r prev s (fun p rest => Some (p, rest)).

  (** [re.sub(r, repl, s, flags)]. None of the patterns of this development
      can match the empty string, so a match is always a non-empty prefix and
      the rule of [re.sub] for empty matches is not needed. *)
Fixpoint sub_aux (ic : bool) (r : re) (repl : list ascii) (fuel : nat)
           (prev : option ascii) (s : list ascii) : list ascii :=
    match fuel with
    | O => s
    | S fuel' =>
        match s with
        | [] => []
        | x :: s' =>
            match match_here ic r prev s with
            | Some (p, rest) =>
                if length rest <? length s
                then repl ++ sub_aux ic r repl fuel' p rest
                else x :: sub_aux ic r repl fuel' (Some x) s'
            | None => x :: sub_aux ic r repl fuel' (Some x) s'
            end
        end
    end.

Definition sub (ic : bool) (r : re) (repl s : list ascii) : list ascii :=
    sub_aux ic r repl (length s) None s.

  (** [re.search(r, s, flags)]: the start index of the leftmost match. *)
Fixpoint search_aux (ic : bool) (r : re) (i : nat) (prev : option ascii)
           (s : list ascii) : option nat :=
    match match_here ic r prev s with
    | Some _ => Some i
    | None =>
        match s with
        | [] => None
        | x :: s' => search_aux ic r (S i) (Some x) s'
        end
    end.

Definition search (ic : bool) (r : re) (s : list ascii) : option nat :=
    search_aux ic r 0 None s.

  (** Derived forms *)
Definition lit (s : string) : re :=
    fold_right (fun c acc => Seq (Chr c) acc) Eps (chars s).
Definition seqs (l : list re) : re := fold_right Seq Eps l.
Definition plus (r : re) : re := Seq r (Star true r).
Definition opt (r : re) : re := Alt r Eps.
Definition ws := Set_ false [CSpace].
Definition ws_star := Star true ws.
Definition ws_plus := plus ws.
Definition any_lazy := Star false Any.      (* .*? *)
Definition any_greedy := Star true Any.     (* .* *)
Definition not_rparen := Set_ true [CChar ")"].
Definition dquote : ascii := ascii_of_nat 34.

End Re.

(** ** Python float helpers *)
Module PyFloat.
  Open Scope float_scope.

  (** [float(z)] for an integer of at most 53 bits *)
Definition of_Z (z : Z) : float :=
    if (z <? 0)%Z then - PrimFloat.of_uint63 (Uint63Axioms.of_Z (- z))
    else PrimFloat.of_uint63 (Uint63Axioms.of_Z z).

  (** The float nearest to [m / d] (one correctly rounded division of two
      exact integers): the value of the literal [m / d] written in decimal,
      e.g. [num 35 100] is [0.35]. *)
Definition num (m : Z) (d : positive) : float := of_Z m / of_Z (Zpos d).

  Open Scope Z_scope.

  (** Round-half-to-even of the rational [n / d], [d > 0]. *)
Definition round_half_even (n d : Z) : Z :=
    let q := n / d in
    let r := n mod d in
    if 2 * r <? d then q
    else if d <? 2 * r then q + 1
    else if Z.even q then q else q + 1.

  (** [int(round(f))] for a finite float [f] (Python 3 rounds halves to even,
      on the exact binary value of [f]). *)
Definition py_round (f : float) : Z :=
    match FloatOps.Prim2SF f with
    | S754_finite s mant e =>
        let v := if s then Z.neg mant else Z.pos mant in
        if 0 <=? e then v * 2 ^ e else round_half_even v (2 ^ (- e))
    | _ => 0
    end.
End PyFloat.

(** ** [fuzzywuzzy.fuzz.ratio]

    [ratio] is wrapped by the decorators [check_for_none],
    [check_for_equivalence] (equal strings score 100) and [check_empty_string]
    (an empty string scores 0), then returns [utils.intr(100 * m.ratio())]
    where [m] is the [SequenceMatcher] in use: python-Levenshtein's
    [StringMatcher] when that package is installed, [difflib.SequenceMatcher]
    otherwise. Both ratios have the form [2 * M / T] with [T] the total
    length: [M] is the length of a longest common subsequence for
    Levenshtein's (indel distance) ratio and the size of the matching blocks
    for difflib's. *)
Module Fuzz.
  Import PyStr.

  Local Open Scope nat_scope.

Inductive backend := PyLevenshtein | Difflib.

  (** Longest common subsequence, row by row. *)
Fixpoint lcs_step (x : ascii) (b : list ascii) (prev : list nat) (left diag : nat)
    : list nat :=
    match b, prev with
    | y :: b', up :: prev' =>
        let v := if Ascii.eqb x y then S diag else Nat.max left up in
        v :: lcs_step x b' prev' v up
    | _, _ => []
    end.

Definition lcs (a b : list ascii) : nat :=
    last (fold_left (fun row x => lcs_step x b row 0 0) a (repeat 0 (length b))) 0.

  (** difflib: [find_longest_match] without junk (strings shorter than 200
      characters, so the autojunk heuristic is off): the longest common block
      of [a[alo:ahi]] and [b[blo:bhi]], the earliest in [a], then in [b]. *)
Fixpoint common_prefix (a b : list ascii) : nat :=
    match a, b with
    | x :: a', y :: b' => if Ascii.eqb x y then S (common_prefix a' b') else O
    | _, _ => O
    end.

Definition find_longest_match (a b : list ascii) (alo ahi blo bhi : nat)
    : nat * nat * nat :=
    fold_left
      (fun best i =>
         fold_left
           (fun best j =>
              let '(_, _, bsize) := best in
              let k := common_prefix (firstn (ahi - i) (skipn i a))
                                     (firstn (bhi - j) (skipn j b)) in
              if bsize <? k then (i, j, k) else best)
           (seq blo (bhi - blo)) best)
      (seq alo (ahi - alo)) (alo, blo, 0).

  (** Total size of [get_matching_blocks()]. *)
Fixpoint matching_size (fuel : nat) (a b : list ascii) (alo ahi blo bhi : nat) : nat :=
    match fuel with
    | O => O
    | S f =>
        let '(i, j, k) := find_longest_match a b alo ahi blo bhi in
        if k =? 0 then 0
        else k + matching_size f a b alo i blo j
               + matching_size f a b (i + k) ahi (j + k) bhi
    end.

Definition difflib_matches (a b : list ascii) : nat :=
    matching_size (S (length a)) a b 0 (length a) 0 (length b).

Definition matches (bk : backend) (a b : list ascii) : nat :=
    match bk with
    | PyLevenshtein => lcs a b
    | Difflib => difflib_matches a b
    end.

  (** [utils.intr(100 * m.ratio())] with [m.ratio() = 2.0 * M / T]. *)
Definition scaled (mt total : nat) : Z :=
    PyFloat.py_round
      (PrimFloat.mul (PyFloat.of_Z 100)
         (PrimFloat.div (PyFloat.of_Z (Z.of_nat (2 * mt))) (PyFloat.of_Z (Z.of_nat total)))).

Definition ratio (bk : backend) (s1 s2 : list ascii) : Z :=
    if list_ascii_eqb s1 s2 then 100%Z
    else if (length s1 =? 0) || (length s2 =? 0) then 0%Z
    else scaled (matches bk s1 s2) (length s1 + length s2).

End Fuzz.

(** ** [EnhancedGeniusClient]: title cleaning, query generation, matching *)
Module Genius.
  Import PyStr Re.
  Local Open Scope nat_scope.

  (** [self.suffixes_to_remove], in order. *)
Definition suffixes_to_remove : list re := [
    (* r'\s*\(with\s+.*?\)' *)
    seqs [ws_star; Chr "("; lit "with"; ws_plus; any_lazy; Chr ")"];
    (* r'\s*\(feat\.?\s+.*?\)' *)
    seqs [ws_star; Chr "("; lit "feat"; opt (Chr "."); ws_plus; any_lazy; Chr ")"];
    (* r'\s*\(featuring\s+.*?\)' *)
    seqs [ws_star; Chr "("; lit "featuring"; ws_plus; any_lazy; Chr ")"];
    (* r'\s*\(ft\.?\s+.*?\)' *)
    seqs [ws_star; Chr "("; lit "ft"; opt (Chr "."); ws_plus; any_lazy; Chr ")"];
    (* r'\s*\(f/\s+.*?\)' *)
    seqs [ws_star; Chr "("; lit "f/"; ws_plus; any_lazy; Chr ")"];
    (* r'\s*\(x\s+.*?\)' *)
    seqs [ws_star; Chr "("; lit "x"; ws_plus; any_lazy; Chr ")"];
    (* r'\s*-\s*Remastered.*$' *)
    seqs [ws_star; Chr "-"; ws_star; lit "Remastered"; any_greedy; Eol];
    (* r'\s*\(Remastered.*?\)' *)
    seqs [ws_star; Chr "("; lit "Remastered"; any_lazy; Chr ")"];
    (* r'\s*-\s*.*?Remaster.*$' *)
    seqs [ws_star; Chr "-"; ws_star; any_lazy; lit "Remaster"; any_greedy; Eol];
    (* r'\s*-\s*.*?Version.*$' *)
    seqs [ws_star; Chr "-"; ws_star; any_lazy; lit "Version"; any_greedy; Eol];
    (* r'\s*\(.*?Version.*?\)' *)
    seqs [ws_star; Chr "("; any_lazy; lit "Version"; any_lazy; Chr ")"];
    (* r'\s*-\s*From\s+".*?".*$' *)
    seqs [ws_star; Chr "-"; ws_star; lit "From"; ws_plus; Chr dquote; any_lazy;
          Chr dquote; any_greedy; Eol];
    (* r'\s*\(From\s+".*?".*?\)' *)
    seqs [ws_star; Chr "("; lit "From"; ws_plus; Chr dquote; any_lazy; Chr dquote;
          any_lazy; Chr ")"];
    (* r'\s*-\s*featured\s+in.*$' *)
    seqs [ws_star; Chr "-"; ws_star; lit "featured"; ws_plus; lit "in"; any_greedy; Eol];
    (* r'\s*\(featured\s+in.*?\)' *)
    seqs [ws_star; Chr "("; lit "featured"; ws_plus; lit "in"; any_lazy; Chr ")"];
    (* r'\s*-\s*From\s+the.*$' *)
    seqs [ws_star; Chr "-"; ws_star; lit "From"; ws_plus; lit "the"; any_greedy; Eol];
    (* r'\s*\(From\s+the.*?\)' *)
    seqs [ws_star; Chr "("; lit "From"; ws_plus; lit "the"; any_lazy; Chr ")"];
    (* r'\s*-\s*.*?Radio.*$' *)
    seqs [ws_star; Chr "-"; ws_star; any_lazy; lit "Radio"; any_greedy; Eol];
    (* r'\s*\(.*?Radio.*?\)' *)
    seqs [ws_star; Chr "("; any_lazy; lit "Radio"; any_lazy; Chr ")"];
    (* r'\s*-\s*.*?Mix.*$' *)
    seqs [ws_star; Chr "-"; ws_star; any_lazy; lit "Mix"; any_greedy; Eol];
    (* r'\s*\(.*?Mix.*?\)' *)
    seqs [ws_star; Chr "("; any_lazy; lit "Mix"; any_lazy; Chr ")"]
  ].

  (** The five censorship substitutions, e.g. r'\bb\*+h\b' -> 'bitch'. *)
Definition censored (first last : string) : re :=
    seqs [WordB; lit first; plus (Chr "*"); lit last; WordB].

Definition censorship : list (re * list ascii) := [
    (censored "b" "h", chars "bitch");
    (censored "a" EmptyString, chars "ass");
    (censored "s" "t", chars "shit");
    (censored "f" "k", chars "fuck");
    (censored "n" "a", chars "nigga")
  ].

  (** [clean_title_for_search] *)
Definition clean_title_for_search (title : list ascii) : list ascii :=
    let cleaned := fold_left (fun acc p => sub true p [] acc) suffixes_to_remove title in
    let cleaned := fold_left (fun acc pr => sub true (fst pr) (snd pr) acc) censorship cleaned in
    strip (sub false ws_plus [" "%char] cleaned).

  (** r'\s+(feat\.?|featuring|ft\.?|with|f/)\s+.*$' *)
Definition featuring_clause : re :=
    seqs [ws_plus;
          Alt (Seq (lit "feat") (opt (Chr ".")))
              (Alt (lit "featuring")
                   (Alt (Seq (lit "ft") (opt (Chr ".")))
                        (Alt (lit "with") (lit "f/"))));
          ws_plus; any_greedy; Eol].

  (** [artist.split(",")[0].split("&")[0].strip()] followed by the removal of
      the featuring clause and [.strip()]. *)
Definition main_artist_of (artist : list ascii) : list ascii :=
    let a := strip (split_first "&" (split_first "," artist)) in
    strip (sub true featuring_clause [] a).

  (** r"['\-\.]" *)
Definition artist_punct : re := Set_ false [CChar "'"; CChar "-"; CChar "."].
  (** r'[^\w\s]' *)
Definition non_word_non_space : re := Set_ true [CWord; CSpace].

  (** [generate_search_queries] *)
Definition generate_search_queries (title artist : list ascii) : list (list ascii) :=
    let clean_title := clean_title_for_search title in
    let main_artist := main_artist_of artist in
    let main_artist_no_punct := strip (sub false artist_punct [] main_artist) in
    let q1 := [join_space clean_title main_artist] in
    let q2 := if list_ascii_eqb artist main_artist then []
              else [join_space clean_title artist] in
    let q3 := [join_space main_artist clean_title] in
    let q4 := [clean_title] in
    let q5 := if list_ascii_eqb title clean_title then []
              else [join_space title main_artist] in
    let simplified_title := strip (sub false non_word_non_space [" "%char] clean_title) in
    let simplified_title := sub false ws_plus [" "%char] simplified_title in
    let q6 := if list_ascii_eqb simplified_title clean_title then []
              else [join_space simplified_title main_artist] in
    let q7 := if list_ascii_eqb main_artist_no_punct main_artist then []
              else [join_space clean_title main_artist_no_punct;
                    join_space main_artist_no_punct clean_title] in
    dedup (q1 ++ q2 ++ q3 ++ q4 ++ q5 ++ q6 ++ q7).

  (** r'^\s*(the|a|an)\s+' (IGNORECASE) *)
Definition leading_article : re :=
    seqs [Bol; ws_star; Alt (lit "the") (Alt (lit "a") (lit "an")); ws_plus].
Definition remove_articles (text : list ascii) : list ascii :=
    strip (sub true leading_article [] text).

  (** r'\s*\([^)]*\)' *)
Definition parenthetical : re :=
    seqs [ws_star; Chr "("; Star true not_rparen; Chr ")"].
Definition remove_all_parentheticals (text : list ascii) : list ascii :=
    strip (sub false parenthetical [] text).

  (** r'\s*\(?(feat\.|ft\.)\s+[^)]*\)?' (IGNORECASE) *)
Definition feat_info : re :=
    seqs [ws_star; opt (Chr "("); Alt (lit "feat.") (lit "ft."); ws_plus;
          Star true not_rparen; opt (Chr ")")].
Definition remove_feat (text : list ascii) : list ascii :=
    strip (sub true feat_info [] text).

  (** The similarity values computed by [_is_good_match]. *)
Record similarities := {
    title_similarity : Z;
    title_similarity_no_feat : Z;
    title_similarity_no_article : Z;
    title_similarity_no_parens : Z;
    artist_similarity : Z }.

Definition main_artist_lower (original_artist : list ascii) : list ascii :=
    lower (main_artist_of original_artist).

Definition similarities_of (bk : Fuzz.backend)
             (genius_title genius_artist original_title original_artist : list ascii)
    : similarities :=
    let gtn := lower (clean_title_for_search genius_title) in
    let otn := lower (clean_title_for_search original_title) in
    let gan := lower genius_artist in
    let main_artist := main_artist_lower original_artist in
    {| title_similarity := Fuzz.ratio bk gtn otn;
       title_similarity_no_feat := Fuzz.ratio bk (remove_feat gtn) (remove_feat otn);
       title_similarity_no_article :=
         Fuzz.ratio bk (remove_articles gtn) (remove_articles otn);
       title_similarity_no_parens :=
         Fuzz.ratio bk (remove_all_parentheticals gtn) (remove_all_parentheticals otn);
       artist_similarity := Fuzz.ratio bk gan main_artist |}.

  (** The choice of [best_title_similarity]. *)
Definition best_title_similarity (sm : similarities) : Z :=
    let max3 := Z.max (title_similarity sm)
                  (Z.max (title_similarity_no_feat sm) (title_similarity_no_article sm)) in
    if (max3 <? title_similarity_no_parens sm)%Z then
      if (85 <=? artist_similarity sm)%Z then title_similarity_no_parens sm else max3
    else Z.max (title_similarity sm)
           (Z.max (title_similarity_no_feat sm)
              (Z.max (title_similarity_no_article sm) (title_similarity_no_parens sm))).

Definition artist_threshold (best : Z) : Z :=
    if (best =? 100)%Z then 45 else if (95 <=? best)%Z then 60 else 70.

  (** [_is_good_match]; [fuzzy_available] is [FUZZYWUZZY_AVAILABLE]. *)
Definition is_good_match (fuzzy_available : bool) (bk : Fuzz.backend)
             (genius_title genius_artist original_title original_artist : list ascii) : bool :=
    if negb fuzzy_available then
      contains (lower genius_title) (lower original_title)
      || contains (lower original_title) (lower genius_title)
    else
      let sm := similarities_of bk genius_title genius_artist original_title original_artist in
      let best := best_title_similarity sm in
      let gan := lower genius_artist in
      let main_artist := main_artist_lower original_artist in
      let artist_match :=
        contains main_artist gan || contains gan main_artist
        || (artist_threshold best <=? Fuzz.ratio bk gan main_artist)%Z in
      (70 <=? best)%Z && artist_match.

End Genius.

(** ** Python numbers used by the reasoning engine and the rule matcher

    The weights, confidences and feature values of the sources are Python
    floats. The arithmetic the code performs is abstracted as a class with
    two instances: IEEE binary64 ([PrimFloat.float], exactly Python's float)
    to evaluate the code on concrete inputs, and exact rationals [Q], on
    which the bounds are proved. [num m d] is the float literal or integer
    of value [m / d]. *)
Class PyNum (R : Type) := {
  num : Z -> positive -> R;
  nadd : R -> R -> R;
  nmul : R -> R -> R;
  ndiv : R -> R -> R;
  nltb : R -> R -> bool;
  nleb : R -> R -> bool }.

#[export] Instance float_num : PyNum float := {|
  num := PyFloat.num;
  nadd := PrimFloat.add;
  nmul := PrimFloat.mul;
  ndiv := PrimFloat.div;
  nltb := PrimFloat.ltb;
  nleb := PrimFloat.leb |}.

#[export] Instance q_num : PyNum Q := {|
  num := Qmake;
  nadd := Qplus;
  nmul := Qmult;
  ndiv := Qdiv;
  nltb := fun a b => negb (Qle_bool b a);
  nleb := Qle_bool |}.

(** Outcome of a call that may raise. *)
Inductive outcome (A : Type) : Type :=
| Raised
| Returned (a : A).
Arguments Raised {A}.
Arguments Returned {A} a.

(** ** [GenreClassificationSystem]: the reasoning engine *)
Module Engine.
  Import PyStr.
  Local Open Scope nat_scope.
  Local Open Scope string_scope.
  Local Open Scope list_scope.

  Section WithNum.
  Context {R : Type} `{PyNum R}.

  (** The iteration order of a Python [set] of strings built by adding the
      given strings in order: it depends on the string hashes of the
      process, hence a parameter. *)
  Variable set_list : list (list ascii) -> list (list ascii).

Record classification := {
    c_name : list ascii;
    c_confidence : R;
    c_source : list ascii }.

  (** [ArtistGenreProfile], without the A&R insights and the raw source
      payloads, which the engine does not read. *)
Record profile := {
    artist_name : list ascii;
    classifications : list classification;
    confidence_score : R;
    primary_genre : option (list ascii);
    secondary_tags : list (list ascii);
    crossover_indicators : list (list ascii) }.

Definition new_profile (name : list ascii) : profile :=
    {| artist_name := name; classifications := []; confidence_score := num 0 1;
       primary_genre := None; secondary_tags := []; crossover_indicators := [] |}.

  (** [self.source_weights] *)
Definition source_weights : list (string * R) :=
    [("chartmetric", num 35 100); ("spotify", num 30 100);
     ("lastfm", num 25 100); ("genius", num 10 100)].

Fixpoint lookup {A : Type} (k : list ascii) (l : list (string * A)) : option A :=
    match l with
    | [] => None
    | (k', v) :: l' => if list_ascii_eqb k (chars k') then Some v else lookup k l'
    end.

  (** [self.source_weights.get(source, 0.1)] *)
Definition source_weight (source : list ascii) : R :=
    match lookup source source_weights with Some w => w | None => num 1 10 end.

Definition weight (c : classification) : R :=
    nmul (source_weight (c_source c)) (c_confidence c).

  (** [self.primary_genre_mapping] *)
Definition primary_genre_mapping : list (string * string) := [
    ("pop", "pop"); ("dance pop", "pop"); ("electropop", "pop");
    ("synth pop", "pop"); ("teen pop", "pop"); ("power pop", "pop");
    ("art pop", "pop"); ("baroque pop", "pop"); ("chamber pop", "pop");
    ("rap", "hip-hop"); ("hip-hop", "hip-hop"); ("hip hop", "hip-hop");
    ("trap", "hip-hop"); ("pop rap", "hip-hop"); ("melodic rap", "hip-hop");
    ("conscious hip hop", "hip-hop"); ("old school hip hop", "hip-hop");
    ("east coast hip hop", "hip-hop"); ("west coast hip hop", "hip-hop");
    ("southern hip hop", "hip-hop"); ("drill", "hip-hop"); ("grime", "hip-hop");
    ("rock", "rock"); ("hard rock", "rock"); ("classic rock", "rock");
    ("progressive rock", "rock"); ("psychedelic rock", "rock");
    ("garage rock", "rock"); ("blues rock", "rock"); ("folk rock", "rock");
    ("pop rock", "rock"); ("punk rock", "rock"); ("metal", "rock");
    ("heavy metal", "rock"); ("alternative", "alternative");
    ("alternative rock", "alternative"); ("indie", "alternative");
    ("indie rock", "alternative"); ("indie pop", "alternative");
    ("alternative pop", "alternative"); ("indie folk", "alternative");
    ("shoegaze", "alternative"); ("post-punk", "alternative");
    ("post-rock", "alternative"); ("emo", "alternative");
    ("grunge", "alternative"); ("new wave", "alternative");
    ("britpop", "alternative"); ("country", "country"); ("country pop", "country");
    ("new country", "country"); ("country rock", "country");
    ("americana", "country"); ("bluegrass", "country");
    ("country folk", "country"); ("electronic", "electronic");
    ("edm", "electronic"); ("house", "electronic"); ("techno", "electronic");
    ("trance", "electronic"); ("dubstep", "electronic"); ("ambient", "electronic");
    ("drum and bass", "electronic"); ("breakbeat", "electronic");
    ("garage", "electronic"); ("uk garage", "electronic");
    ("future bass", "electronic"); ("synthwave", "electronic"); ("r&b", "r&b");
    ("rnb", "r&b"); ("rhythm and blues", "r&b"); ("soul", "r&b");
    ("neo soul", "r&b"); ("contemporary r&b", "r&b"); ("funk", "r&b");
    ("gospel", "r&b"); ("motown", "r&b"); ("latin", "latin");
    ("reggaeton", "latin"); ("latin pop", "latin"); ("latin trap", "latin");
    ("salsa", "latin"); ("bachata", "latin"); ("merengue", "latin");
    ("cumbia", "latin"); ("regional mexican", "latin"); ("mariachi", "latin");
    ("folk", "folk"); ("acoustic", "folk"); ("singer-songwriter", "folk");
    ("contemporary folk", "folk"); ("traditional folk", "folk");
    ("celtic", "folk"); ("world music", "folk"); ("world", "folk");
    ("jazz", "jazz"); ("smooth jazz", "jazz"); ("bebop", "jazz");
    ("fusion", "jazz"); ("acid jazz", "jazz"); ("latin jazz", "jazz");
    ("big band", "jazz"); ("swing", "jazz"); ("cool jazz", "jazz");
    ("hard bop", "jazz")
  ].

Fixpoint fuzzy_map (g : list ascii) (l : list (string * string)) : string :=
    match l with
    | [] => "other"
    | (detailed, primary) :: l' =>
        if contains g (chars detailed) || contains (chars detailed) g then primary
        else fuzzy_map g l'
    end.

  (** [_map_to_primary_genre] *)
Definition map_to_primary_genre (genre : list ascii) : list ascii :=
    let genre_lower := strip (lower genre) in
    match lookup genre_lower primary_genre_mapping with
    | Some p => chars p
    | None => chars (fuzzy_map genre_lower primary_genre_mapping)
    end.

  (** A Python dict [str -> number] in insertion order. *)
Definition votes := list (list ascii * R).

Fixpoint vlookup (k : list ascii) (v : votes) : option R :=
    match v with
    | [] => None
    | (k', x) :: v' => if list_ascii_eqb k k' then Some x else vlookup k v'
    end.

  (** [d[k] += w] on an existing key *)
Fixpoint vadd (k : list ascii) (w : R) (v : votes) : votes :=
    match v with
    | [] => []
    | (k', x) :: v' => if list_ascii_eqb k k' then (k', nadd x w) :: v'
                       else (k', x) :: vadd k w v'
    end.

  (** [if k not in d: d[k] = 0] followed by [d[k] += w] *)
Definition vote (k : list ascii) (w : R) (v : votes) : votes :=
    match vlookup k v with
    | Some _ => vadd k w v
    | None => v ++ [(k, nadd (num 0 1) w)]
    end.

  (** The per-primary-genre totals ([primary_genre_votes], and
      [genre_strengths] in [_detect_crossover_indicators]). *)
Definition genre_totals (cs : list classification) : votes :=
    fold_left (fun v c => vote (map_to_primary_genre (c_name c)) (weight c) v) cs [].

  (** [max(d, key=d.get)]: the first key of maximal value. *)
Fixpoint max_key_aux (best : list ascii * R) (v : votes) : list ascii * R :=
    match v with
    | [] => best
    | x :: v' => max_key_aux (if nltb (snd best) (snd x) then x else best) v'
    end.
Definition max_key (v : votes) : option (list ascii) :=
    match v with
    | [] => None
    | x :: v' => Some (fst (max_key_aux x v'))
    end.

  (** [sum(d.values())] *)
Definition total (v : votes) : R := fold_left (fun acc x => nadd acc (snd x)) v (num 0 1).

  (** [sorted(d.items(), key=lambda x: x[1], reverse=True)] (stable). *)
Fixpoint insert_desc (x : list ascii * R) (l : votes) : votes :=
    match l with
    | [] => [x]
    | y :: l' => if nltb (snd y) (snd x) then x :: l else y :: insert_desc x l'
    end.
Definition sort_desc (v : votes) : votes := fold_left (fun acc x => insert_desc x acc) v [].

  (** The secondary tags collected into the set: every lower-cased name that
      differs from its own primary genre, in insertion order. *)
Definition secondary_candidates (cs : list classification) : list (list ascii) :=
    flat_map (fun c => if list_ascii_eqb (lower (c_name c)) (map_to_primary_genre (c_name c))
                       then [] else [lower (c_name c)]) cs.

  (** [_detect_crossover_indicators] *)
Definition detect_crossover_indicators (p : profile) : list (list ascii) :=
    let sorted_genres := sort_desc (genre_totals (classifications p)) in
    let multi :=
      match sorted_genres with
      | (g1, s1) :: (g2, s2) :: _ =>
          if nltb (nmul s1 (num 6 10)) s2
          then [chars "multi_genre_crossover";
                chars "primary_" ++ g1 ++ chars "_secondary_" ++ g2]
          else []
      | _ => []
      end in
    multi ++ (if Nat.ltb 5 (length (secondary_tags p)) then [chars "high_genre_diversity"] else []).

  (** [_apply_ari_reasoning_engine] (mutates the profile; here returns it). *)
Definition apply_ari_reasoning_engine (p : profile) : profile :=
    match classifications p with
    | [] =>
        {| artist_name := artist_name p; classifications := [];
           confidence_score := num 0 1; primary_genre := Some (chars "other");
           secondary_tags := secondary_tags p;
           crossover_indicators := crossover_indicators p |}
    | cs =>
        let primary_genre_votes := genre_totals cs in
        let '(pg, conf) :=
          match max_key primary_genre_votes with
          | Some g =>
              let total_weight := total primary_genre_votes in
              let primary_weight :=
                match vlookup g primary_genre_votes with Some w => w | None => num 0 1 end in
              (g, if nltb (num 0 1) total_weight then ndiv primary_weight total_weight
                  else num 0 1)
          | None => (chars "other", num 0 1)
          end in
        let p1 := {| artist_name := artist_name p; classifications := cs;
                     confidence_score := conf; primary_genre := Some pg;
                     secondary_tags := firstn 10 (set_list (secondary_candidates cs));
                     crossover_indicators := crossover_indicators p |} in
        {| artist_name := artist_name p1; classifications := cs;
           confidence_score := conf; primary_genre := Some pg;
           secondary_tags := secondary_tags p1;
           crossover_indicators := detect_crossover_indicators p1 |}
    end.

  End WithNum.
End Engine.

(** ** [GenreClassificationSystem.classify_artist] with its persisted data *)
Module Classify.
  Import PyStr Re Engine.
  Local Open Scope nat_scope.
  Local Open Scope string_scope.
  Local Open Scope list_scope.

  (** SQL [LIKE] matching ([%] any sequence, [_] any character, backslash
      escapes the next character). *)
Fixpoint like_match (p s : list ascii) {struct p} : bool :=
    match p with
    | [] => match s with [] => true | _ => false end
    | c :: p' =>
        if Ascii.eqb c "%" then
          (fix any (s0 : list ascii) : bool :=
             like_match p' s0 || match s0 with [] => false | _ :: s1 => any s1 end) s
        else if Ascii.eqb c "_" then
          match s with [] => false | _ :: s' => like_match p' s' end
        else if Ascii.eqb c "\" then
          match p', s with
          | e :: p'', x :: s' => Ascii.eqb e x && like_match p'' s'
          | [], x :: s' => Ascii.eqb c x && like_match p' s'
          | _, [] => false
          end
        else
          match s with x :: s' => Ascii.eqb c x && like_match p' s' | [] => false end
    end.

  (** [column.ilike(f"%{name}%")] *)
Definition ilike_contains (name column : list ascii) : bool :=
    like_match (lower ("%"%char :: name ++ ["%"%char])) (lower column).

  (** Rows of [songs], [song_genres] and [genres]; [song_genres.confidence_score]
      is a [Numeric(3, 2)], kept as an integer number of hundredths. *)
Record song := { song_id : Z; song_artist_name : list ascii }.
Record song_genre := { sg_song_id : Z; sg_genre_id : Z; sg_confidence : Z }.
Record genre := { genre_id : Z; genre_name : list ascii }.
Record db := { songs : list song; song_genres : list song_genre; genres : list genre }.

Definition Z_mem (z : Z) (l : list Z) : bool := existsb (Z.eqb z) l.

Definition genre_of (d : db) (gid : Z) : option genre :=
    find (fun g => Z.eqb (genre_id g) gid) (genres d).

  (** The songs of [artist_name] (no year filter, as [classify_artist] calls it). *)
Definition artist_songs (d : db) (artist_name : list ascii) : list song :=
    filter (fun s => ilike_contains artist_name (song_artist_name s)) (songs d).

  (** [SongGenres.confidence_score > 0.8] (a decimal compared exactly) *)
Definition high (r : song_genre) : bool := (80 <? sg_confidence r)%Z.

  (** [_get_existing_classification]: the genre name and confidence (in
      hundredths) of the reconstructed profile, if any. *)
Definition get_existing_classification (d : db) (artist_name : list ascii)
    : option (list ascii * Z) :=
    let ss := artist_songs d artist_name in
    match ss with
    | [] => None
    | _ =>
        let song_ids := map song_id ss in
        let rows := filter (fun r => Z_mem (sg_song_id r) song_ids && high r) (song_genres d) in
        let classified_count := length rows in
        if Nat.eqb classified_count (length ss) && Nat.ltb 0 classified_count then
          (* [.join(Genres) ... .first()] *)
          match find (fun r => match genre_of d (sg_genre_id r) with
                               | Some _ => true | None => false end) rows with
          | Some r =>
              match genre_of d (sg_genre_id r) with
              | Some g => Some (genre_name g, sg_confidence r)
              | None => None
              end
          | None => None
          end
        else None
    end.

  (** [_get_genius_artist_genres]: distinct genre names over
      genres JOIN song_genres JOIN songs with the artist filter. *)
Definition genius_artist_genres (d : db) (artist_name : list ascii) : list (list ascii) :=
    let ids := map song_id (artist_songs d artist_name) in
    dedup (flat_map (fun r => if Z_mem (sg_song_id r) ids then
                                match genre_of d (sg_genre_id r) with
                                | Some g => [genre_name g] | None => []
                                end
                              else []) (song_genres d)).

  (** The featuring indicators of [_extract_primary_artist], in order. *)
Definition featuring_patterns : list re := [
    seqs [ws_plus; lit "feat"; opt (Chr "."); ws_plus];
    seqs [ws_plus; lit "ft"; opt (Chr "."); ws_plus];
    seqs [ws_plus; lit "featuring"; ws_plus];
    seqs [ws_plus; lit "with"; ws_plus];
    seqs [ws_plus; Chr "&"; ws_plus];
    seqs [ws_plus; Chr "x"; ws_plus];
    seqs [ws_plus; Chr "+"; ws_plus]
  ].

Fixpoint first_cut (pats : list re) (a : list ascii) : list ascii :=
    match pats with
    | [] => a
    | p :: pats' =>
        match search true p a with
        | Some i => strip (firstn i a)
        | None => first_cut pats' a
        end
    end.

  (** [_extract_primary_artist] *)
Definition extract_primary_artist (artist_name : list ascii) : list ascii :=
    first_cut featuring_patterns (strip (lower artist_name)).

  Section WithNum.
  Context {R : Type} `{PyNum R}.
  Variable set_list : list (list ascii) -> list (list ascii).

  (** The source clients as [classify_artist] sees them: [spotify] returns
      the [spotify_genres] list (empty when absent), [chartmetric] the genre
      list of a non-empty response ([None] for an empty one), [lastfm] the
      analysed tags [(name, confidence)] of a non-empty response, sorted as
      [analyze_genre_relevance] returns them. *)
Record sources := {
    spotify_available : bool;
    spotify : list ascii -> outcome (list (list ascii));
    chartmetric_available : bool;
    chartmetric : list ascii -> outcome (option (list (list ascii)));
    lastfm_available : bool;
    lastfm : list ascii -> outcome (option (list (list ascii * R))) }.

  (** [top_genres] of [LastFmGenreClient.extract_comprehensive_genre_data]:
      among the five first tags, those of confidence > 0.4. *)
Definition lastfm_top_genres (tags : list (list ascii * R)) : list (list ascii * R) :=
    filter (fun t => nltb (num 4 10) (snd t)) (firstn 5 tags).

Definition mk (name : list ascii) (conf : R) (source : string) : classification :=
    {| c_name := name; c_confidence := conf; c_source := chars source |}.

  (** The classifications gathered by [classify_artist] from the four sources,
      with the list of sources queried, in order. *)
Definition collect (srcs : sources) (d : db) (artist_name primary_artist : list ascii)
    : list classification * list string :=
    let '(cs1, calls1, good) :=
      if spotify_available srcs then
        match spotify srcs primary_artist with
        | Returned ((_ :: _) as gs) => (map (fun g => mk g (num 7 10) "spotify") gs, ["spotify"], true)
        | _ => ([], ["spotify"], false)
        end
      else ([], [], false) in
    let '(cs2, calls2) :=
      if negb good && chartmetric_available srcs then
        match chartmetric srcs primary_artist with
        | Returned (Some gs) => (map (fun g => mk g (num 8 10) "chartmetric") gs, ["chartmetric"])
        | _ => ([], ["chartmetric"])
        end
      else ([], []) in
    let '(cs3, calls3) :=
      if lastfm_available srcs then
        match lastfm srcs primary_artist with
        | Returned (Some tags) =>
            (map (fun t => mk (fst t) (snd t) "lastfm") (lastfm_top_genres tags), ["lastfm"])
        | _ => ([], ["lastfm"])
        end
      else ([], []) in
    let cs4 := map (fun g => mk g (num 6 10) "genius") (genius_artist_genres d artist_name) in
    (cs1 ++ cs2 ++ cs3 ++ cs4, calls1 ++ calls2 ++ calls3 ++ ["genius"]).

Definition cache := list (list ascii * @profile R).

Fixpoint cache_get (k : list ascii) (c : cache) : option (@profile R) :=
    match c with
    | [] => None
    | (k', p) :: c' => if list_ascii_eqb k k' then Some p else cache_get k c'
    end.

  (** [classify_artist]: the profile, the new in-memory cache and the sources
      queried. *)
Definition classify_artist (srcs : sources) (d : db) (c : cache) (artist_name : list ascii)
    : @profile R * cache * list string :=
    let primary_artist := extract_primary_artist artist_name in
    let existing :=
      match get_existing_classification d artist_name with
      | Some (g, conf) =>
          (* [existing_profile.confidence_score > 0.8] *)
          if (80 <? conf)%Z then
            Some {| artist_name := artist_name; classifications := [];
                    confidence_score := num conf 100; primary_genre := Some g;
                    secondary_tags := []; crossover_indicators := [] |}
          else None
      | None => None
      end in
    match existing with
    | Some p => (p, c, [])
    | None =>
        let cache_key := chars "artist_" ++ primary_artist in
        match cache_get cache_key c with
        | Some p => (p, c, [])
        | None =>
            let '(cs, calls) := collect srcs d artist_name primary_artist in
            let p0 := new_profile artist_name in
            let p := apply_ari_reasoning_engine set_list
                       {| artist_name := artist_name; classifications := cs;
                          confidence_score := confidence_score p0;
                          primary_genre := primary_genre p0;
                          secondary_tags := secondary_tags p0;
                          crossover_indicators := crossover_indicators p0 |} in
            (p, c ++ [(cache_key, p)], calls)
        end
    end.

  End WithNum.
End Classify.

(** ** Subgenre classification ([ml_subgenre_classifier.py],
    [subgenre_definitions.py]) *)
Module Subgenre.
  Import PyStr.
  Local Open Scope nat_scope.
  Local Open Scope string_scope.
  Local Open Scope list_scope.

  Section WithNum.
  Context {R : Type} `{PyNum R}.

  (** A profile: [{feature: (min_val, max_val)}] in insertion order. *)
Definition profile := list (string * (R * R)).

Definition rng (lo_m : Z) (lo_d : positive) (hi_m : Z) (hi_d : positive) : R * R :=
    (num lo_m lo_d, num hi_m hi_d).

  (** [RULE_BASED_SUBGENRES] *)
Definition RULE_BASED_SUBGENRES : list (string * list (string * profile)) := [
    ("jazz", [
      ("smooth-jazz", [("acousticness", rng 4 10 8 10); ("energy", rng 3 10 6 10)]);
      ("bebop", [("tempo", rng 200 1 350 1); ("instrumentalness", rng 5 10 10 10)]);
      ("jazz-fusion", [("energy", rng 6 10 9 10); ("instrumentalness", rng 3 10 8 10)])]);
    ("folk", [
      ("folk-rock", [("energy", rng 5 10 8 10); ("acousticness", rng 4 10 7 10)]);
      ("singer-songwriter", [("acousticness", rng 6 10 9 10); ("speechiness", rng 3 100 15 100)]);
      ("americana", [("acousticness", rng 5 10 8 10); ("valence", rng 4 10 7 10)])])
  ].

  (** The Spotify audio-features dict (numeric values), in insertion order. *)
Definition features := list (string * R).

Fixpoint sget {A : Type} (k : string) (l : list (string * A)) : option A :=
    match l with
    | [] => None
    | (k', v) :: l' => if String.eqb k k' then Some v else sget k l'
    end.

  (** One iteration of the loop of [_calculate_profile_match] over
      [profile.items()], on [(matches, total)]. *)
Definition profile_step (audio_features : features) (acc : R * nat)
             (fr : string * (R * R)) : R * nat :=
    let '(matches, total) := acc in
    let '(feature, (min_val, max_val)) := fr in
    match sget feature audio_features with
    | Some value =>
        let total := S total in
        if nleb min_val value && nleb value max_val then (nadd matches (num 1 1), total)
        else if (nleb min_val value && nleb value (nmul max_val (num 12 10)))
                || (nleb (nmul min_val (num 8 10)) value && nleb value max_val)
        then (nadd matches (num 1 2), total)
        else (matches, total)
    | None => (matches, total)
    end.

  (** [_calculate_profile_match] *)
Definition calculate_profile_match (audio_features : features) (prof : profile) : R :=
    let '(matches, total) := fold_left (profile_step audio_features) prof (num 0 1, 0) in
    if Nat.ltb 0 total then ndiv matches (num (Z.of_nat total) 1) else num 0 1.

  (** One iteration of the loop of [classify_with_rules] on
      [(best_match, best_score)]. *)
Definition rules_step (audio_features : features) (acc : option string * R)
             (sp : string * profile) : option string * R :=
    let score := calculate_profile_match audio_features (snd sp) in
    if nltb (snd acc) score then (Some (fst sp), score) else acc.

  (** The loop of [classify_with_rules]: the first subgenre of strictly
      greatest score, with that score. *)
Definition best_profile (audio_features : features) (profiles : list (string * profile))
    : option string * R :=
    fold_left (rules_step audio_features) profiles (None, num 0 1).

  (** [classify_with_rules] *)
Definition classify_with_rules (primary_genre : string) (audio_features : features)
    : option string * R :=
    match sget primary_genre RULE_BASED_SUBGENRES with
    | None => (None, num 0 1)
    | Some subgenre_profiles =>
        let '(best_match, best_score) := best_profile audio_features subgenre_profiles in
        if nleb (num 6 10) best_score then (best_match, best_score) else (None, best_score)
    end.

  (** A loaded model package: its feature columns and the
      polynomial / scaling / predict pipeline on a feature vector, which may
      raise; it returns the predicted label and [max(predict_proba)]. *)
Record model_package := {
    feature_cols : list string;
    predict : list R -> outcome (string * R) }.

  (** [audio_features.get(col, 0)] with the tempo adjustment. *)
Definition feature_value (audio_features : features) (col : string) : R :=
    let value := match sget col audio_features with Some v => v | None => num 0 1 end in
    if String.eqb col "tempo" then
      if nltb (num 200 1) value then ndiv value (num 2 1)
      else if nltb value (num 100 1) then nmul value (num 2 1)
      else value
    else value.

  (** [classify_with_ml]; [models] is [self.models]. *)
Definition classify_with_ml (models : list (string * model_package))
             (primary_genre : string) (audio_features : features) : option string * R :=
    match sget primary_genre models with
    | None => (None, num 0 1)
    | Some pkg =>
        match predict pkg (map (feature_value audio_features) (feature_cols pkg)) with
        | Returned (prediction, confidence) => (Some prediction, confidence)
        | Raised => (None, num 0 1)
        end
    end.

  (** Truthiness of the returned subgenre. *)
Definition truthy (s : option string) : bool :=
    match s with Some (String _ _) => true | _ => false end.

Record result := {
    r_subgenre : option string;
    r_confidence : R;
    r_method : option string;
    r_primary_genre : string }.

  (** [classify] *)
Definition classify (models : list (string * model_package)) (primary_genre : string)
             (audio_features : features) (method : string) : result :=
    let base := {| r_subgenre := None; r_confidence := num 0 1; r_method := None;
                   r_primary_genre := primary_genre |} in
    let ml :=
      if String.eqb method "ml" || String.eqb method "auto" then
        let '(subgenre, confidence) := classify_with_ml models primary_genre audio_features in
        if truthy subgenre then
          Some {| r_subgenre := subgenre; r_confidence := confidence; r_method := Some "ml";
                  r_primary_genre := primary_genre |}
        else None
      else None in
    match ml with
    | Some r => r
    | None =>
        let rules :=
          if String.eqb method "rules" || String.eqb method "auto" then
            let '(subgenre, confidence) := classify_with_rules primary_genre audio_features in
            if truthy subgenre then
              Some {| r_subgenre := subgenre; r_confidence := confidence;
                      r_method := Some "rules"; r_primary_genre := primary_genre |}
            else None
          else None in
        match rules with
        | Some r => r
        | None => {| r_subgenre := None; r_confidence := r_confidence base;
                     r_method := Some "none"; r_primary_genre := primary_genre |}
        end
    end.

  End WithNum.
End Subgenre.

(** ** Producer enrichment ([producer_genre_patterns.py]) *)
Module Producer.
  Import PyStr.
  Local Open Scope nat_scope.
  Local Open Scope string_scope.
  Local Open Scope list_scope.

  Section WithNum.
  Context {R : Type} `{PyNum R}.

  (** The iteration order of [set(l)] for a list of strings: it depends on
      the process's string hashes ([PYTHONHASHSEED]), hence a parameter. *)
  Variable set_list : list string -> list string.

  (** A signature (the [notes] and [secondary_genre] entries are not read). *)
Record signature := {
    primary : string;
    subgenres : list string;
    confidence : R }.

Definition sg (p : string) (s : list string) (c : Z) : signature :=
    {| primary := p; subgenres := s; confidence := num c 100 |}.

  (** [PRODUCER_GENRE_SIGNATURES] *)
Definition PRODUCER_GENRE_SIGNATURES : list (string * signature) := [
    ("max martin", sg "pop" ["dance-pop"; "teen-pop"; "electropop"] 95);
    ("rami", sg "pop" ["dance-pop"; "electropop"] 90);
    ("bag & arnthor", sg "pop" ["dance-pop"; "teen-pop"] 90);
    ("kristian lundin", sg "pop" ["dance-pop"; "teen-pop"] 90);
    ("the neptunes", sg "hip-hop" ["alternative-hip-hop"; "pop-rap"; "southern-hip-hop"] 95);
    ("mannie fresh", sg "hip-hop" ["southern-hip-hop"; "crunk"; "bounce"] 95);
    ("dr. dre", sg "hip-hop" ["west-coast-hip-hop"; "g-funk"; "gangster-rap"] 95);
    ("swizz beatz", sg "hip-hop" ["east-coast-hip-hop"; "hardcore-hip-hop"] 90);
    ("bryan-michael cox", sg "r&b" ["contemporary-r&b"; "neo-soul"] 90);
    ("rodney jerkins", sg "r&b" ["contemporary-r&b"; "pop-r&b"] 85);
    ("timbaland", sg "hip-hop" ["alternative-r&b"; "contemporary-r&b"; "pop-rap"] 85);
    ("jermaine dupri", sg "hip-hop" ["southern-hip-hop"; "contemporary-r&b"; "pop-rap"] 80);
    ("byron gallimore", sg "country" ["contemporary-country"; "country-pop"] 95);
    ("james stroud", sg "country" ["contemporary-country"; "traditional-country"] 90);
    ("paul worley", sg "country" ["contemporary-country"; "bluegrass"] 90);
    ("dann huff", sg "country" ["contemporary-country"; "country-rock"] 90);
    ("rick rubin", sg "rock" ["alternative-rock"; "hard-rock"; "rap-rock"] 90);
    ("don gilmore", sg "rock" ["nu-metal"; "alternative-metal"] 90)
  ].

  (** [ERA_BASED_SUBGENRES]; each key ["start-end"] is kept parsed, as
      [map(int, era_range.split('-'))] reads it. *)
  Local Open Scope Z_scope.
Definition ERA_BASED_SUBGENRES : list (string * list ((Z * Z) * list string)) := [
    ("pop", [((2000, 2004), ["teen-pop"; "dance-pop"]);
             ((2005, 2009), ["pop-rock"; "emo-pop"]);
             ((2010, 2015), ["electropop"; "indie-pop"]);
             ((2016, 2020), ["alt-pop"; "bedroom-pop"]);
             ((2021, 2025), ["hyperpop"; "alt-pop"])]);
    ("hip-hop", [((2000, 2003), ["southern-hip-hop"; "crunk"]);
                 ((2004, 2008), ["snap-music"; "ringtone-rap"]);
                 ((2009, 2012), ["blog-rap"; "conscious-hip-hop"]);
                 ((2013, 2016), ["trap"; "drill"]);
                 ((2017, 2020), ["emo-rap"; "melodic-rap"]);
                 ((2021, 2025), ["rage-rap"; "plugg"])]);
    ("country", [((2000, 2010), ["country-pop"; "contemporary-country"]);
                 ((2011, 2015), ["bro-country"; "country-pop"]);
                 ((2016, 2025), ["country-trap"; "country-pop"])]);
    ("r&b", [((2000, 2005), ["neo-soul"; "contemporary-r&b"]);
             ((2006, 2010), ["alternative-r&b"; "contemporary-r&b"]);
             ((2011, 2025), ["alternative-r&b"; "pop-r&b"])])
  ].
  Local Close Scope Z_scope.

  (** [PRODUCER_NAME_VARIATIONS] *)
Definition PRODUCER_NAME_VARIATIONS : list (string * string) := [
    ("pharrell williams", "the neptunes"); ("chad hugo", "the neptunes");
    ("pharrell", "the neptunes"); ("darkchild", "rodney jerkins");
    ("rodney jenkins", "rodney jerkins"); ("timbo", "timbaland");
    ("tim mosley", "timbaland"); ("jd", "jermaine dupri"); ("max", "max martin")
  ].

Fixpoint sget {A : Type} (k : string) (l : list (string * A)) : option A :=
    match l with
    | [] => None
    | (k', v) :: l' => if String.eqb k k' then Some v else sget k l'
    end.

Fixpoint era_find (year : Z) (eras : list ((Z * Z) * list string)) : list string :=
    match eras with
    | [] => []
    | ((start, end_), subgenres) :: eras' =>
        if (start <=? year)%Z && (year <=? end_)%Z then subgenres else era_find year eras'
    end.

  (** [get_era_subgenres] *)
Definition get_era_subgenres (genre : string) (year : Z) : list string :=
    match sget genre ERA_BASED_SUBGENRES with
    | None => []
    | Some era_map => era_find year era_map
    end.

  (** [producer_name.lower().strip()] *)
Definition normalize (producer_name : string) : string :=
    str (strip (lower (chars producer_name))).

  (** [get_producer_subgenres]; [year] is [None] or an [int]. *)
Definition get_producer_subgenres (producer_name : string) (year : option Z)
    : option signature :=
    let producer_lower := normalize producer_name in
    let producer_lower :=
      match sget producer_lower PRODUCER_NAME_VARIATIONS with
      | Some n => n | None => producer_lower
      end in
    match sget producer_lower PRODUCER_GENRE_SIGNATURES with
    | None => None
    | Some signature =>
        match year with
        | Some y =>
            if negb (Z.eqb y 0) &&
               match sget (primary signature) ERA_BASED_SUBGENRES with
               | Some _ => true | None => false end
            then
              match get_era_subgenres (primary signature) y with
              | [] => Some signature
              | era_subgenres =>
                  Some {| primary := primary signature;
                          subgenres := set_list (subgenres signature ++ era_subgenres);
                          confidence := confidence signature |}
              end
            else Some signature
        | None => Some signature
        end
    end.

  (** [collections.Counter(l)]: [d[x] = d.get(x, 0) + 1] for each element,
      a dict in first-occurrence order. *)
Fixpoint count_add (x : string) (d : list (string * nat)) : list (string * nat) :=
    match d with
    | [] => [(x, 1)]
    | (y, n) :: d' => if String.eqb x y then (y, S n) :: d' else (y, n) :: count_add x d'
    end.

Definition counter (l : list string) : list (string * nat) :=
    fold_left (fun d x => count_add x d) l [].

  (** [sorted(items, key=count, reverse=True)], stable, which is what
      [most_common(n)] ([heapq.nlargest]) returns the first [n] of. *)
Fixpoint insert_count (x : string * nat) (l : list (string * nat)) : list (string * nat) :=
    match l with
    | [] => [x]
    | y :: l' => if Nat.ltb (snd y) (snd x) then x :: l else y :: insert_count x l'
    end.

Definition most_common (n : nat) (c : list (string * nat)) : list (string * nat) :=
    firstn n (fold_left (fun acc x => insert_count x acc) c []).

Record contribution := {
    suggested_subgenres : list string;
    pc_confidence : R;
    num_producers : nat;
    source : string }.

  (** [analyze_producer_contribution] *)
Definition analyze_producer_contribution (song_producers : list string) (song_year : option Z)
    : option contribution :=
    match song_producers with
    | [] => None
    | _ =>
        let '(all_subgenres, total_confidence) :=
          fold_left
            (fun (acc : list string * R) producer =>
               match get_producer_subgenres producer song_year with
               | Some s => (fst acc ++ subgenres s, nadd (snd acc) (confidence s))
               | None => acc
               end)
            song_producers ([], num 0 1) in
        match all_subgenres with
        | [] => None
        | _ =>
            let avg := ndiv total_confidence (num (Z.of_nat (length song_producers)) 1) in
            Some {| suggested_subgenres := map fst (most_common 3 (counter all_subgenres));
                    pc_confidence := if nltb (num 1 1) avg then num 1 1 else avg;
                    num_producers :=
                      length (filter (fun p => match get_producer_subgenres p song_year with
                                               | Some _ => true | None => false end)
                                     song_producers);
                    source := "producer_specialization" |}
        end
    end.

  End WithNum.
End Producer.

(** ** The rule-based profile score as the specification words it

    Exact rationals stand for the floats. A profile feature is "checked"
    when the audio-features dict has it; the score is the sum of the credits
    of the checked features divided by their number (0 when none is
    checked). Two per-feature credits are given: [strict_credit] (full
    credit strictly inside [min, max], half credit within 20% outside it,
    counting the bounds in that band) and [inclusive_credit] (full credit on
    the closed range, half credit in (max, 1.2 max] or [0.8 min, min)). *)
Module SubgenreSpec.
  Import Subgenre.
  Local Open Scope Q_scope.





End SubgenreSpec.

(** ** [EnhancedGeniusClient.search_song_enhanced] *)
Module GeniusSearch.
Import PyStr Genius.
Local Open Scope nat_scope.

(** A hit of a search response, [hit['result']], with its [id], [title] and
    [primary_artist['name']] (every hit of the Genius API carries them). *)
Record hit := { hit_id : Z; hit_title : list ascii; hit_artist : list ascii }.

Section WithSong.
(** The song payload returned by [get_song_details]. *)
Context {S : Type}.

(** The two calls of the loop into the base client, on attempt [a] of query
    [q]. [search q a] is [self.search_song(q, "")]: [Raised] when it raises,
    [Returned None] when [result.success and result.data] is false, and
    [Returned (Some hits)] with [data['response']['hits']] ([[]] when either
    key is absent). [details q a id] is [self.get_song_details(id)] on that
    attempt, [Returned None] for a falsy result. *)
Record api := {
  search : list ascii -> nat -> outcome (option (list hit));
  details : list ascii -> nat -> Z -> outcome (option S) }.

(** The loop over [hits[:15]] of one attempt: [Returned (Some s)] returns
    from [search_song_enhanced], [Returned None] ends the loop, [Raised] is an
    exception of [get_song_details], caught by the attempt's [except]. *)
Fixpoint scan (good : hit -> bool) (det : Z -> outcome (option S)) (hs : list hit)
    : outcome (option S) :=
  match hs with
  | [] => Returned None
  | h :: hs' =>
      if good h then
        match det (hit_id h) with
        | Raised => Raised
        | Returned (Some s) => Returned (Some s)
        | Returned None => scan good det hs'
        end
      else scan good det hs'
  end.

(** The [for attempt in range(max_retries)] loop of query [q], from attempt
    [a] with [fuel] attempts left: the song found, if any, and the searches
    made, as [(query, attempt)] pairs. An exception goes to the next attempt;
    otherwise the loop returns or [break]s. *)
Fixpoint try_query (A : api) (good : hit -> bool) (q : list ascii) (a fuel : nat)
    : option S * list (list ascii * nat) :=
  match fuel with
  | 0 => (None, [])
  | Datatypes.S fuel' =>
      let retry := let '(r, l) := try_query A good q (Datatypes.S a) fuel' in (r, (q, a) :: l) in
      match search A q a with
      | Raised => retry
      | Returned None => (None, [(q, a)])
      | Returned (Some hits) =>
          match scan good (details A q a) (firstn 15 hits) with
          | Raised => retry
          | Returned r => (r, [(q, a)])
          end
      end
  end.

(** The [for i, query in enumerate(queries)] loop. *)
Fixpoint try_queries (A : api) (good : hit -> bool) (max_retries : nat) (qs : list (list ascii))
    : option S * list (list ascii * nat) :=
  match qs with
  | [] => (None, [])
  | q :: qs' =>
      let '(r, l) := try_query A good q 0 max_retries in
      match r with
      | Some s => (Some s, l)
      | None => let '(r', l') := try_queries A good max_retries qs' in (r', l ++ l')
      end
  end.

(** [search_song_enhanced(song_name, artist_name, max_retries)]: [Some s] for
    [GeniusResult(success=True, data={'response': {'song': s}})], [None] for
    the failure result; with the searches made. *)
Definition search_song_enhanced (fuzzy_available : bool) (bk : Fuzz.backend) (A : api)
    (song_name artist_name : list ascii) (max_retries : nat)
    : option S * list (list ascii * nat) :=
  try_queries A
    (fun h => is_good_match fuzzy_available bk (hit_title h) (hit_artist h) song_name artist_name)
    max_retries (generate_search_queries song_name artist_name).

End WithSong.
Arguments api : clear implicits.
End GeniusSearch.

(** ** [GenreClassificationSystem._generate_ar_insights] *)
Module Insights.
Import PyStr Engine.
Local Open Scope string_scope.
Local Open Scope list_scope.

Section WithNum.
Context {R : Type} `{PyNum R}.

(** A dict [str -> list of str] in insertion order. *)
Definition agreement := list (list ascii * list (list ascii)).

(** [if k not in d: d[k] = []] followed by [d[k].append(x)] *)
Fixpoint agree_add (k x : list ascii) (d : agreement) : agreement :=
  match d with
  | [] => [(k, [x])]
  | (k', l) :: d' => if list_ascii_eqb k k' then (k', l ++ [x]) :: d' else (k', l) :: agree_add k x d'
  end.

(** [source_agreement]: each primary genre with the sources of the
    classifications mapped to it, in order. *)
Definition source_agreement (cs : list (@classification R)) : agreement :=
  fold_left (fun d c => agree_add (map_to_primary_genre (c_name c)) (c_source c) d) cs [].

Record insights := {
  market_positioning : option (list ascii * R);
  crossover_potential : option (list (list ascii) * R);
  source_consensus : agreement;
  recommendations : list string }.

(** [_generate_ar_insights(profile, source_data)] ([source_data] is not
    read); an empty dict is [None]. *)
Definition generate_ar_insights (p : @profile R) : insights :=
  {| market_positioning :=
       match primary_genre p with
       | Some ((_ :: _) as g) => Some (g, confidence_score p)
       | _ => None
       end;
     crossover_potential :=
       match crossover_indicators p with
       | [] => None
       | ind => Some (ind, ndiv (num (Z.of_nat (length ind)) 1) (num 3 1))
       end;
     source_consensus :=
       filter (fun gs => Nat.ltb 1 (length (snd gs))) (source_agreement (classifications p));
     recommendations :=
       (if nltb (num 8 10) (confidence_score p) then ["high_confidence_classification"]
        else if nltb (confidence_score p) (num 5 10) then ["low_confidence_requires_review"]
        else [])
       ++ (match crossover_indicators p with
           | [] => []
           | _ => ["consider_crossover_marketing"]
           end) |}.

End WithNum.
End Insights.

(** ** The API response cache of [GenreClassificationSystem] *)
Module ApiCache.
Import PyStr.
Local Open Scope string_scope.
Local Open Scope list_scope.

Section WithValue.
(** The cached JSON values. *)
Context {V : Type}.

(** A dict [str -> V] in insertion order. *)
Definition dict := list (list ascii * V).

Fixpoint get_item (k : list ascii) (d : dict) : option V :=
  match d with
  | [] => None
  | (k', v) :: d' => if list_ascii_eqb k k' then Some v else get_item k d'
  end.

(** [d[k] = v]: replaces the value in place, or appends the key. *)
Fixpoint set_item (k : list ascii) (v : V) (d : dict) : dict :=
  match d with
  | [] => [(k, v)]
  | (k', v') :: d' => if list_ascii_eqb k k' then (k', v) :: d' else (k', v') :: set_item k v d'
  end.

(** [self.api_cache] and the content of [self.cache_file] ([None] before
    any save), the file writes succeeding. *)
Record state := { api_cache : dict; cache_file : option dict }.

(** [f"{source}:{query.lower()}"] *)
Definition cache_key (source query : list ascii) : list ascii :=
  source ++ ":"%char :: lower query.

(** [_get_cached_response] *)
Definition get_cached_response (source query : list ascii) (st : state) : option V :=
  get_item (cache_key source query) (api_cache st).

(** [_cache_response], saving the whole dict when its size is a multiple of 10. *)
Definition cache_response (source query : list ascii) (response : V) (st : state) : state :=
  let d := set_item (cache_key source query) response (api_cache st) in
  {| api_cache := d;
     cache_file := if Nat.eqb (Nat.modulo (length d) 10) 0 then Some d else cache_file st |}.

End WithValue.
Arguments dict : clear implicits.
Arguments state : clear implicits.

(** [_get_spotify_artist_genres] and [_get_lastfm_artist_genres] share one
    shape: [fetch name] is the genre list extracted from the client's data
    when [data and key in data] holds, [None] otherwise, [Raised] when the
    client or the extraction raises. The result, the new state, and whether
    the client was called. *)
Definition cached_artist_genres (source : string) (available : bool)
    (fetch : list ascii -> outcome (option (list (list ascii))))
    (artist_name : list ascii) (st : state (list (list ascii)))
    : list (list ascii) * state (list (list ascii)) * bool :=
  if negb available then ([], st, false) else
  match get_cached_response (chars source) artist_name st with
  | Some cached => (cached, st, false)
  | None =>
      match fetch artist_name with
      | Returned (Some genres) => (genres, cache_response (chars source) artist_name genres st, true)
      | Returned None => ([], st, true)
      | Raised => ([], st, true)
      end
  end.

(** The Spotify client's answer: [None] for a falsy [data], [Some None] when
    it lacks ['spotify_genres']. *)
Definition spotify_fetch (extract : list ascii -> outcome (option (option (list (list ascii)))))
    (name : list ascii) : outcome (option (list (list ascii))) :=
  match extract name with
  | Raised => Raised
  | Returned (Some (Some genres)) => Returned (Some genres)
  | Returned _ => Returned None
  end.

(** [_get_spotify_artist_genres] *)
Definition get_spotify_artist_genres spotify_available extract artist_name st :=
  cached_artist_genres "spotify" spotify_available (spotify_fetch extract) artist_name st.

(** The Last.fm client's answer: the names of the ['top_genres'] entries. *)
Definition lastfm_fetch {R : Type}
    (extract : list ascii -> outcome (option (option (list (list ascii * R)))))
    (name : list ascii) : outcome (option (list (list ascii))) :=
  match extract name with
  | Raised => Raised
  | Returned (Some (Some top)) => Returned (Some (map fst top))
  | Returned _ => Returned None
  end.

(** [_get_lastfm_artist_genres] *)
Definition get_lastfm_artist_genres {R : Type} lastfm_available
    (extract : list ascii -> outcome (option (option (list (list ascii * R))))) artist_name st :=
  cached_artist_genres "lastfm" lastfm_available (lastfm_fetch extract) artist_name st.

End ApiCache.

(** ** [GenreClassificationSystem.save_artist_classification] *)
Module Save.
Import PyStr Engine Classify.
Local Open Scope list_scope.

Section WithNum.
Context {R : Type} `{PyNum R}.

(** [songs.first_chart_appearance] as stored text ([None] for NULL). *)
Variable first_chart_appearance : song -> option (list ascii).
(** The [Numeric(3, 2)] value, in hundredths, stored for a confidence. *)
Variable hundredths : R -> Z.

(** [if year: query.filter(Songs.first_chart_appearance.like(f'{year}%'))];
    SQLite's [LIKE] ignores ASCII case and a NULL never matches. *)
Definition year_match (year : option (list ascii)) (s : song) : bool :=
  match year with
  | Some ((_ :: _) as y) =>
      match first_chart_appearance s with
      | Some date => like_match (lower (y ++ ["%"%char])) (lower date)
      | None => false
      end
  | _ => true
  end.

(** The songs the function saves for. *)
Definition save_songs (d : db) (artist_name : list ascii) (year : option (list ascii)) : list song :=
  filter (fun s => ilike_contains artist_name (song_artist_name s) && year_match year s) (songs d).

(** The id SQLite gives a new [genres] row: one more than the largest. *)
Definition next_genre_id (d : db) : Z := (1 + fold_left Z.max (map genre_id (genres d)) 0)%Z.

(** [save_artist_classification(artist_name, profile, year)]: the database
    after the commit. *)
Definition save_artist_classification (d : db) (artist_name : list ascii) (p : @profile R)
    (year : option (list ascii)) : db :=
  let ss := save_songs d artist_name year in
  match ss with
  | [] => d
  | _ =>
      match primary_genre p with
      | Some ((_ :: _) as g) =>
          let '(gid, gs) :=
            match find (fun x => list_ascii_eqb (genre_name x) g) (genres d) with
            | Some x => (genre_id x, genres d)
            | None =>
                let i := next_genre_id d in
                (i, genres d ++ [{| genre_id := i; genre_name := g |}])
            end in
          let rows :=
            fold_left (fun rows s =>
              if existsb (fun r => Z.eqb (sg_song_id r) (song_id s) && Z.eqb (sg_genre_id r) gid) rows
              then rows
              else rows ++ [{| sg_song_id := song_id s; sg_genre_id := gid;
                               sg_confidence := hundredths (confidence_score p) |}])
              ss (song_genres d) in
          {| songs := songs d; song_genres := rows; genres := gs |}
      | _ => d
      end
  end.

End WithNum.

(** The [song_genres] row the save adds for song [s]. *)
Definition row_of (gid c : Z) (s : song) : song_genre :=
  {| sg_song_id := song_id s; sg_genre_id := gid; sg_confidence := c |}.
End Save.

(** ** [GenreClassificationSystem.save_artist_subgenres]: the choice of the
    subgenres it saves *)
Module SubgenreSave.
Import PyStr Engine.
Local Open Scope list_scope.

(** [genre_level_terms] of [save_artist_subgenres]. *)
Definition genre_level_terms : list (list ascii) := map chars [
  "soul"; "blues"; "funk"; "disco"; "gospel"; "reggae";
  "punk"; "metal"; "indie"; "dance"; "edm"; "house";
  "techno"; "trance"; "dubstep"; "r&b"; "rnb";
  "rap"; "hip hop"; "hip-hop"; "country"; "folk";
  "rock"; "pop"; "jazz"; "classical"; "latin";
  "electronic"; "alternative"; "other"]%string.

Section WithNum.
Context {R : Type} `{PyNum R}.

(** An entry of [detailed_genres]; ['mapped_primary'] is stored but never
    read, so it is left out. *)
Record detail := { d_name : list ascii; d_confidence : R; d_source : list ascii }.

(** The loop over [profile.classifications]: [primary] is
    [profile.primary_genre], [genre_names] the [genre_name] column of
    [Genres]. *)
Definition detailed_genres (primary : option (list ascii)) (genre_names : list (list ascii))
    (cs : list (@classification R)) : list detail :=
  let primary_genre_names := map lower genre_names ++ genre_level_terms in
  flat_map (fun c =>
    let n := lower (c_name c) in
    if match primary with Some g => list_ascii_eqb n g | None => false end then []
    else if existsb (list_ascii_eqb n) primary_genre_names then []
    else [{| d_name := n; d_confidence := c_confidence c; d_source := c_source c |}]) cs.

(** [seen_names] as an insertion-ordered dict: a detail replaces the entry
    of its name only when its confidence is greater. *)
Fixpoint seen_update (d : detail) (seen : list detail) : list detail :=
  match seen with
  | [] => [d]
  | e :: seen' =>
      if list_ascii_eqb (d_name e) (d_name d) then
        (if nltb (d_confidence e) (d_confidence d) then d else e) :: seen'
      else e :: seen_update d seen'
  end.

Definition dedup_details (ds : list detail) : list detail :=
  fold_left (fun seen d => seen_update d seen) ds [].

(** [sorted(..., key=confidence, reverse=True)]: the stable sort by
    decreasing confidence, as an insertion sort (each element goes after
    the ones with a confidence not below its own). It is what [sorted]
    returns when the confidences are totally ordered (no NaN). *)
Fixpoint insert_desc (x : detail) (l : list detail) : list detail :=
  match l with
  | [] => [x]
  | y :: l' => if nltb (d_confidence y) (d_confidence x) then x :: l else y :: insert_desc x l'
  end.

Definition sort_desc (l : list detail) : list detail :=
  fold_left (fun acc x => insert_desc x acc) l [].

(** [top_subgenres] of [save_artist_subgenres]. *)
Definition top_subgenres (primary : option (list ascii)) (genre_names : list (list ascii))
    (cs : list (@classification R)) : list detail :=
  firstn 3 (sort_desc (dedup_details (detailed_genres primary genre_names cs))).

End WithNum.
End SubgenreSave.

(** ** [GenreClassificationSystem.classify_song] and [classify_creator] *)
Module SongClassify.
Import PyStr Engine Classify.
Local Open Scope string_scope.
Local Open Scope list_scope.

(** The attributes of a [GenreClassificationSystem]: those [__init__] sets,
    then the methods of the class. *)
Definition system_attributes : list string := [
  "chartmetric_client"; "chartmetric_available"; "spotify_client";
  "spotify_available"; "lastfm_client"; "lastfm_available"; "db_manager";
  "_classification_cache"; "cache_file"; "api_cache"; "primary_genres";
  "primary_genre_mapping"; "source_weights";
  "_load_api_cache"; "_save_api_cache"; "_get_cached_response"; "_cache_response";
  "_get_existing_classification"; "_extract_primary_artist"; "classify_artist";
  "_apply_ari_reasoning_engine"; "_map_to_primary_genre";
  "_detect_crossover_indicators"; "_generate_ar_insights";
  "save_artist_classification"; "save_artist_subgenres";
  "enrich_with_producer_subgenres"; "_get_spotify_artist_genres";
  "_get_lastfm_artist_genres"; "_get_chartmetric_artist_genres";
  "_get_genius_artist_genres"; "_apply_reasoning_engine"; "classify_song";
  "_get_spotify_song_genres"; "classify_creator"].

(** The fields of the [ArtistGenreProfile] dataclass. *)
Definition profile_attributes : list string := [
  "artist_name"; "artist_id"; "classifications"; "confidence_score";
  "primary_genre"; "secondary_tags"; "crossover_indicators";
  "a_and_r_insights"; "source_data"; "last_updated"].

(** The attributes of a [SpotifyGenreClient] ([self.spotify_client]): those
    [__init__] sets, then its methods. *)
Definition spotify_client_attributes : list string := [
  "sp"; "audio_feature_genres";
  "_generate_artist_name_variations"; "_calculate_match_score";
  "search_artist"; "get_artist_genres"; "get_artist_top_tracks";
  "get_audio_features"; "analyze_artist_audio_profile";
  "_analyze_tracks_without_features"; "_infer_genres_from_features";
  "get_artist_playlist_context"; "extract_comprehensive_genre_data";
  "_analyze_tracks_without_audio_features"].

(** Attribute access [obj.name]: [AttributeError] unless [obj] has it. *)
Definition attr (attrs : list string) (name : string) : outcome unit :=
  if existsb (String.eqb name) attrs then Returned tt else Raised.

Definition obind {A B : Type} (o : outcome A) (f : A -> outcome B) : outcome B :=
  match o with Raised => Raised | Returned a => f a end.

Section WithNum.
Context {R : Type} `{PyNum R}.
Variable set_list : list (list ascii) -> list (list ascii).

(** The values [self.SOURCE_WEIGHTS] and [artist_result.sources] would have,
    were those attributes defined. *)
Variable SOURCE_WEIGHTS : list (string * R).
Variable profile_sources : list (list ascii).

(** The Spotify calls of [_get_spotify_song_genres] once the attributes are
    found: the search, giving the id of the first track's first artist
    ([None] for no track), and the genres of that artist. *)
Variable spotify_search : list ascii -> outcome (option (list ascii)).
Variable spotify_artist : list ascii -> outcome (list (list ascii)).

(** [artist_result.confidence_score * 0.8]: the product of a float, or
    [TypeError] when the confidence is the [Decimal] of a [Numeric(3, 2)]
    column, as in a profile rebuilt by [_get_existing_classification]. *)
Variable inherit_confidence : R -> outcome R.

(** [GenreResult], without its free-text [reasoning]. *)
Record genre_result := {
  gr_primary_genre : list ascii;
  gr_secondary_tags : list (list ascii);
  gr_confidence_score : R;
  gr_sources : list (list ascii) }.

Definition other_result : genre_result :=
  {| gr_primary_genre := chars "other"; gr_secondary_tags := [];
     gr_confidence_score := num 0 1; gr_sources := [] |}.

(** The flattening loop of [_apply_reasoning_engine]: each source reads
    [self.SOURCE_WEIGHTS.get(source, 0.1)], then adds its lower-cased genres
    with that weight. *)
Fixpoint flatten_sources (source_genres : list (list ascii * list (list ascii)))
    : outcome (list (list ascii * R)) :=
  match source_genres with
  | [] => Returned []
  | (source, genres) :: rest =>
      obind (attr system_attributes "SOURCE_WEIGHTS") (fun _ =>
        let w := match lookup source SOURCE_WEIGHTS with Some w => w | None => num 1 10 end in
        obind (flatten_sources rest) (fun l =>
          Returned (map (fun g => (lower g, w)) genres ++ l)))
  end.

(** [min(x, 1.0)] *)
Definition min1 (x : R) : R := if nltb (num 1 1) x then num 1 1 else x.

(** [_apply_reasoning_engine(source_genres, artist_name)], [source_genres]
    as the list of its items. *)
Definition apply_reasoning_engine (source_genres : list (list ascii * list (list ascii)))
    : outcome genre_result :=
  obind (flatten_sources source_genres) (fun all =>
    match all with
    | [] => Returned other_result
    | _ =>
        let genre_scores := fold_left (fun v gw => vote (fst gw) (snd gw) v) all [] in
        let '(pgs, sec) :=
          fold_left (fun acc gs =>
            let '(pgs, sec) := acc in
            let mapped_primary := map_to_primary_genre (fst gs) in
            match mapped_primary with
            | _ :: _ => (vote mapped_primary (snd gs) pgs, sec)
            | [] => (pgs, if mem (fst gs) sec then sec else sec ++ [fst gs])
            end) genre_scores ([], []) in
        let '(pg, conf) :=
          match max_key pgs with
          | Some g =>
              let s := match vlookup g pgs with Some s => s | None => num 0 1 end in
              (g, min1 (ndiv s (num (Z.of_nat (length source_genres)) 1)))
          | None => (chars "other", num 1 10)
          end in
        Returned {| gr_primary_genre := pg; gr_secondary_tags := firstn 5 sec;
                    gr_confidence_score := conf; gr_sources := map fst source_genres |}
    end).

(** [_get_spotify_song_genres]; [spotify_client] is the truth value of
    [self.spotify_client]. Exceptions give [[]]. *)
Definition get_spotify_song_genres (spotify_client : bool) (song_name artist_name : list ascii)
    : list (list ascii) :=
  if negb spotify_client then [] else
  let query := chars "track:" ++ song_name ++ chars " artist:" ++ artist_name in
  match obind (attr spotify_client_attributes "search") (fun _ =>
          obind (spotify_search query) (fun first =>
            match first with
            | None => Returned []
            | Some artist_id =>
                obind (attr spotify_client_attributes "artist") (fun _ => spotify_artist artist_id)
            end)) with
  | Raised => []
  | Returned gs => gs
  end.

(** [classify_song]: the result and the in-memory cache left by
    [classify_artist]. [self.spotify_client] is set exactly when Spotify is
    available. *)
Definition classify_song (srcs : sources) (d : db) (c : cache) (song_name artist_name : list ascii)
    : outcome genre_result * cache :=
  let '(artist_result, c', _) := classify_artist set_list srcs d c artist_name in
  let song_specific_genres :=
    get_spotify_song_genres (spotify_available srcs) song_name artist_name in
  match song_specific_genres with
  | _ :: _ => (apply_reasoning_engine [(chars "spotify", song_specific_genres)], c')
  | [] =>
      (* the keyword arguments are evaluated in order *)
      (obind (inherit_confidence (confidence_score artist_result)) (fun conf =>
       obind (attr profile_attributes "sources") (fun _ =>
         obind (attr profile_attributes "reasoning") (fun _ =>
           Returned {| gr_primary_genre :=
                         match primary_genre artist_result with Some g => g | None => [] end;
                       gr_secondary_tags := secondary_tags artist_result;
                       gr_confidence_score := conf;
                       gr_sources := profile_sources |}))), c')
  end.

(** A row of songs JOIN song_credits JOIN credits JOIN credit_roles. *)
Record credit_row := {
  cr_song_name : list ascii; cr_artist_name : list ascii;
  cr_credit_name : list ascii; cr_role_name : list ascii }.

(** The [(song_name, artist_name)] pairs of the query, [.limit(50)]. *)
Definition creator_songs (rows : list credit_row) (creator_name creator_type : list ascii)
    : list (list ascii * list ascii) :=
  firstn 50 (map (fun r => (cr_song_name r, cr_artist_name r))
               (filter (fun r => ilike_contains creator_name (cr_credit_name r)
                                 && ilike_contains creator_type (cr_role_name r)) rows)).

(** The loop of [classify_creator]: the primary genres of the songs, or the
    exception that ends it, with the cache. *)
Fixpoint classify_songs (srcs : sources) (d : db) (c : cache) (ss : list (list ascii * list ascii))
    : outcome (list (list ascii)) * cache :=
  match ss with
  | [] => (Returned [], c)
  | (song_name, artist_name) :: rest =>
      let '(r, c1) := classify_song srcs d c song_name artist_name in
      match r with
      | Raised => (Raised, c1)
      | Returned gr =>
          let '(r', c2) := classify_songs srcs d c1 rest in
          (obind r' (fun l => Returned (gr_primary_genre gr :: l)), c2)
      end
  end.

(** [classify_creator(creator_name, creator_type)], with the cache. *)
Definition classify_creator (srcs : sources) (d : db) (c : cache) (rows : list credit_row)
    (creator_name creator_type : list ascii) : genre_result * cache :=
  let ss := creator_songs rows creator_name creator_type in
  match ss with
  | [] => (other_result, c)
  | _ =>
      let '(r, c') := classify_songs srcs d c ss in
      match r with
      | Raised => (other_result, c')
      | Returned genres =>
          let genre_counts := fold_left (fun v g => vote g (num 1 1) v) genres [] in
          let total_songs := num (Z.of_nat (length ss)) 1 in
          let '(pg, conf) :=
            match max_key genre_counts with
            | Some g => (g, ndiv (match vlookup g genre_counts with Some n => n | None => num 0 1 end)
                                 total_songs)
            | None => (chars "other", num 0 1)
            end in
          ({| gr_primary_genre := pg; gr_secondary_tags := [];
              gr_confidence_score := conf; gr_sources := [chars "database_analysis"] |}, c')
      end
  end.

End WithNum.
End SongClassify.

(** The sources of the classifications whose name maps to a primary genre. *)
Module InsightsDefs.
Import PyStr Engine.

Definition genre_sources {R : Type} `{PyNum R} (cs : list (@classification R)) (g : list ascii)
    : list (list ascii) :=
  map c_source (filter (fun c => list_ascii_eqb (map_to_primary_genre (c_name c)) g) cs).

(** What [source_agreement] holds after a prefix [cs] of the classifications:
    each genre once, with the sources of its classifications, in order. *)
Definition agreement_inv {R : Type} `{PyNum R} (cs : list (@classification R))
    (d : Insights.agreement) : Prop :=
  NoDup (map fst d) /\ forall g l, In (g, l) d <-> (l = genre_sources cs g /\ l <> []).
End InsightsDefs.

(** What [seen_names] holds after the details [ds]: each name once, only
    details of [ds], and for each detail of [ds] an entry of its name with a
    confidence not below its own. A classification named [n] with confidence
    [q] from Last.fm, for the examples. *)
Module SubgenreSaveDefs.
Import PyStr Engine SubgenreSave.
Local Open Scope Q_scope.

Definition dedup_inv (ds seen : list (@detail Q)) : Prop :=
  NoDup (map d_name seen) /\ (forall e, In e seen -> In e ds) /\
  (forall d, In d ds -> exists e, In e seen /\ d_name e = d_name d /\ d_confidence d <= d_confidence e).

Definition cl_lastfm (n : string) (q : Q) : @classification Q :=
  {| c_name := chars n; c_confidence := q; c_source := chars "lastfm" |}.
End SubgenreSaveDefs.

(** A database with one song by Drake and no genres yet, and a Q profile
    with primary genre hip-hop at confidence 0.9. *)
Module SaveDefs.
Import ListNotations PyStr Engine Classify.
Local Open Scope string_scope.

Definition db_one : db := {|
  songs := [ {| song_id := 1; song_artist_name := chars "Drake" |} ];
  song_genres := []; genres := [] |}.

Definition p_hiphop : @profile Q := {|
  artist_name := chars "Drake"; classifications := []; confidence_score := 9 # 10;
  primary_genre := Some (chars "hip-hop"); secondary_tags := []; crossover_indicators := [] |}.

(** [Numeric(3, 2)] storage of a non-negative rational: the hundredths,
    rounded to nearest (halves up). *)
Definition hundredths_q (q : Q) : Z :=
  ((Qnum q * 200 + Zpos (Qden q)) / (2 * Zpos (Qden q)))%Z.
End SaveDefs.

(** A Genius API answering every search with one hit, "Hello" by "Adele",
    whose details are the song id. *)
Module GeniusSearchDefs.
Import PyStr GeniusSearch.
Local Open Scope string_scope.

Definition hello_hit : hit := {| hit_id := 7; hit_title := chars "Hello"; hit_artist := chars "Adele" |}.

Definition api_hello : api Z := {|
  search := fun _ _ => Returned (Some [hello_hit]);
  details := fun _ _ i => Returned (Some i) |}.
End GeniusSearchDefs.

(** ** Auxiliary definitions of the proofs *)

(** Regular expressions that need a non-blank character, and blank strings. *)
Module GeniusDefs.
Import ListNotations PyStr Re.

Definition suffix (a b : list ascii) : Prop := exists pre, b = pre ++ a.

Fixpoint nb (r : re) : bool :=
  match r with
  | Chr c => negb (is_space c) && negb (is_space (lower_char c))
  | Seq r1 r2 => nb r1 || nb r2
  | Alt r1 r2 => nb r1 && nb r2
  | _ => false
  end.

Definition blank (s : list ascii) : bool := forallb is_space s.
End GeniusDefs.

(** Concrete inputs of the reasoning engine and positivity of vote lists. *)
Module EngineDefs.
Import ListNotations PyStr Engine Classify.
Local Open Scope string_scope.

Definition db_drake : db := {|
  songs := [ {| song_id := 1; song_artist_name := chars "Drake" |} ];
  song_genres := [ {| sg_song_id := 1; sg_genre_id := 10; sg_confidence := 95 |};
                   {| sg_song_id := 1; sg_genre_id := 11; sg_confidence := 90 |} ];
  genres := [ {| genre_id := 10; genre_name := chars "hip-hop" |};
              {| genre_id := 11; genre_name := chars "r&b" |} ] |}.

Definition cl {R} `{PyNum R} (n : string) (c : R) : @classification R :=
  {| c_name := chars n; c_confidence := c; c_source := chars "lastfm" |}.

Definition p_boundary {R} `{PyNum R} : @profile R :=
  {| artist_name := chars "Artist"; classifications := [cl "pop" (num 1 1); cl "rock" (num 6 10)];
     confidence_score := num 0 1; primary_genre := None; secondary_tags := [];
     crossover_indicators := [] |}.

Local Open Scope Q_scope.

Definition Pos (v : @votes Q) : Prop := Forall (fun x => 0 < snd x) v.

(** Only Last.fm available, answering one tag. *)
Definition srcs_lastfm : @sources Q := {|
  spotify_available := false; spotify := fun _ => Raised;
  chartmetric_available := false; chartmetric := fun _ => Raised;
  lastfm_available := true; lastfm := fun _ => Returned (Some [(chars "pop", 1)]) |}.

Definition p_collected (srcs : @sources Q) (d : db) (artist : list ascii) : @profile Q := {|
  artist_name := artist;
  classifications := fst (collect srcs d artist (extract_primary_artist artist));
  confidence_score := 0; primary_genre := None; secondary_tags := [];
  crossover_indicators := [] |}.
End EngineDefs.

(** The invariant of the best-profile loop, and a feature dict. *)
Module SubgenreDefs.
Import ListNotations Subgenre SubgenreSpec.
Local Open Scope string_scope.
Local Open Scope Q_scope.

Definition best_inv (f : @features Q) (acc : option string * Q) (seen : list (string * @profile Q)) : Prop :=
  (fst acc = None /\ snd acc = 0 /\
   forall sp, In sp seen -> calculate_profile_match f (snd sp) <= 0) \/
  (exists s prof, fst acc = Some s /\ In (s, prof) seen /\
   snd acc = calculate_profile_match f prof /\ 0 < snd acc /\
   forall sp, In sp seen -> calculate_profile_match f (snd sp) <= snd acc).


Definition jazz_edge : @features Q := [("acousticness", 4 # 10); ("energy", 45 # 100)].
End SubgenreDefs.

(** Exposes the rational operations of the [q_num] instance. *)
Ltac qsimpl := cbn [nadd nmul ndiv num nltb nleb q_num] in *.


(** ** Matching of Genius search results *)
Module GeniusProofs.
Import ListNotations PyStr Re Genius GeniusDefs.

Lemma suffix_refl s : suffix s s.
Proof. exists []. reflexivity. Qed.

Lemma suffix_trans a b c : suffix a b -> suffix b c -> suffix a c.
Proof. intros [p1 ->] [p2 ->]. exists (p2 ++ p1). now rewrite app_assoc. Qed.

Lemma suffix_cons x s : suffix s (x :: s).
Proof. exists [x]. reflexivity. Qed.

Lemma star_loop_cont (P : result -> Prop) body g n :
  P None ->
  (forall p s k, (forall p' s', suffix s' s -> P (k p' s')) -> P (body p s k)) ->
  forall p s k, (forall p' s', suffix s' s -> P (k p' s')) ->
  P (star_loop body g k n p s).
Proof.
  intros HN Hb. induction n as [|n IH]; intros p s k Hk; simpl.
  - apply Hk, suffix_refl.
  - assert (Hm : P (body p s (fun p1 s1 => if length s1 <? length s
                                          then star_loop body g k n p1 s1 else None))).
    { apply Hb. intros p' s' Hs. destruct (length s' <? length s); [|exact HN].
      apply IH. intros p'' s'' Hs'. apply Hk. eapply suffix_trans; eauto. }
    destruct g.
    + destruct (body p s _) eqn:E; [exact Hm|]. apply Hk, suffix_refl.
    + destruct (k p s) eqn:E; [rewrite <- E; apply Hk, suffix_refl|exact Hm].
Qed.

Lemma m_cont (P : result -> Prop) ic r :
  P None ->
  forall p s k, (forall p' s', suffix s' s -> P (k p' s')) -> P (m ic r p s k).
Proof.
  intros HN. induction r; intros p s k Hk; cbn -[star_loop].
  - destruct s as [|x s]; [exact HN|]. destruct (chr_eq ic c x); [|exact HN].
    apply Hk, suffix_cons.
  - destruct s as [|x s]; [exact HN|]. destruct (set_match ic negated items x); [|exact HN].
    apply Hk, suffix_cons.
  - destruct s as [|x s]; [exact HN|]. destruct (Ascii.eqb x _); [exact HN|].
    apply Hk, suffix_cons.
  - apply Hk, suffix_refl.
  - apply IHr1. intros p' s' Hs. apply IHr2. intros p'' s'' Hs'.
    apply Hk. eapply suffix_trans; eauto.
  - destruct (m ic r1 p s k) eqn:E.
    + rewrite <- E. apply IHr1, Hk.
    + apply IHr2, Hk.
  - apply star_loop_cont; auto.
  - destruct p; [exact HN|]. apply Hk, suffix_refl.
  - destruct s as [|x [|y s]]; try exact HN.
    + apply Hk, suffix_refl.
    + destruct (Ascii.eqb x _); [apply Hk, suffix_refl|exact HN].
  - destruct (xorb _ _); [apply Hk, suffix_refl|exact HN].
Qed.

Lemma blank_suffix s' s : suffix s' s -> blank s = true -> blank s' = true.
Proof. intros [pre ->] H. unfold blank in *. rewrite forallb_app in H.
  now apply andb_true_iff in H as [_ H]. Qed.

Lemma space_not_upper x : is_space x = true -> is_upper x = false.
Proof.
  unfold is_space, is_upper. set (n := code x). intros H.
  apply orb_true_iff in H as [H|H]; apply andb_true_iff in H as [H1 H2];
  apply Nat.leb_le in H1; apply Nat.leb_le in H2;
  destruct (65 <=? n) eqn:E; simpl; auto; apply Nat.leb_le in E; lia.
Qed.

Lemma lower_char_space x : is_space x = true -> lower_char x = x.
Proof. intros H. unfold lower_char. now rewrite space_not_upper. Qed.

Lemma nb_blank ic r : nb r = true ->
  forall p s k, blank s = true -> m ic r p s k = None.
Proof.
  induction r; intros Hnb p s k Hs; cbn -[star_loop] in *; try discriminate.
  - destruct s as [|x s]; [reflexivity|]. simpl in Hs. apply andb_true_iff in Hs as [Hx _].
    apply andb_true_iff in Hnb as [H1 H2]. apply negb_true_iff in H1, H2.
    unfold chr_eq. destruct ic.
    + rewrite (lower_char_space x Hx). destruct (Ascii.eqb_spec (lower_char c) x) as [E|E]; [|reflexivity].
      rewrite E in H2. congruence.
    + destruct (Ascii.eqb_spec c x) as [E|E]; [|reflexivity]. subst. congruence.
  - apply orb_true_iff in Hnb as [H|H].
    + apply IHr1; auto.
    + apply (m_cont (fun res => res = None)); [reflexivity|].
      intros p' s' Hsuf. apply IHr2; auto. eapply blank_suffix; eauto.
  - apply andb_true_iff in Hnb as [H1 H2]. rewrite IHr1, IHr2; auto.
Qed.

Lemma sub_aux_blank ic r repl : nb r = true ->
  forall fuel p s, blank s = true -> sub_aux ic r repl fuel p s = s.
Proof.
  intros Hnb. induction fuel; intros p s Hs; simpl; [reflexivity|].
  destruct s as [|x s]; [reflexivity|].
  unfold match_here. rewrite nb_blank; auto.
  simpl in Hs. apply andb_true_iff in Hs as [_ Hs]. now rewrite IHfuel.
Qed.

Lemma sub_blank ic r repl s : nb r = true -> blank s = true -> sub ic r repl s = s.
Proof. intros. unfold sub. now apply sub_aux_blank. Qed.

Lemma match_here_suffix ic r p s p' rest :
  match_here ic r p s = Some (p', rest) -> suffix rest s.
Proof.
  unfold match_here. intros E.
  pose proof (m_cont (fun res => match res with Some (_, rest) => suffix rest s | None => True end)
                ic r I p s (fun p rest => Some (p, rest))) as H.
  rewrite E in H. apply H. intros. assumption.
Qed.

Lemma sub_aux_chars ic r repl : forall fuel p s x,
  In x (sub_aux ic r repl fuel p s) -> In x repl \/ In x s.
Proof.
  induction fuel; intros p s x H; simpl in H; [now right|].
  destruct s as [|y s]; [destruct H|].
  destruct (match_here ic r p (y :: s)) as [[p' rest]|] eqn:E.
  - destruct (length rest <? length (y :: s)).
    + apply in_app_or in H as [H|H]; [now left|].
      apply IHfuel in H as [H|H]; [now left|].
      apply match_here_suffix in E as [pre E]. right. rewrite E. apply in_or_app. now right.
    + destruct H as [H|H]; [right; now left|].
      apply IHfuel in H as [H|H]; [now left|right; now right].
  - destruct H as [H|H]; [right; now left|].
    apply IHfuel in H as [H|H]; [now left|right; now right].
Qed.

Lemma sub_blank_repl ic r repl s : blank repl = true -> blank s = true -> blank (sub ic r repl s) = true.
Proof.
  intros Hr Hs. unfold blank in *. apply forallb_forall. intros x Hx.
  apply sub_aux_chars in Hx as [Hx|Hx]; [apply (proj1 (forallb_forall _ _) Hr) | apply (proj1 (forallb_forall _ _) Hs)]; exact Hx.
Qed.

Lemma lstrip_blank s : blank s = true -> lstrip s = [].
Proof. induction s as [|x s IH]; simpl; intros H; [reflexivity|].
  apply andb_true_iff in H as [Hx H]. rewrite Hx. auto. Qed.

Lemma strip_blank s : blank s = true -> strip s = [].
Proof. intros H. unfold strip. rewrite (lstrip_blank s H). reflexivity. Qed.

Lemma fold_sub_blank (pats : list (re * list ascii)) ic t :
  forallb (fun pr => nb (fst pr)) pats = true -> blank t = true ->
  fold_left (fun acc pr => sub ic (fst pr) (snd pr) acc) pats t = t.
Proof.
  revert t. induction pats as [|pr pats IH]; intros t Hp Ht; simpl; [reflexivity|].
  simpl in Hp. apply andb_true_iff in Hp as [H1 H2]. rewrite sub_blank; auto.
Qed.

Lemma fold_sub_blank1 (pats : list re) ic repl t :
  forallb nb pats = true -> blank t = true ->
  fold_left (fun acc p => sub ic p repl acc) pats t = t.
Proof.
  revert t. induction pats as [|p pats IH]; intros t Hp Ht; simpl; [reflexivity|].
  simpl in Hp. apply andb_true_iff in Hp as [H1 H2]. rewrite sub_blank; auto.
Qed.

Import Genius.
Lemma clean_title_blank t : blank t = true -> clean_title_for_search t = [].
Proof.
  intros H. unfold clean_title_for_search.
  assert (E : fold_left (fun acc p => sub true p [] acc) suffixes_to_remove t = t).
  { apply fold_sub_blank1; [vm_compute; reflexivity|exact H]. }
  rewrite E, fold_sub_blank; [|vm_compute; reflexivity|exact H].
  apply strip_blank, sub_blank_repl; [reflexivity|exact H].
Qed.

Lemma ratio_nil_l bk x : x <> [] -> Fuzz.ratio bk [] x = 0%Z.
Proof. intros H. destruct x; [congruence|reflexivity]. Qed.

Lemma ratio_nil_r bk x : x <> [] -> Fuzz.ratio bk x [] = 0%Z.
Proof. intros H. destruct x; [congruence|]. unfold Fuzz.ratio. simpl.
  destruct (list_ascii_eqb x []); reflexivity. Qed.

Lemma good_match_one_blank bk ga oa t u :
  blank t = true ->
  lower (clean_title_for_search u) <> [] ->
  remove_feat (lower (clean_title_for_search u)) <> [] ->
  remove_articles (lower (clean_title_for_search u)) <> [] ->
  remove_all_parentheticals (lower (clean_title_for_search u)) <> [] ->
  is_good_match true bk t ga u oa = false /\ is_good_match true bk u ga t oa = false.
Proof.
  intros Ht H1 H2 H3 H4.
  unfold is_good_match, similarities_of. simpl negb. cbv iota.
  rewrite (clean_title_blank t Ht).
  change (lower []) with (@nil ascii).
  change (remove_feat []) with (@nil ascii).
  change (remove_articles []) with (@nil ascii).
  change (remove_all_parentheticals []) with (@nil ascii).
  rewrite !ratio_nil_l, !ratio_nil_r by assumption.
  split; reflexivity.
Qed.

Lemma contains_nil h : contains [] h = true.
Proof. destruct h; reflexivity. Qed.

(** C9: when the query title [t] is blank, a match in either direction forces the
    other title to normalise (in one of the four title variants) to the empty string;
    two blank titles are judged by the artist check alone; and the fallback path
    ([use_enhanced] false) accepts an empty title. *)
Theorem C9_blank_titles (bk : Fuzz.backend) (ga oa t u : list ascii) (Ht : blank t = true) :
  ((is_good_match true bk t ga u oa = true \/ is_good_match true bk u ga t oa = true) ->
   let un := lower (clean_title_for_search u) in
   un = [] \/ remove_feat un = [] \/ remove_articles un = [] \/
   remove_all_parentheticals un = []) /\
  (blank u = true ->
   is_good_match true bk t ga u oa =
     (contains (main_artist_lower oa) (lower ga) || contains (lower ga) (main_artist_lower oa)
      || (45 <=? Fuzz.ratio bk (lower ga) (main_artist_lower oa))%Z)) /\
  is_good_match false bk [] ga u oa = true.
Proof.
  split; [|split].
  - intros Hm. cbv zeta.
    destruct (list_eq_dec ascii_dec (lower (clean_title_for_search u)) []) as [E|N1]; [now left|right].
    destruct (list_eq_dec ascii_dec (remove_feat (lower (clean_title_for_search u))) []) as [E|N2]; [now left|right].
    destruct (list_eq_dec ascii_dec (remove_articles (lower (clean_title_for_search u))) []) as [E|N3]; [now left|right].
    destruct (list_eq_dec ascii_dec (remove_all_parentheticals (lower (clean_title_for_search u))) []) as [E|N4]; [assumption|].
    exfalso. destruct (good_match_one_blank bk ga oa t u Ht N1 N2 N3 N4) as [F1 F2].
    destruct Hm as [Hm|Hm]; congruence.
  - intros Hu.
    unfold is_good_match, similarities_of. simpl negb. cbv iota.
    rewrite (clean_title_blank t Ht), (clean_title_blank u Hu).
    change (lower []) with (@nil ascii).
    change (remove_feat []) with (@nil ascii).
    change (remove_articles []) with (@nil ascii).
    change (remove_all_parentheticals []) with (@nil ascii).
    change (Fuzz.ratio bk [] []) with 100%Z.
    reflexivity.
  - unfold is_good_match. simpl negb. cbv iota.
    change (lower []) with (@nil ascii). now rewrite contains_nil.
Qed.

Local Open Scope string_scope.

(** C5: the parenthetical-stripped similarity only enters the best title similarity
    when the artist similarity is at least 85; on the Holla Back example the artist
    similarity is 75, the stripped titles score 12, the best title similarity is 67 and
    the match is rejected, with the wrong and with the right artist. *)
Theorem C5_parenthetical_gate :
  (forall sm, (artist_similarity sm < 85)%Z ->
     best_title_similarity sm =
       Z.max (title_similarity sm)
             (Z.max (title_similarity_no_feat sm) (title_similarity_no_article sm))) /\
  (forall bk,
     let sm := similarities_of bk (chars "Holla Back") (chars "Wrong Artist")
                 (chars "Young'n (Holla Back)") (chars "Right Artist") in
     artist_similarity sm = 75%Z /\ title_similarity_no_parens sm = 12%Z /\
     best_title_similarity sm = 67%Z /\
     is_good_match true bk (chars "Holla Back") (chars "Wrong Artist")
       (chars "Young'n (Holla Back)") (chars "Right Artist") = false /\
     is_good_match true bk (chars "Holla Back") (chars "Right Artist")
       (chars "Young'n (Holla Back)") (chars "Right Artist") = false).
Proof.
  split.
  - intros sm Ha. unfold best_title_similarity.
    destruct (Z.ltb_spec (Z.max (title_similarity sm)
               (Z.max (title_similarity_no_feat sm) (title_similarity_no_article sm)))
               (title_similarity_no_parens sm)) as [L|L].
    + destruct (Z.leb_spec 85 (artist_similarity sm)); [lia|reflexivity].
    + lia.
  - intros bk. destruct bk; vm_compute; repeat split.
Qed.

(** C5 counterexample: stripping parentheticals turns the Holla Back titles into
    holla back and young'n, which do not score 100. *)
Lemma C5_parentheticals_differ :
  remove_all_parentheticals (lower (clean_title_for_search (chars "Holla Back")))
    = chars "holla back" /\
  remove_all_parentheticals (lower (clean_title_for_search (chars "Young'n (Holla Back)")))
    = chars "young'n" /\
  (forall bk, title_similarity_no_parens
     (similarities_of bk (chars "Holla Back") (chars "Wrong Artist")
        (chars "Young'n (Holla Back)") (chars "Right Artist")) <> 100%Z).
Proof.
  split; [vm_compute; reflexivity|split; [vm_compute; reflexivity|]].
  intros bk; destruct bk; vm_compute; discriminate.
Qed.

(** C3: no suffix pattern removes the soundtrack parenthetical of the Sunflower title,
    so the cleaned title keeps it and so do the first four search queries. *)
Theorem C3_sunflower_queries :
  clean_title_for_search (chars "Sunflower (Spider-Man: Into the Spider-Verse)")
    = chars "Sunflower (Spider-Man: Into the Spider-Verse)" /\
  generate_search_queries (chars "Sunflower (Spider-Man: Into the Spider-Verse)")
    (chars "Post Malone & Swae Lee") =
  map chars ["Sunflower (Spider-Man: Into the Spider-Verse) Post Malone";
             "Sunflower (Spider-Man: Into the Spider-Verse) Post Malone & Swae Lee";
             "Post Malone Sunflower (Spider-Man: Into the Spider-Verse)";
             "Sunflower (Spider-Man: Into the Spider-Verse)";
             "Sunflower Spider Man Into the Spider Verse Post Malone"].
Proof. split; vm_compute; reflexivity. Qed.

(** C9 counterexample: empty or blank titles are accepted when the artists agree. *)
Lemma C9_blank_titles_accepted :
  is_good_match true Fuzz.PyLevenshtein [] (chars "Taylor Swift") [] (chars "Taylor Swift") = true /\
  is_good_match true Fuzz.Difflib [] (chars "Taylor Swift") [] (chars "Taylor Swift") = true /\
  is_good_match true Fuzz.Difflib (chars "   ") (chars "Taylor Swift") (chars "(hello)")
    (chars "Taylor Swift") = true.
Proof. vm_compute. repeat split. Qed.

Lemma C9_witness :
  blank (chars "   ") = true /\
  is_good_match true Fuzz.Difflib (chars "   ") (chars "Taylor Swift") (chars "   ")
    (chars "Taylor Swift") = true.
Proof.
  split; [reflexivity|].
  rewrite (proj1 (proj2 (C9_blank_titles Fuzz.Difflib (chars "Taylor Swift") (chars "Taylor Swift")
    (chars "   ") (chars "   ") eq_refl)) eq_refl).
  vm_compute. reflexivity.
Defined.

End GeniusProofs.


(** ** The multi-source reasoning engine *)
Module EngineProofs.
Import ListNotations PyStr Engine Classify EngineDefs.
Local Open Scope string_scope.

Lemma collect_calls_genius {R} `{PyNum R} (srcs : sources) d a pa :
  In "genius" (snd (collect srcs d a pa)).
Proof.
  unfold collect.
  repeat match goal with |- context [if ?b then _ else _] => destruct b end;
  repeat match goal with |- context [match ?x with _ => _ end] => destruct x end;
  simpl; rewrite ?in_app_iff; simpl; tauto.
Qed.

(** C1: the Drake catalog has one song, classified by two genre rows of confidence 95
    and 90; every song has a row above 80, yet the persisted classification is not
    reused (the code compares the number of rows, 2, with the number of songs, 1) and
    classifying the artist queries the sources again (Genius among them). *)
Theorem C1_requery_with_two_genre_rows {R} `{PyNum R}
  (set_list : list (list ascii) -> list (list ascii)) (srcs : sources) :
  artist_songs db_drake (chars "Drake") <> [] /\
  (forall s, In s (artist_songs db_drake (chars "Drake")) ->
     exists r, In r (song_genres db_drake) /\ sg_song_id r = song_id s /\ high r = true) /\
  get_existing_classification db_drake (chars "Drake") = None /\
  In "genius" (snd (classify_artist set_list srcs db_drake [] (chars "Drake"))).
Proof.
  split; [vm_compute; discriminate|].
  split.
  { intros s Hs. vm_compute in Hs. destruct Hs as [<-|[]].
    exists {| sg_song_id := 1; sg_genre_id := 10; sg_confidence := 95 |}.
    split; [left; reflexivity|split; reflexivity]. }
  assert (E : get_existing_classification db_drake (chars "Drake") = None)
    by (vm_compute; reflexivity).
  split; [exact E|].
  unfold classify_artist. rewrite E. simpl cache_get.
  destruct (collect srcs db_drake _ _) as [cs calls] eqn:C.
  pose proof (collect_calls_genius srcs db_drake (chars "Drake") (extract_primary_artist (chars "Drake"))) as G.
  rewrite C in G. exact G.
Qed.

(** C4: with Last.fm tags pop 1.0 and rock 0.6 the vote totals are 0.25 and 0.15, the
    secondary genre is exactly 60% of the primary one, and no multi-genre crossover is
    reported (the comparison is strict), with floats and with exact rationals. *)
Theorem C4_boundary_no_crossover :
  genre_totals (classifications (p_boundary (R:=float))) =
    [(chars "pop", num 25 100); (chars "rock", num 15 100)] /\
  PrimFloat.eqb (PrimFloat.mul (num 25 100) (num 6 10)) (num 15 100) = true /\
  Qeq (3 # 20) ((1 # 4) * (6 # 10)) /\
  (forall set_list, ~ In (chars "multi_genre_crossover")
     (crossover_indicators (apply_ari_reasoning_engine (R:=float) set_list p_boundary))) /\
  (forall set_list, ~ In (chars "multi_genre_crossover")
     (crossover_indicators (apply_ari_reasoning_engine (R:=Q) set_list p_boundary))).
Proof.
  split; [vm_compute; reflexivity|].
  split; [vm_compute; reflexivity|].
  split; [reflexivity|].
  split; intros sl; unfold apply_ari_reasoning_engine; simpl classifications; cbv zeta;
    unfold detect_crossover_indicators; cbn [crossover_indicators secondary_tags classifications];
    match goal with |- context [Nat.ltb 5 ?l] => destruct (Nat.ltb 5 l) end;
    vm_compute; intuition discriminate.
Qed.

Local Open Scope Q_scope.

Lemma source_weight_pos s : 0 < @source_weight Q q_num s.
Proof.
  unfold source_weight, source_weights. simpl.
  repeat match goal with |- context [if ?b then _ else _] => destruct b end;
  reflexivity.
Qed.

Lemma weight_pos c : 0 < @c_confidence Q c -> 0 < weight c.
Proof.
  intros H. unfold weight. simpl. apply Qmult_lt_0_compat; [apply source_weight_pos|exact H].
Qed.

Lemma vadd_pos k w v : Pos v -> 0 < w -> Pos (@vadd Q q_num k w v).
Proof.
  induction v as [|[k' x] v IH]; intros Hv Hw; simpl; [constructor|].
  inversion Hv; subst. destruct (list_ascii_eqb k k'); constructor; simpl in *; qsimpl; try lra; try assumption; apply IH; assumption.
Qed.

Lemma vote_pos k w v : Pos v -> 0 < w -> Pos (@vote Q q_num k w v).
Proof.
  intros Hv Hw. unfold vote. destruct (vlookup k v).
  - apply vadd_pos; auto.
  - apply Forall_app; split; auto. constructor; [simpl; qsimpl; lra|constructor].
Qed.

Lemma vote_nonempty k w v : @vote Q q_num k w v <> [].
Proof.
  unfold vote. destruct (vlookup k v) eqn:L.
  - destruct v as [|[k' x] v]; simpl in *; [discriminate|].
    destruct (list_ascii_eqb k k'); discriminate.
  - intros E. apply app_eq_nil in E as [_ E]. discriminate.
Qed.

Lemma fold_votes_pos cs v :
  Forall (fun c => 0 < c_confidence c) cs -> Pos v ->
  Pos (fold_left (fun v c => @vote Q q_num (map_to_primary_genre (c_name c)) (weight c) v) cs v).
Proof.
  revert v. induction cs as [|c cs IH]; intros v Hc Hv; simpl; [exact Hv|].
  inversion Hc; subst. apply IH; auto. apply vote_pos; auto. apply weight_pos; auto.
Qed.

Lemma fold_votes_nonempty cs v :
  (v <> [] \/ cs <> []) ->
  fold_left (fun v c => @vote Q q_num (map_to_primary_genre (c_name c)) (weight c) v) cs v <> [].
Proof.
  revert v. induction cs as [|c cs IH]; intros v H; simpl.
  - destruct H; congruence.
  - apply IH. left. apply vote_nonempty.
Qed.

Lemma max_key_aux_in (best : list ascii * Q) v : In (max_key_aux best v) (best :: v).
Proof.
  revert best. induction v as [|x v IH]; intros best; simpl; [now left|].
  match goal with |- context [if ?b then _ else _] => destruct b end.
  - specialize (IH x). destruct IH as [E|E]; [right; left; auto|right; right; auto].
  - specialize (IH best). destruct IH as [E|E]; [left; auto|right; right; auto].
Qed.

Lemma list_ascii_eqb_refl l : list_ascii_eqb l l = true.
Proof. induction l; simpl; auto. now rewrite Ascii.eqb_refl. Qed.

Lemma vlookup_in_key g x (v : @votes Q) : In (g, x) v -> exists w, vlookup g v = Some w /\ In w (map snd v).
Proof.
  induction v as [|[k y] v IH]; simpl; intros H; [destruct H|].
  destruct (list_ascii_eqb g k) eqn:E.
  - exists y. split; auto.
  - destruct H as [H|H].
    + inversion H; subst. rewrite list_ascii_eqb_refl in E. discriminate.
    + destruct (IH H) as [w [H1 H2]]. exists w. split; auto.
Qed.

Lemma max_key_lookup (v : @votes Q) g :
  max_key v = Some g -> exists w, vlookup g v = Some w /\ In w (map snd v).
Proof.
  destruct v as [|x v]; simpl; intros E; [discriminate|].
  inversion E; subst. pose proof (max_key_aux_in x v) as I.
  apply (vlookup_in_key _ (snd (max_key_aux x v)) (x :: v)). now rewrite <- surjective_pairing.
Qed.

Lemma total_ge (v : @votes Q) : forall a, Pos v ->
  a <= fold_left (fun acc x => nadd acc (snd x)) v a /\
  forall w, In w (map snd v) -> a + w <= fold_left (fun acc x => nadd acc (snd x)) v a.
Proof.
  induction v as [|[k x] v IH]; intros a Hv; simpl.
  - split; [lra|intros w []].
  - inversion Hv; subst. simpl in H1. qsimpl. destruct (IH (a + x) H2) as [I1 I2].
    split; [lra|]. intros w [<-|Hw]; [lra|].
    specialize (I2 w Hw). assert (0 < w).
    { rewrite Forall_forall in H2. apply in_map_iff in Hw as [[k' w'] [<- Hin]].
      apply (H2 _ Hin). }
    lra.
Qed.

Lemma total_ge0 (V : @votes Q) : Pos V -> forall w, In w (map snd V) -> w <= total V.
Proof.
  intros HP w Hin. destruct (total_ge V (num 0 1) HP) as [_ H]. specialize (H w Hin).
  unfold total. qsimpl. lra.
Qed.

Lemma genre_totals_pos cs : Forall (fun c => 0 < c_confidence c) cs -> Pos (@genre_totals Q q_num cs).
Proof. intros H. unfold genre_totals. apply fold_votes_pos; auto. constructor. Qed.

Lemma genre_totals_nonempty c cs : @genre_totals Q q_num (c :: cs) <> [].
Proof. unfold genre_totals. apply fold_votes_nonempty. right. discriminate. Qed.

Lemma engine_confidence (sl : list (list ascii) -> list (list ascii)) (p : @profile Q) :
  Forall (fun c => 0 < c_confidence c) (classifications p) ->
  0 <= confidence_score (apply_ari_reasoning_engine sl p) <= 1 /\
  (confidence_score (apply_ari_reasoning_engine sl p) == 0 <->
   classifications (apply_ari_reasoning_engine sl p) = []).
Proof.
  intros Hpos. unfold apply_ari_reasoning_engine.
  destruct (classifications p) as [|c cs] eqn:Ec.
  - simpl. split; [split; discriminate|split; reflexivity].
  - pose proof (genre_totals_pos (c :: cs) Hpos) as HP.
    pose proof (genre_totals_nonempty c cs) as HN.
    set (V := genre_totals (c :: cs)) in *. clearbody V.
    destruct (max_key V) as [g|] eqn:Em.
    2:{ destruct V; [congruence|discriminate]. }
    destruct (max_key_lookup _ _ Em) as [w [Hl Hin]].
    rewrite Hl.
    pose proof (total_ge0 V HP w Hin) as Ht.
    assert (Hw : 0 < w).
    { unfold Pos in HP. rewrite Forall_forall in HP. apply in_map_iff in Hin as [[k w'] [<- Hk]].
      apply (HP _ Hk). }
    set (T := total V) in *. clearbody T. qsimpl.
    assert (HT : 0 < T) by lra.
    assert (Hb : Qle_bool T 0 = false).
    { destruct (Qle_bool T 0) eqn:B; [|reflexivity]. apply Qle_bool_iff in B. lra. }
    cbn. rewrite Hb. cbn.
    assert (H1 : 0 < w / T) by (apply Qlt_shift_div_l; lra).
    assert (H2 : w / T <= 1) by (apply Qle_shift_div_r; lra).
    split; [split; lra|split; [intros E; lra|discriminate]].
Qed.

Import Classify.

Lemma lastfm_top_pos (tags : list (list ascii * Q)) :
  Forall (fun t => 0 < snd t) (lastfm_top_genres tags).
Proof.
  unfold lastfm_top_genres. apply Forall_forall. intros t Ht.
  apply filter_In in Ht as [_ Ht]. qsimpl. apply negb_true_iff in Ht.
  destruct (Qlt_le_dec 0 (snd t)) as [L|L]; [exact L|].
  assert (B : Qle_bool (snd t) (4 # 10) = true) by (apply Qle_bool_iff; lra).
  congruence.
Qed.

Lemma map_mk_pos (l : list (list ascii)) (c : Q) s :
  0 < c -> Forall (fun x => 0 < c_confidence x) (map (fun g => mk g c s) l).
Proof. intros H. apply Forall_map, Forall_forall. intros; exact H. Qed.

Lemma collect_pos (srcs : @sources Q) d a pa :
  Forall (fun c => 0 < c_confidence c) (fst (collect srcs d a pa)).
Proof.
  unfold collect.
  destruct (spotify_available srcs), (chartmetric_available srcs), (lastfm_available srcs);
  destruct (spotify srcs pa) as [|[|g gs]]; destruct (chartmetric srcs pa) as [|[gs'|]];
  destruct (lastfm srcs pa) as [|[tags|]];
  cbn -[mk lastfm_top_genres genius_artist_genres map]; rewrite ?Forall_app; repeat split;
  first [ apply map_mk_pos; reflexivity
        | constructor
        | apply Forall_map; eapply Forall_impl; [|apply lastfm_top_pos]; intros; assumption ].
Qed.

(** C2: for a profile built from the classifications gathered from the sources, the
    confidence computed by the reasoning engine lies in [0,1] and is 0 exactly when
    there are no classifications. *)
Theorem C2_confidence_bounds (set_list : list (list ascii) -> list (list ascii))
  (srcs : @sources Q) (d : db) (artist : list ascii) (p : @profile Q)
  (Hp : classifications p = fst (collect srcs d artist (extract_primary_artist artist))) :
  0 <= confidence_score (apply_ari_reasoning_engine set_list p) <= 1 /\
  (confidence_score (apply_ari_reasoning_engine set_list p) == 0 <->
   classifications (apply_ari_reasoning_engine set_list p) = []).
Proof. apply engine_confidence. rewrite Hp. apply collect_pos. Qed.

Lemma C2_witness :
  classifications (p_collected srcs_lastfm db_drake (chars "Drake")) =
    fst (collect srcs_lastfm db_drake (chars "Drake") (extract_primary_artist (chars "Drake"))) /\
  (0 <= confidence_score (apply_ari_reasoning_engine (fun l => l)
          (p_collected srcs_lastfm db_drake (chars "Drake"))) <= 1 /\
   (confidence_score (apply_ari_reasoning_engine (fun l => l)
          (p_collected srcs_lastfm db_drake (chars "Drake"))) == 0 <->
    classifications (apply_ari_reasoning_engine (fun l => l)
          (p_collected srcs_lastfm db_drake (chars "Drake"))) = [])).
Proof.
  split; [reflexivity|].
  apply (C2_confidence_bounds (fun l => l) srcs_lastfm db_drake (chars "Drake")). reflexivity.
Defined.
End EngineProofs.


(** ** Producer enrichment *)
Module ProducerProofs.
Import ListNotations Producer.
Local Open Scope string_scope.

(** C6: with a year, the subgenres of Max Martin are [list(set(...))] of the table and
    era subgenres, so the suggested order is the order the set iterates in: two set
    orders give two different suggestions; without a year the table order is kept. *)
Theorem C6_order_follows_set_order {R} `{PyNum R} (set_list1 set_list2 : list string -> list string) :
  set_list1 ["dance-pop"; "teen-pop"; "electropop"; "teen-pop"; "dance-pop"]
    = ["dance-pop"; "teen-pop"; "electropop"] ->
  set_list2 ["dance-pop"; "teen-pop"; "electropop"; "teen-pop"; "dance-pop"]
    = ["teen-pop"; "electropop"; "dance-pop"] ->
  option_map suggested_subgenres (analyze_producer_contribution set_list1 ["Max Martin"] (Some 2002%Z))
    = Some ["dance-pop"; "teen-pop"; "electropop"] /\
  option_map suggested_subgenres (analyze_producer_contribution set_list2 ["Max Martin"] (Some 2002%Z))
    = Some ["teen-pop"; "electropop"; "dance-pop"] /\
  (forall set_list, option_map suggested_subgenres (analyze_producer_contribution set_list ["Max Martin"] None)
    = Some ["dance-pop"; "teen-pop"; "electropop"]).
Proof.
  intros H1 H2.
  assert (G : forall sl : list string -> list string,
     get_producer_subgenres (R:=R) sl "Max Martin" (Some 2002%Z) =
     Some {| primary := "pop";
             subgenres := sl ["dance-pop"; "teen-pop"; "electropop"; "teen-pop"; "dance-pop"];
             confidence := num 95 100 |}) by reflexivity.
  split; [|split].
  - unfold analyze_producer_contribution. cbn. rewrite G, H1. reflexivity.
  - unfold analyze_producer_contribution. cbn. rewrite G, H2. reflexivity.
  - intros sl. reflexivity.
Qed.

Lemma C6_witness :
  option_map (@suggested_subgenres Q) (analyze_producer_contribution (fun l => ["teen-pop"; "electropop"; "dance-pop"]) ["Max Martin"] (Some 2002%Z)) = Some ["teen-pop"; "electropop"; "dance-pop"].
Proof.
  exact (proj1 (proj2 (C6_order_follows_set_order (R:=Q) (fun l => ["dance-pop"; "teen-pop"; "electropop"]) (fun l => ["teen-pop"; "electropop"; "dance-pop"]) eq_refl eq_refl))).
Defined.
End ProducerProofs.

(** ** Subgenre classification *)
Module SubgenreProofs.
Import ListNotations Subgenre SubgenreSpec SubgenreDefs.
Local Open Scope string_scope.
Local Open Scope Q_scope.

(* invariant of the loop: 0 <= matches <= total *)
Lemma profile_fold_bounds (f : @features Q) prof : forall m t,
  0 <= m <= inject_Z (Z.of_nat t) ->
  0 <= fst (fold_left (profile_step f) prof (m, t)) <=
       inject_Z (Z.of_nat (snd (fold_left (profile_step f) prof (m, t)))).
Proof.
  induction prof as [|[k [lo hi]] prof IH]; intros m t H; simpl; [exact H|].
  unfold profile_step at 2. destruct (sget k f) as [v|]; [|apply IH; exact H].
  assert (HS : inject_Z (Z.of_nat (S t)) == inject_Z (Z.of_nat t) + 1).
  { rewrite Nat2Z.inj_succ. unfold Z.succ. rewrite inject_Z_plus. reflexivity. }
  repeat match goal with |- context [if ?b then _ else _] => destruct b end;
  apply IH; qsimpl; rewrite HS; lra.
Qed.

Lemma profile_fold_skip (f : @features Q) prof acc :
  fold_left (profile_step f) prof acc =
  fold_left (profile_step f)
    (filter (fun fr => match sget (fst fr) f with Some _ => true | None => false end) prof) acc.
Proof.
  revert acc. induction prof as [|[k [lo hi]] prof IH]; intros [m t]; [reflexivity|].
  cbn [fold_left filter fst].
  destruct (sget k f) as [v|] eqn:E.
  - apply IH.
  - rewrite <- IH. f_equal. unfold profile_step. rewrite E. reflexivity.
Qed.

Lemma score_bounds (f : @features Q) prof : 0 <= calculate_profile_match f prof <= 1.
Proof.
  unfold calculate_profile_match.
  pose proof (profile_fold_bounds f prof 0 0) as B.
  destruct (fold_left (profile_step f) prof (num 0 1, 0%nat)) as [m t] eqn:E.
  cbn [num q_num] in E. rewrite E in B. simpl fst in B; simpl snd in B.
  specialize (B ltac:(split; unfold Qle; simpl; lia)).
  destruct (Nat.ltb_spec 0 t) as [L|L]; qsimpl; [|lra].
  assert (T : 0 < inject_Z (Z.of_nat t)).
  { unfold Qlt. simpl. lia. }
  change (Z.of_nat t # 1) with (inject_Z (Z.of_nat t)).
  split; [apply Qle_shift_div_l; lra|apply Qle_shift_div_r; lra].
Qed.

Lemma rules_empty_features g : classify_with_rules (R:=Q) g [] = (None, 0).
Proof.
  unfold classify_with_rules.
  destruct (sget g RULE_BASED_SUBGENRES) as [profs|] eqn:E; [|reflexivity].
  unfold RULE_BASED_SUBGENRES in E. simpl in E.
  destruct (String.eqb g "jazz"); [inversion E; subst; reflexivity|].
  destruct (String.eqb g "folk"); [inversion E; subst; reflexivity|discriminate].
Qed.

(** C10: the profile match score lies in [0,1], depends only on the features present
    in the dict (absent ones are skipped, not counted), is 0 when none of the profile's
    features is present (in particular for an empty dict), and an
    empty dict gives no rule-based subgenre and confidence 0. *)
Theorem C10_profile_match_total (f : @features Q) (prof : @profile Q) :
  0 <= calculate_profile_match f prof <= 1 /\
  calculate_profile_match f prof =
    calculate_profile_match f
      (filter (fun fr => match sget (fst fr) f with Some _ => true | None => false end) prof) /\
  ((forall fr, In fr prof -> sget (fst fr) f = None) -> calculate_profile_match f prof = 0) /\
  calculate_profile_match [] prof = 0 /\
  (forall g, classify_with_rules (R:=Q) g [] = (None, 0)).
Proof.
  split; [apply score_bounds|].
  split; [unfold calculate_profile_match; now rewrite profile_fold_skip|].
  split.
  { intros Hn. unfold calculate_profile_match. rewrite profile_fold_skip.
    assert (N : filter (fun fr : string * (Q * Q) =>
                  match sget (fst fr) f with Some _ => true | None => false end) prof = []).
    { induction prof as [|fr prof IH]; [reflexivity|]. simpl.
      rewrite (Hn fr (or_introl eq_refl)). apply IH. intros fr' H'. apply Hn. now right. }
    rewrite N. reflexivity. }
  split; [|apply rules_empty_features].
  unfold calculate_profile_match. rewrite profile_fold_skip.
  assert (N : filter (fun fr : string * (Q * Q) =>
                match sget (fst fr) (@nil (string * Q)) with Some _ => true | None => false end)
                prof = []) by (induction prof; simpl; auto).
  rewrite N. reflexivity.
Qed.

Lemma Qle_bool_false a b : Qle_bool a b = false -> b < a.
Proof.
  intros H. destruct (Qlt_le_dec b a) as [L|L]; [exact L|].
  apply Qle_bool_iff in L. congruence.
Qed.






Lemma best_fold_inv (f : @features Q) profs : forall acc seen,
  best_inv f acc seen -> best_inv f (fold_left (rules_step f) profs acc) (seen ++ profs)%list.
Proof.
  induction profs as [|[s' prof'] profs IH]; intros acc seen I.
  - now rewrite app_nil_r.
  - simpl. replace ((seen ++ (s', prof') :: profs)%list) with ((seen ++ [(s', prof')]) ++ profs)%list
      by now rewrite <- app_assoc.
    apply IH. unfold rules_step. simpl snd. simpl fst. qsimpl.
    destruct (Qle_bool (calculate_profile_match f prof') (snd acc)) eqn:B; simpl negb; cbv iota.
    + apply Qle_bool_iff in B.
      destruct I as [[I1 [I2 I3]]|[s [prof [I1 [I2 [I3 [I4 I5]]]]]]].
      * left. split; [exact I1|split; [exact I2|]]. intros sp Hsp.
        apply in_app_or in Hsp as [Hsp|[<-|[]]]; [auto|]. simpl. rewrite I2 in B. exact B.
      * right. exists s, prof. split; [exact I1|split; [apply in_or_app; now left|]].
        split; [exact I3|split; [exact I4|]]. intros sp Hsp.
        apply in_app_or in Hsp as [Hsp|[<-|[]]]; [auto|exact B].
    + apply Qle_bool_false in B. right. exists s', prof'. simpl fst; simpl snd.
      assert (Hacc : 0 <= snd acc /\ forall sp, In sp seen -> calculate_profile_match f (snd sp) <= snd acc).
      { destruct I as [[I1 [I2 I3]]|[s [prof [I1 [I2 [I3 [I4 I5]]]]]]].
        - rewrite I2. split; [lra|exact I3].
        - split; [lra|exact I5]. }
      destruct Hacc as [H0 Hs].
      split; [reflexivity|split; [apply in_or_app; right; now left|]].
      split; [reflexivity|split; [lra|]]. intros sp Hsp.
      apply in_app_or in Hsp as [Hsp|[<-|[]]]; [specialize (Hs sp Hsp); lra|simpl; lra].
Qed.

Lemma best_profile_spec (f : @features Q) profs : best_inv f (best_profile f profs) profs.
Proof.
  unfold best_profile. apply (best_fold_inv f profs (None, num 0 1) []).
  left. split; [reflexivity|split; [reflexivity|intros sp []]].
Qed.

Lemma rules_result (f : @features Q) g :
  (exists profs s prof, sget g RULE_BASED_SUBGENRES = Some profs /\ In (s, prof) profs /\
     classify_with_rules g f = (Some s, calculate_profile_match f prof) /\
     6 # 10 <= calculate_profile_match f prof /\
     forall sp, In sp profs -> calculate_profile_match f (snd sp) <= calculate_profile_match f prof) \/
  (fst (classify_with_rules g f) = None /\ snd (classify_with_rules g f) < 6 # 10 /\
   forall profs sp, sget g RULE_BASED_SUBGENRES = Some profs -> In sp profs ->
     calculate_profile_match f (snd sp) < 6 # 10).
Proof.
  unfold classify_with_rules.
  destruct (sget g RULE_BASED_SUBGENRES) as [profs|] eqn:E.
  2:{ right. split; [reflexivity|split; [reflexivity|intros ? ? H; discriminate]]. }
  pose proof (best_profile_spec f profs) as I.
  destruct (best_profile f profs) as [b sc] eqn:Eb. qsimpl.
  destruct I as [[I1 [I2 I3]]|[s [prof [I1 [I2 [I3 [I4 I5]]]]]]]; simpl in *; subst.
  - right. destruct (Qle_bool (6 # 10) 0) eqn:B; [discriminate|].
    split; [reflexivity|split; [reflexivity|]].
    intros profs' sp E' Hsp. inversion E'; subst. specialize (I3 sp Hsp). lra.
  - destruct (Qle_bool (6 # 10) (calculate_profile_match f prof)) eqn:B.
    + apply Qle_bool_iff in B. left. exists profs, s, prof. repeat split; auto.
    + apply Qle_bool_false in B. right. split; [reflexivity|split; [exact B|]].
      intros profs' sp E' Hsp. inversion E'; subst. specialize (I5 sp Hsp). lra.
Qed.

Lemma rule_names_truthy g profs s prof :
  sget g (RULE_BASED_SUBGENRES (R:=Q)) = Some profs -> In (s, prof) profs -> truthy (Some s) = true.
Proof.
  intros E H. unfold RULE_BASED_SUBGENRES in E. simpl in E.
  repeat match type of E with
  | context [String.eqb ?a ?b] => destruct (String.eqb a b); [injection E as <-|]
  end; try discriminate;
  simpl in H; repeat destruct H as [H|H]; try contradiction; injection H as <- <-; reflexivity.
Qed.

(** C7: with no model for the primary genre, [classify] in auto mode returns either a
    rule match (method rules, a table subgenre scoring at least 0.6 and highest) or the
    terminal outcome (method none, no subgenre, confidence 0), the latter exactly when
    no profile of the genre reaches 0.6. *)
Theorem C7_classify_without_model (models : list (string * @model_package Q)) g
  (f : @features Q) (Hm : sget g models = None) :
  let r := classify models g f "auto" in
  r_primary_genre r = g /\
  ((exists profs s prof, sget g RULE_BASED_SUBGENRES = Some profs /\ In (s, prof) profs /\
      r_method r = Some "rules" /\ r_subgenre r = Some s /\
      r_confidence r = calculate_profile_match f prof /\ 6 # 10 <= r_confidence r /\
      forall sp, In sp profs -> calculate_profile_match f (snd sp) <= r_confidence r) \/
   (r_method r = Some "none" /\ r_subgenre r = None /\ r_confidence r = 0 /\
      forall profs sp, sget g RULE_BASED_SUBGENRES = Some profs -> In sp profs ->
        calculate_profile_match f (snd sp) < 6 # 10)).
Proof.
  intros r. subst r. unfold classify, classify_with_ml. rewrite Hm. simpl truthy. cbv iota beta.
  simpl (String.eqb "auto" "rules" || String.eqb "auto" "auto").
  destruct (rules_result f g) as [[profs [s [prof [E [Hin [Ec [H6 Hmax]]]]]]]|[E1 [E2 E3]]].
  - rewrite Ec. rewrite (rule_names_truthy g profs s prof E Hin).
    split; [reflexivity|left]. exists profs, s, prof. repeat split; auto.
  - destruct (classify_with_rules g f) as [sub c]. simpl in E1. subst sub. simpl.
    split; [reflexivity|right]. repeat split; auto.
Qed.

(** C7 counterexample: the jazz table exists and no jazz model is loaded, yet with an
    empty feature dict [classify] returns method none, not rules. *)
Lemma C7_jazz_without_features :
  r_method (classify (R:=Q) [] "jazz" [] "auto") = Some "none" /\
  r_subgenre (classify (R:=Q) [] "jazz" [] "auto") = None.
Proof. split; vm_compute; reflexivity. Qed.

Lemma C7_witness :
  sget (A:=@model_package Q) "jazz" [] = None /\
  (let r := classify [] "jazz" jazz_edge "auto" in
  r_primary_genre r = "jazz" /\
  ((exists profs s prof, sget "jazz" RULE_BASED_SUBGENRES = Some profs /\ In (s, prof) profs /\
      r_method r = Some "rules" /\ r_subgenre r = Some s /\
      r_confidence r = calculate_profile_match jazz_edge prof /\ 6 # 10 <= r_confidence r /\
      forall sp, In sp profs -> calculate_profile_match jazz_edge (snd sp) <= r_confidence r) \/
   (r_method r = Some "none" /\ r_subgenre r = None /\ r_confidence r = 0 /\
      forall profs sp, sget "jazz" RULE_BASED_SUBGENRES = Some profs -> In sp profs ->
        calculate_profile_match jazz_edge (snd sp) < 6 # 10))).
Proof. split; [reflexivity|]. apply (C7_classify_without_model [] "jazz" jazz_edge). reflexivity. Defined.





End SubgenreProofs.

(** ** The search loop of the enhanced Genius client *)
Module GeniusSearchProofs.
Import ListNotations PyStr Genius GeniusSearch GeniusSearchDefs.
Local Open Scope nat_scope.

Section WithSong.
Context {S : Type}.

Lemma scan_sound good (det : Z -> outcome (option S)) hs s :
  scan good det hs = Returned (Some s) ->
  exists h, In h hs /\ good h = true /\ det (hit_id h) = Returned (Some s).
Proof.
  induction hs as [|h hs IH]; simpl; [discriminate|].
  destruct (good h) eqn:G.
  - destruct (det (hit_id h)) as [|[s'|]] eqn:D; intro E; try discriminate.
    + injection E as <-. exists h. auto.
    + destruct (IH E) as (h' & I & G' & D'). exists h'. auto.
  - intro E. destruct (IH E) as (h' & I & G' & D'). exists h'. auto.
Qed.

Lemma scan_complete good (det : Z -> outcome (option S)) hs h s :
  (forall i, det i <> Raised) ->
  In h hs -> good h = true -> det (hit_id h) = Returned (Some s) ->
  exists s', scan good det hs = Returned (Some s').
Proof.
  intros NR. induction hs as [|h' hs IH]; simpl; [tauto|].
  intros [<-|I] G D.
  - rewrite G, D. eauto.
  - destruct (good h'); [|eauto].
    destruct (det (hit_id h')) as [|[s'|]] eqn:D'; eauto.
    exfalso. exact (NR _ D').
Qed.

Lemma try_query_sound (A : api S) good q : forall n a s,
  fst (try_query A good q a n) = Some s ->
  exists a' hits h, a <= a' < a + n /\ search A q a' = Returned (Some hits) /\
    In h (firstn 15 hits) /\ good h = true /\ details A q a' (hit_id h) = Returned (Some s).
Proof.
  induction n as [|n IH]; intros a s; [discriminate|]. cbn [try_query].
  destruct (try_query A good q (Datatypes.S a) n) as [r l] eqn:T.
  assert (Retry : r = Some s ->
                  exists a' hits h, a <= a' < a + Datatypes.S n /\
                    search A q a' = Returned (Some hits) /\ In h (firstn 15 hits) /\
                    good h = true /\ details A q a' (hit_id h) = Returned (Some s)).
  { intro E. destruct (IH (Datatypes.S a) s) as (a' & hits & h & B & H1 & H2 & H3 & H4);
      [rewrite T; exact E|].
    exists a', hits, h. repeat split; auto; lia. }
  destruct (search A q a) as [|[hits|]] eqn:Se; [exact Retry| |discriminate].
  destruct (scan good (details A q a) (firstn 15 hits)) as [|r'] eqn:Sc; [exact Retry|].
  simpl. intros ->. destruct (scan_sound _ _ _ _ Sc) as (h & I & G & D).
  exists a, hits, h. repeat split; auto; lia.
Qed.

Lemma try_query_complete (A : api S) good q n hits h s :
  0 < n -> search A q 0 = Returned (Some hits) ->
  (forall i, details A q 0 i <> Raised) ->
  In h (firstn 15 hits) -> good h = true -> details A q 0 (hit_id h) = Returned (Some s) ->
  exists s', fst (try_query A good q 0 n) = Some s'.
Proof.
  intros Hn Se NR I G D. destruct n as [|n]; [lia|]. cbn [try_query].
  destruct (try_query A good q 1 n). rewrite Se.
  destruct (scan_complete good (details A q 0) _ h s NR I G D) as [s' Sc].
  rewrite Sc. simpl. eauto.
Qed.

Lemma try_query_calls (A : api S) good q : forall n a,
  length (snd (try_query A good q a n)) <= n /\
  Forall (fun p => fst p = q /\ a <= snd p < a + n) (snd (try_query A good q a n)).
Proof.
  induction n as [|n IH]; intro a; [simpl; split; [lia|constructor]|]. cbn [try_query].
  destruct (IH (Datatypes.S a)) as [L F].
  destruct (try_query A good q (Datatypes.S a) n) as [r l]. simpl in L, F.
  assert (Retry : length ((q, a) :: l) <= Datatypes.S n /\
                  Forall (fun p => fst p = q /\ a <= snd p < a + Datatypes.S n) ((q, a) :: l)).
  { simpl. split; [lia|]. constructor; [simpl; split; [reflexivity|lia]|].
    eapply Forall_impl; [|exact F]. simpl. intros p [E B]. split; [exact E|lia]. }
  assert (One : length [(q, a)] <= Datatypes.S n /\
            Forall (fun p => fst p = q /\ a <= snd p < a + Datatypes.S n) [(q, a)]).
  { simpl. split; [lia|]. constructor; [simpl; split; [reflexivity|lia]|constructor]. }
  destruct (search A q a) as [|[hits|]]; [exact Retry| |exact One].
  destruct (scan good (details A q a) (firstn 15 hits)); [exact Retry|exact One].
Qed.

Lemma try_queries_sound (A : api S) good mr : forall qs s,
  fst (try_queries A good mr qs) = Some s ->
  exists q a hits h, In q qs /\ a < mr /\ search A q a = Returned (Some hits) /\
    In h (firstn 15 hits) /\ good h = true /\ details A q a (hit_id h) = Returned (Some s).
Proof.
  induction qs as [|q qs IH]; intro s; [discriminate|]. cbn [try_queries].
  destruct (try_query A good q 0 mr) as [r l] eqn:T. destruct r as [s'|].
  - simpl. intros <-.
    destruct (try_query_sound A good q mr 0 s') as (a & hits & h & B & H1 & H2 & H3 & H4);
      [rewrite T; reflexivity|].
    exists q, a, hits, h. repeat split; auto; lia.
  - destruct (try_queries A good mr qs) as [r' l'] eqn:T'. simpl. intro E.
    destruct (IH s) as (q' & a & hits & h & I & H); [exact E|].
    exists q', a, hits, h. split; [right; exact I|exact H].
Qed.

Lemma try_queries_complete (A : api S) good mr qs q hits h s :
  0 < mr -> In q qs -> search A q 0 = Returned (Some hits) ->
  (forall i, details A q 0 i <> Raised) ->
  In h (firstn 15 hits) -> good h = true -> details A q 0 (hit_id h) = Returned (Some s) ->
  exists s', fst (try_queries A good mr qs) = Some s'.
Proof.
  intros Hm Iq Se NR I G D. induction qs as [|q' qs IH]; [destruct Iq|].
  cbn [try_queries]. destruct (try_query A good q' 0 mr) as [r l] eqn:T.
  destruct r as [s'|]; [simpl; eauto|].
  destruct Iq as [->|Iq].
  - destruct (try_query_complete A good q mr hits h s Hm Se NR I G D) as [s' E].
    rewrite T in E. discriminate.
  - destruct (IH Iq) as [s' E]. destruct (try_queries A good mr qs). simpl in *. eauto.
Qed.

Lemma try_queries_calls (A : api S) good mr : forall qs,
  length (snd (try_queries A good mr qs)) <= mr * length qs /\
  Forall (fun p => In (fst p) qs /\ snd p < mr) (snd (try_queries A good mr qs)).
Proof.
  induction qs as [|q qs IH]; [simpl; split; [lia|constructor]|]. cbn [try_queries].
  destruct (try_query_calls A good q mr 0) as [L F].
  destruct (try_query A good q 0 mr) as [r l] eqn:T. simpl in L, F.
  assert (F' : Forall (fun p => In (fst p) (q :: qs) /\ snd p < mr) l).
  { eapply Forall_impl; [|exact F]. simpl. intros p [E B]. split; [left; auto|lia]. }
  destruct r as [s|]; [simpl; split; [lia|exact F']|].
  destruct IH as [L' F2]. destruct (try_queries A good mr qs) as [r' l']. simpl in *.
  split; [rewrite length_app; lia|].
  apply Forall_app. split; [exact F'|].
  eapply Forall_impl; [|exact F2]. simpl. intros p [I B]. split; [right; exact I|exact B].
Qed.

End WithSong.

Lemma dedup_aux_length seen l : length (dedup_aux seen l) <= length l.
Proof.
  revert seen. induction l as [|x l IH]; intro seen; simpl; [lia|].
  destruct (mem x seen); simpl; [specialize (IH seen)|specialize (IH (x :: seen))]; lia.
Qed.

Lemma generate_search_queries_length t a : length (generate_search_queries t a) <= 8.
Proof.
  unfold generate_search_queries, dedup. cbv zeta.
  eapply Nat.le_trans; [apply dedup_aux_length|].
  repeat rewrite length_app.
  repeat match goal with |- context [if ?b then _ else _] => destruct b end; simpl; lia.
Qed.

(** [search_song_enhanced] reports a song only when one of the generated
    queries, on one of its [max_retries] attempts, returned a hit among its
    first 15 that [_is_good_match] accepts for the requested title and
    artist, and the song is the details fetched for that hit. *)
Theorem search_song_enhanced_sound {S : Type} fz bk (A : api S) song artist mr s :
  fst (search_song_enhanced fz bk A song artist mr) = Some s ->
  exists q a hits h,
    In q (generate_search_queries song artist) /\ a < mr /\
    search A q a = Returned (Some hits) /\ In h (firstn 15 hits) /\
    is_good_match fz bk (hit_title h) (hit_artist h) song artist = true /\
    details A q a (hit_id h) = Returned (Some s).
Proof. apply try_queries_sound. Qed.

(** When a generated query answers its first attempt with a hit among the
    first 15 that [_is_good_match] accepts and whose details come back, and
    the details calls of that attempt raise no exception, the search
    succeeds, whatever the other queries and attempts do. *)
Theorem search_song_enhanced_complete {S : Type} fz bk (A : api S) song artist mr q hits h s :
  0 < mr -> In q (generate_search_queries song artist) ->
  search A q 0 = Returned (Some hits) -> In h (firstn 15 hits) ->
  is_good_match fz bk (hit_title h) (hit_artist h) song artist = true ->
  details A q 0 (hit_id h) = Returned (Some s) ->
  (forall i, details A q 0 i <> Raised) ->
  exists s', fst (search_song_enhanced fz bk A song artist mr) = Some s'.
Proof.
  intros Hm Iq Se I G D NR. eapply try_queries_complete; eauto.
Qed.

(** [search_song_enhanced] makes at most [8 * max_retries] searches: each
    is made with a generated query on an attempt below [max_retries], each
    query at most [max_retries] times, and at most 8 queries are
    generated. With [max_retries = 0] it searches nothing. *)
Theorem search_song_enhanced_calls {S : Type} fz bk (A : api S) song artist mr :
  length (snd (search_song_enhanced fz bk A song artist mr)) <= 8 * mr /\
  Forall (fun p => In (fst p) (generate_search_queries song artist) /\ snd p < mr)
    (snd (search_song_enhanced fz bk A song artist mr)).
Proof.
  unfold search_song_enhanced.
  destruct (try_queries_calls A (fun h => is_good_match fz bk (hit_title h) (hit_artist h) song artist)
              mr (generate_search_queries song artist)) as [L F].
  split; [|exact F].
  pose proof (generate_search_queries_length song artist). nia.
Qed.

Lemma search_song_enhanced_sound_witness :
  fst (search_song_enhanced false Fuzz.Difflib api_hello (chars "Hello") (chars "Adele") 3)
    = Some 7%Z /\
  exists q a hits h,
    In q (generate_search_queries (chars "Hello") (chars "Adele")) /\ a < 3 /\
    search api_hello q a = Returned (Some hits) /\ In h (firstn 15 hits) /\
    is_good_match false Fuzz.Difflib (hit_title h) (hit_artist h) (chars "Hello") (chars "Adele")
      = true /\
    details api_hello q a (hit_id h) = Returned (Some 7%Z).
Proof.
  split; [vm_compute; reflexivity|].
  apply search_song_enhanced_sound. vm_compute. reflexivity.
Defined.

Lemma search_song_enhanced_complete_witness :
  exists s', fst (search_song_enhanced false Fuzz.Difflib api_hello (chars "Hello") (chars "Adele") 3)
               = Some s'.
Proof.
  apply (search_song_enhanced_complete false Fuzz.Difflib api_hello (chars "Hello") (chars "Adele")
           3 (chars "Hello Adele") [hello_hit] hello_hit 7%Z).
  - lia.
  - vm_compute. left. reflexivity.
  - reflexivity.
  - simpl. left. reflexivity.
  - vm_compute. reflexivity.
  - reflexivity.
  - intros i. discriminate.
Defined.

End GeniusSearchProofs.

(** ** Song and creator classification *)
Module SongClassifyProofs.
Import ListNotations PyStr Engine Classify SongClassify.

Lemma spotify_song_genres_nil {R : Type} `{PyNum R} srch art b song artist :
  get_spotify_song_genres srch art b song artist = [].
Proof. unfold get_spotify_song_genres. destruct b; reflexivity. Qed.

Lemma classify_song_raises_aux {R : Type} `{PyNum R} set_list sw ps srch art ic srcs d c song artist :
  fst (classify_song set_list sw ps srch art ic srcs d c song artist) = Raised.
Proof.
  unfold classify_song.
  destruct (classify_artist set_list srcs d c artist) as [[ar c'] calls].
  rewrite spotify_song_genres_nil. simpl. destruct (ic (confidence_score ar)); reflexivity.
Qed.

(** [_get_spotify_song_genres] always returns [[]]: [SpotifyGenreClient]
    has no [search] method, so the call raises [AttributeError], which the
    function catches; without a client it returns [[]] directly. *)
Theorem get_spotify_song_genres_empty {R : Type} `{PyNum R}
    (spotify_search : list ascii -> outcome (option (list ascii)))
    (spotify_artist : list ascii -> outcome (list (list ascii)))
    (spotify_client : bool) (song_name artist_name : list ascii) :
  get_spotify_song_genres spotify_search spotify_artist spotify_client song_name artist_name = [].
Proof. apply spotify_song_genres_nil. Qed.

(** [_apply_reasoning_engine] raises [AttributeError] ([self.SOURCE_WEIGHTS]
    is not an attribute of the system) on every non-empty [source_genres],
    whatever the genre lists; only [{}] gives a result: primary genre
    'other', confidence 0, no tags and no sources. *)
Theorem apply_reasoning_engine_raises {R : Type} `{PyNum R} (SOURCE_WEIGHTS : list (string * R))
    (source_genres : list (list ascii * list (list ascii))) :
  apply_reasoning_engine SOURCE_WEIGHTS source_genres =
    match source_genres with [] => Returned (other_result (R := R)) | _ => Raised end.
Proof. destruct source_genres as [|[s g] rest]; reflexivity. Qed.

(** [classify_song] raises on every song once [classify_artist] has
    returned: the song-specific genres are always empty, and inheriting from
    the artist either raises [TypeError] on [artist_result.confidence_score
    * 0.8] (a [Decimal] confidence) or reads [artist_result.sources], which
    [ArtistGenreProfile] does not have ([AttributeError]). *)
Theorem classify_song_always_raises {R : Type} `{PyNum R}
    (set_list : list (list ascii) -> list (list ascii)) (SOURCE_WEIGHTS : list (string * R))
    (profile_sources : list (list ascii))
    (spotify_search : list ascii -> outcome (option (list ascii)))
    (spotify_artist : list ascii -> outcome (list (list ascii)))
    (inherit_confidence : R -> outcome R) (srcs : sources) (d : db) (c : cache) (song_name artist_name : list ascii) :
  fst (classify_song set_list SOURCE_WEIGHTS profile_sources spotify_search spotify_artist
         inherit_confidence srcs d c song_name artist_name) = Raised.
Proof. apply classify_song_raises_aux. Qed.

(** [classify_creator] returns primary genre 'other' with confidence 0, no
    secondary tags and no sources for every creator: either no song matches
    the credit query, or classifying the first song raises and the error
    result is returned. *)
Theorem classify_creator_always_other {R : Type} `{PyNum R}
    (set_list : list (list ascii) -> list (list ascii)) (SOURCE_WEIGHTS : list (string * R))
    (profile_sources : list (list ascii))
    (spotify_search : list ascii -> outcome (option (list ascii)))
    (spotify_artist : list ascii -> outcome (list (list ascii)))
    (inherit_confidence : R -> outcome R) (srcs : sources) (d : db) (c : cache) (rows : list credit_row)
    (creator_name creator_type : list ascii) :
  fst (classify_creator set_list SOURCE_WEIGHTS profile_sources spotify_search spotify_artist
         inherit_confidence srcs d c rows creator_name creator_type) = other_result.
Proof.
  unfold classify_creator.
  destruct (creator_songs rows creator_name creator_type) as [|[sn an] rest]; [reflexivity|].
  simpl.
  pose proof (classify_song_raises_aux set_list SOURCE_WEIGHTS profile_sources spotify_search
                spotify_artist inherit_confidence srcs d c sn an) as E.
  destruct (classify_song set_list SOURCE_WEIGHTS profile_sources spotify_search spotify_artist
              inherit_confidence srcs d c sn an) as [r c1]. simpl in E. subst r. reflexivity.
Qed.

End SongClassifyProofs.


(** ** A&R insights *)
Module InsightsProofs.
Import ListNotations PyStr Engine Insights InsightsDefs.

Lemma list_ascii_eqb_spec a b : list_ascii_eqb a b = true <-> a = b.
Proof.
  revert b. induction a as [|x a IH]; intros [|y b]; simpl; try (split; congruence).
  rewrite andb_true_iff, Ascii.eqb_eq, IH. split; [intros [-> ->]; reflexivity|].
  intro E. injection E as -> ->. auto.
Qed.

Lemma list_ascii_eqb_neq a b : a <> b -> list_ascii_eqb a b = false.
Proof.
  intro N. destruct (list_ascii_eqb a b) eqn:E; [|reflexivity].
  apply list_ascii_eqb_spec in E. contradiction.
Qed.

Lemma agree_add_keys k x (d : agreement) :
  map fst (agree_add k x d) =
    if existsb (list_ascii_eqb k) (map fst d) then map fst d else map fst d ++ [k].
Proof.
  induction d as [|[k' l] d IH]; simpl; [reflexivity|].
  destruct (list_ascii_eqb k k') eqn:E; simpl; [reflexivity|].
  rewrite IH. destruct (existsb (list_ascii_eqb k) (map fst d)); reflexivity.
Qed.

Lemma existsb_key k (d : agreement) :
  existsb (list_ascii_eqb k) (map fst d) = true <-> In k (map fst d).
Proof.
  rewrite existsb_exists. split.
  - intros (k' & I & E). apply list_ascii_eqb_spec in E. subst. exact I.
  - intro I. exists k. split; [exact I|apply list_ascii_eqb_spec; reflexivity].
Qed.

Lemma agree_add_nodup k x (d : agreement) :
  NoDup (map fst d) -> NoDup (map fst (agree_add k x d)).
Proof.
  intro N. rewrite agree_add_keys.
  destruct (existsb (list_ascii_eqb k) (map fst d)) eqn:E; [exact N|].
  apply NoDup_app; [exact N|repeat constructor; simpl; tauto|].
  intros y I [->|[]]. apply (proj2 (existsb_key y d)) in I. congruence.
Qed.

Lemma in_keys g l (d : agreement) : In (g, l) d -> In g (map fst d).
Proof. intro I. apply (in_map fst) in I. exact I. Qed.

Lemma agree_add_in k x (d : agreement) g l :
  NoDup (map fst d) ->
  (In (g, l) (agree_add k x d) <->
   (g = k /\ exists l0, (In (k, l0) d \/ (~ In k (map fst d) /\ l0 = [])) /\ l = l0 ++ [x])
   \/ (g <> k /\ In (g, l) d)).
Proof.
  induction d as [|[k' l'] d IH]; intro N; simpl.
  - split.
    + intros [E|[]]. injection E as <- <-. left. split; [reflexivity|].
      exists []. split; [right; auto|reflexivity].
    + intros [[-> (l0 & [[]|[_ ->]] & ->)]|[_ []]]. left. reflexivity.
  - simpl in N. inversion N as [|? ? Nk Nd]. subst.
    destruct (list_ascii_eqb k k') eqn:E.
    + apply list_ascii_eqb_spec in E. subst k'. simpl. split.
      * intros [F|I].
        -- injection F as <- <-. left. split; [reflexivity|]. exists l'. auto.
        -- right. split; [|right; exact I].
           intros ->. exact (Nk (in_keys _ _ _ I)).
      * intros [[-> (l0 & [[F|I]|[F _]] & ->)]|[Ne [F|I]]].
        -- injection F as <-. left. reflexivity.
        -- exfalso. exact (Nk (in_keys _ _ _ I)).
        -- exfalso. apply F. left. reflexivity.
        -- injection F as <- <-. contradiction.
        -- right. exact I.
    + assert (Ne : k <> k').
      { intro Ek. apply (list_ascii_eqb_spec k k') in Ek. congruence. }
      simpl. rewrite (IH Nd). split.
      * intros [F|[[-> (l0 & H1 & ->)]|[Ng I]]].
        -- injection F as -> ->. right. split; [congruence|left; reflexivity].
        -- left. split; [reflexivity|]. exists l0. split; [|reflexivity].
           destruct H1 as [I|[Ni ->]]; [left; right; exact I|right; split; [|reflexivity]].
           intros [F|I]; [congruence|contradiction].
        -- right. split; [exact Ng|right; exact I].
      * intros [[-> (l0 & H1 & ->)]|[Ng [F|I]]].
        -- right. left. split; [reflexivity|]. exists l0. split; [|reflexivity].
           destruct H1 as [[F|I]|[Ni ->]].
           ++ injection F as <-. contradiction.
           ++ left. exact I.
           ++ right. split; [|reflexivity]. intro I. apply Ni. right. exact I.
        -- left. exact F.
        -- right. right. split; [exact Ng|exact I].
Qed.

Section WithNum.
Context {R : Type} `{PyNum R}.

Lemma genre_sources_app (cs : list (@classification R)) c g :
  genre_sources (cs ++ [c]) g =
    genre_sources cs g ++ (if list_ascii_eqb (map_to_primary_genre (c_name c)) g
                           then [c_source c] else []).
Proof.
  unfold genre_sources. rewrite filter_app, map_app. simpl.
  destruct (list_ascii_eqb (map_to_primary_genre (c_name c)) g); reflexivity.
Qed.

Lemma agreement_inv_step cs c d :
  agreement_inv cs d ->
  agreement_inv (cs ++ [c]) (agree_add (map_to_primary_genre (c_name c)) (c_source c) d).
Proof.
  intros [N Hd]. split; [apply agree_add_nodup; exact N|].
  set (k := map_to_primary_genre (c_name c)).
  assert (Key : In k (map fst d) <-> genre_sources cs k <> []).
  { split.
    - intro I. apply in_map_iff in I as ([k' l0] & E & I). simpl in E. subst k'.
      apply Hd in I as [-> Ne]. exact Ne.
    - intro Ne. apply (in_keys _ (genre_sources cs k)). apply Hd. auto. }
  intros g l. rewrite (agree_add_in _ _ _ _ _ N). rewrite genre_sources_app. fold k.
  destruct (list_eq_dec ascii_dec g k) as [->|Ng].
  - rewrite (proj2 (list_ascii_eqb_spec k k) eq_refl). split.
    + intros [[_ (l0 & H1 & ->)]|[Ng _]]; [|congruence].
      destruct H1 as [I|[Ni ->]].
      * apply Hd in I as [-> _]. split; [reflexivity|]. intro E; destruct (app_eq_nil _ _ E); discriminate.
      * assert (E : genre_sources cs k = []).
        { destruct (genre_sources cs k) eqn:G; [reflexivity|]. exfalso. apply Ni, Key. congruence. }
        rewrite E. split; [reflexivity|discriminate].
    + intros [-> _]. left. split; [reflexivity|]. exists (genre_sources cs k). split; [|reflexivity].
      destruct (genre_sources cs k) eqn:G.
      * right. split; [|reflexivity]. intro I. apply Key in I. contradiction.
      * left. apply Hd. rewrite G. split; [reflexivity|discriminate].
  - assert (F : list_ascii_eqb k g = false).
    { apply list_ascii_eqb_neq. intro E. apply Ng. symmetry. exact E. }
    rewrite F, app_nil_r. split.
    + intros [[E _]|[_ I]]; [contradiction|apply Hd; exact I].
    + intro H1. right. split; [exact Ng|apply Hd; exact H1].
Qed.

Lemma source_agreement_inv (cs : list (@classification R)) :
  agreement_inv cs (source_agreement cs).
Proof.
  induction cs as [|c cs IH] using rev_ind.
  - split; [constructor|]. intros g l. simpl. split; [intros []|intros [-> N]; exact (N eq_refl)].
  - unfold source_agreement. rewrite fold_left_app. simpl. apply agreement_inv_step. exact IH.
Qed.

(** [_generate_ar_insights] lists a primary genre under [source_consensus]
    exactly when at least two of the profile's classifications map to it,
    with the sources of those classifications in order. Two classifications
    from the same source count twice: the consensus is not one of distinct
    sources. *)
Theorem source_consensus_spec (p : @profile R) (g : list ascii) (srcs : list (list ascii)) :
  In (g, srcs) (source_consensus (generate_ar_insights p)) <->
  srcs = genre_sources (classifications p) g /\ (2 <= length srcs)%nat.
Proof.
  simpl. rewrite filter_In. destruct (source_agreement_inv (classifications p)) as [_ Hd].
  rewrite Hd. simpl. rewrite Nat.ltb_lt. split.
  - intros [[-> _] L]. split; [reflexivity|lia].
  - intros [-> L]. split; [split; [reflexivity|]|lia].
    intro E. rewrite E in L. simpl in L. lia.
Qed.

End WithNum.
End InsightsProofs.

(** ** The API response cache *)
Module ApiCacheProofs.
Import ListNotations PyStr ApiCache InsightsProofs.

Section WithValue.
Context {V : Type}.

Lemma get_set_item k1 k2 (v : V) (d : dict V) :
  get_item k2 (set_item k1 v d) = if list_ascii_eqb k2 k1 then Some v else get_item k2 d.
Proof.
  induction d as [|[k' v'] d IH]; simpl; [destruct (list_ascii_eqb k2 k1); reflexivity|].
  destruct (list_ascii_eqb k1 k') eqn:E1; simpl.
  - apply list_ascii_eqb_spec in E1. subst k'. destruct (list_ascii_eqb k2 k1); reflexivity.
  - rewrite IH. destruct (list_ascii_eqb k2 k1) eqn:E2; [|reflexivity].
    apply list_ascii_eqb_spec in E2. subst k2. rewrite E1. reflexivity.
Qed.

Lemma cache_key_lower s n1 n2 : lower n1 = lower n2 -> cache_key s n1 = cache_key s n2.
Proof. unfold cache_key. intros ->. reflexivity. Qed.

Lemma cache_response_get s1 q1 s2 q2 (r : V) (st : state V) :
  get_cached_response s2 q2 (cache_response s1 q1 r st) =
    if list_ascii_eqb (cache_key s2 q2) (cache_key s1 q1) then Some r
    else get_cached_response s2 q2 st.
Proof. unfold get_cached_response, cache_response. simpl. apply get_set_item. Qed.

(** A response stored by [_cache_response] is what [_get_cached_response]
    returns for the same source and any query equal up to letter case; a
    lookup under another key [f"{source}:{query.lower()}"] sees the cache as
    before the store. *)
Theorem cache_response_roundtrip (source query source' query' : list ascii) (response : V)
    (st : state V) :
  get_cached_response source' query' (cache_response source query response st) =
    if list_ascii_eqb (cache_key source' query') (cache_key source query) then Some response
    else get_cached_response source' query' st.
Proof. apply cache_response_get. Qed.

End WithValue.

Lemma cached_artist_genres_hit source available fetch n1 n2 st :
  lower n1 = lower n2 ->
  (exists gs, get_cached_response (chars source) n1 st = Some gs \/
     (get_cached_response (chars source) n1 st = None /\ fetch n1 = Returned (Some gs))) ->
  cached_artist_genres source available fetch n2
    (snd (fst (cached_artist_genres source available fetch n1 st))) =
  (fst (fst (cached_artist_genres source available fetch n1 st)),
   snd (fst (cached_artist_genres source available fetch n1 st)), false).
Proof.
  intros L (gs & Hg). unfold cached_artist_genres.
  destruct available; [|reflexivity]. simpl.
  assert (K : get_cached_response (V := list (list ascii)) (chars source) n2 =
              get_cached_response (chars source) n1).
  { unfold get_cached_response. rewrite (cache_key_lower _ _ _ L). reflexivity. }
  destruct (get_cached_response (chars source) n1 st) as [c|] eqn:G.
  - simpl. rewrite K, G. reflexivity.
  - destruct Hg as [Hg|[_ F]]; [discriminate|]. rewrite F. simpl.
    rewrite cache_response_get. rewrite (cache_key_lower _ _ _ L).
    rewrite (proj2 (list_ascii_eqb_spec _ _) eq_refl). reflexivity.
Qed.

(** In [_get_spotify_artist_genres] and [_get_lastfm_artist_genres], once a
    lookup of an artist name found the genres (a cache hit, or client data
    holding the genres key, which it then caches), a later lookup of the same
    name in any letter case returns the same list from the cache without
    calling the client and leaves the state unchanged. (A lookup whose client
    raises or returns no genres caches nothing, so the next one calls the
    client again; this theorem does not cover that case.) *)
Theorem artist_genres_cached {R : Type} spotify_available
    (sp_extract : list ascii -> outcome (option (option (list (list ascii)))))
    lastfm_available (lf_extract : list ascii -> outcome (option (option (list (list ascii * R)))))
    n1 n2 st :
  lower n1 = lower n2 ->
  ((exists gs, get_cached_response (chars "spotify") n1 st = Some gs \/
     (get_cached_response (chars "spotify") n1 st = None /\
      spotify_fetch sp_extract n1 = Returned (Some gs))) ->
   get_spotify_artist_genres spotify_available sp_extract n2
     (snd (fst (get_spotify_artist_genres spotify_available sp_extract n1 st))) =
   (fst (fst (get_spotify_artist_genres spotify_available sp_extract n1 st)),
    snd (fst (get_spotify_artist_genres spotify_available sp_extract n1 st)), false)) /\
  ((exists gs, get_cached_response (chars "lastfm") n1 st = Some gs \/
     (get_cached_response (chars "lastfm") n1 st = None /\
      lastfm_fetch lf_extract n1 = Returned (Some gs))) ->
   get_lastfm_artist_genres lastfm_available lf_extract n2
     (snd (fst (get_lastfm_artist_genres lastfm_available lf_extract n1 st))) =
   (fst (fst (get_lastfm_artist_genres lastfm_available lf_extract n1 st)),
    snd (fst (get_lastfm_artist_genres lastfm_available lf_extract n1 st)), false)).
Proof.
  intro L. split; intro Hg; apply cached_artist_genres_hit; assumption.
Qed.

Lemma artist_genres_cached_witness :
  lower (chars "Drake") = lower (chars "DRAKE") /\
  ((exists gs, get_cached_response (chars "spotify") (chars "Drake")
                 (@Build_state (list (list ascii)) [] None) = Some gs \/
     (get_cached_response (chars "spotify") (chars "Drake")
        (@Build_state (list (list ascii)) [] None) = None /\
      spotify_fetch (fun _ => Returned (Some (Some [chars "hip hop"]))) (chars "Drake")
        = Returned (Some gs))) ->
   get_spotify_artist_genres true (fun _ => Returned (Some (Some [chars "hip hop"]))) (chars "DRAKE")
     (snd (fst (get_spotify_artist_genres true (fun _ => Returned (Some (Some [chars "hip hop"])))
                  (chars "Drake") (@Build_state (list (list ascii)) [] None)))) =
   (fst (fst (get_spotify_artist_genres true (fun _ => Returned (Some (Some [chars "hip hop"])))
                (chars "Drake") (@Build_state (list (list ascii)) [] None))),
    snd (fst (get_spotify_artist_genres true (fun _ => Returned (Some (Some [chars "hip hop"])))
                (chars "Drake") (@Build_state (list (list ascii)) [] None))), false)).
Proof.
  split; [reflexivity|].
  exact (proj1 (artist_genres_cached (R := Q) true (fun _ => Returned (Some (Some [chars "hip hop"])))
                  false (fun _ => Raised) (chars "Drake") (chars "DRAKE")
                  (@Build_state (list (list ascii)) [] None) eq_refl)).
Defined.

End ApiCacheProofs.

(** ** Saving a classification, then classifying again *)
Module SaveProofs.
Import ListNotations PyStr Engine Classify Save InsightsProofs.

Section FoldAdd.
Variables (A B : Type) (has : list A -> B -> bool) (new : B -> A).
Hypothesis has_app : forall rows t s, has rows s = true -> has (rows ++ t) s = true.
Hypothesis has_new : forall rows s, has (rows ++ [new s]) s = true.

(** The [rows] loop of [save_artist_classification], for any test [has]
    and new row [new]: it only appends, it leaves every song with a row, and
    it does nothing when every song has one. *)
Lemma fold_add_grows : forall ss rows, exists t,
  fold_left (fun rows s => if has rows s then rows else rows ++ [new s]) ss rows = rows ++ t.
Proof.
  induction ss as [|s ss IH]; intro rows; simpl; [exists []; symmetry; apply app_nil_r|].
  destruct (has rows s).
  - apply IH.
  - destruct (IH (rows ++ [new s])) as [t E]. rewrite E, <- app_assoc. eexists; reflexivity.
Qed.

Lemma fold_add_has : forall ss rows s, In s ss ->
  has (fold_left (fun rows s => if has rows s then rows else rows ++ [new s]) ss rows) s = true.
Proof.
  induction ss as [|s0 ss IH]; intros rows s I; simpl; [destruct I|].
  destruct I as [<-|I]; [|apply IH; exact I].
  destruct (has rows s0) eqn:E;
    [set (r1 := rows)|set (r1 := rows ++ [new s0])];
    destruct (fold_add_grows ss r1) as [t ->]; apply has_app; [exact E|apply has_new].
Qed.

Lemma fold_add_noop : forall ss rows, (forall s, In s ss -> has rows s = true) ->
  fold_left (fun rows s => if has rows s then rows else rows ++ [new s]) ss rows = rows.
Proof.
  induction ss as [|s ss IH]; intros rows H; simpl; [reflexivity|].
  rewrite (H s (or_introl eq_refl)). apply IH. intros s' I. apply H. right. exact I.
Qed.
End FoldAdd.

Section WithNum.
Context {R : Type} `{PyNum R}.
Variable first_chart_appearance : song -> option (list ascii).
Variable hundredths : R -> Z.

Lemma save_songs_artist d a year :
  (forall s, In s (artist_songs d a) -> year_match first_chart_appearance year s = true) ->
  save_songs first_chart_appearance d a year = artist_songs d a.
Proof.
  unfold save_songs, artist_songs. intro Y. induction (songs d) as [|s l IH]; [reflexivity|].
  simpl in *. destruct (ilike_contains a (song_artist_name s)) eqn:I; simpl.
  - rewrite (Y s (or_introl eq_refl)). f_equal. apply IH. intros s' I'. apply Y. right. exact I'.
  - apply IH. exact Y.
Qed.

Lemma nodup_map_filter {A B : Type} (f : A -> B) (P : A -> bool) l :
  NoDup (map f l) -> NoDup (map f (filter P l)).
Proof.
  induction l as [|x l IH]; simpl; [constructor|]. intro N. inversion N as [|? ? Nx Nl]; subst.
  destruct (P x); simpl; [|exact (IH Nl)].
  constructor; [|exact (IH Nl)]. intro I. apply Nx.
  apply in_map_iff in I as (y & E & Iy). apply filter_In in Iy as [Iy _].
  rewrite <- E. apply in_map. exact Iy.
Qed.

Lemma fold_rows gid c : forall ss rows,
  (forall r, In r rows -> ~ In (sg_song_id r) (map song_id ss)) ->
  NoDup (map song_id ss) ->
  fold_left (fun rows s =>
    if existsb (fun r => Z.eqb (sg_song_id r) (song_id s) && Z.eqb (sg_genre_id r) gid) rows
    then rows
    else rows ++ [{| sg_song_id := song_id s; sg_genre_id := gid; sg_confidence := c |}])
    ss rows = rows ++ map (row_of gid c) ss.
Proof.
  induction ss as [|s ss IH]; intros rows Hr N; simpl; [rewrite app_nil_r; reflexivity|].
  inversion N as [|? ? Ns Nss]; subst.
  assert (F : existsb (fun r => Z.eqb (sg_song_id r) (song_id s) && Z.eqb (sg_genre_id r) gid) rows
              = false).
  { apply not_true_is_false. intro E. apply existsb_exists in E as (r & Ir & E).
    apply andb_true_iff in E as [E _]. apply Z.eqb_eq in E.
    apply (Hr r Ir). rewrite E. left. reflexivity. }
  rewrite F, IH; [rewrite <- app_assoc; reflexivity| |exact Nss].
  intros r Ir. apply in_app_or in Ir as [Ir|[<-|[]]].
  - intro I. apply (Hr r Ir). right. exact I.
  - simpl. exact Ns.
Qed.

Lemma find_by_id (l : list genre) x :
  NoDup (map genre_id l) -> In x l -> find (fun y => Z.eqb (genre_id y) (genre_id x)) l = Some x.
Proof.
  induction l as [|y l IH]; simpl; [tauto|]. intros N [<-|I].
  - rewrite Z.eqb_refl. reflexivity.
  - inversion N as [|? ? Ny Nl]; subst. destruct (Z.eqb (genre_id y) (genre_id x)) eqn:E.
    + apply Z.eqb_eq in E. exfalso. apply Ny. rewrite E. apply in_map. exact I.
    + apply IH; assumption.
Qed.

Lemma fold_max_ge (l : list Z) : forall acc,
  (acc <= fold_left Z.max l acc)%Z /\ forall z, In z l -> (z <= fold_left Z.max l acc)%Z.
Proof.
  induction l as [|z l IH]; intro acc; simpl; [split; [lia|tauto]|].
  destruct (IH (Z.max acc z)) as [A B]. split; [lia|].
  intros z' [<-|I]; [lia|apply B; exact I].
Qed.

Lemma find_fresh (l : list genre) i g :
  (forall x, In x l -> (genre_id x < i)%Z) ->
  find (fun y => Z.eqb (genre_id y) i) (l ++ [{| genre_id := i; genre_name := g |}]) =
    Some {| genre_id := i; genre_name := g |}.
Proof.
  induction l as [|y l IH]; intro Lt; simpl; [rewrite Z.eqb_refl; reflexivity|].
  rewrite (proj2 (Z.eqb_neq _ _)); [|specialize (Lt y (or_introl eq_refl)); lia].
  apply IH. intros x I. apply Lt. right. exact I.
Qed.

Lemma find_genre_name (l : list genre) g x :
  find (fun x => list_ascii_eqb (genre_name x) g) l = Some x -> In x l /\ genre_name x = g.
Proof.
  intro F. apply find_some in F as [I E]. apply list_ascii_eqb_spec in E. auto.
Qed.

(** [Z_mem] is list membership. *)
Lemma Z_mem_in z l : Z_mem z l = true <-> In z l.
Proof.
  unfold Z_mem. rewrite existsb_exists. split.
  - intros (y & I & E). apply Z.eqb_eq in E. subst. exact I.
  - intro I. exists z. split; [exact I|apply Z.eqb_refl].
Qed.

(** Reading back the saved songs finds exactly the rows the save added,
    when none of those songs had a row before. *)
Lemma filter_saved_rows (old : list song_genre) ss gid c :
  (forall r, In r old -> ~ In (sg_song_id r) (map song_id ss)) -> (80 < c)%Z ->
  filter (fun r => Z_mem (sg_song_id r) (map song_id ss) && high r) (old ++ map (row_of gid c) ss)
  = map (row_of gid c) ss.
Proof.
  intros Hr Hc. rewrite filter_app.
  rewrite (filter_ext_in _ (fun _ => false) old), filter_false; simpl.
  - rewrite (filter_ext_in _ (fun _ => true)), filter_true; [reflexivity|].
    intros r I. apply in_map_iff in I as (s & <- & I). simpl.
    rewrite (proj2 (Z_mem_in _ _)); [|apply in_map; exact I].
    unfold high. simpl. apply Z.ltb_lt. exact Hc.
  - intros r I. destruct (Z_mem (sg_song_id r) (map song_id ss)) eqn:E; [|reflexivity].
    apply Z_mem_in in E. exfalso. exact (Hr r I E).
Qed.

(** [get_existing_classification] reads back what
    [save_artist_classification] stored. *)
Lemma existing_after_save : forall d a (p : @profile R) year g,
  primary_genre p = Some g -> g <> [] -> artist_songs d a <> [] ->
  (forall s, In s (artist_songs d a) -> year_match first_chart_appearance year s = true) ->
  (forall r, In r (song_genres d) -> ~ In (sg_song_id r) (map song_id (artist_songs d a))) ->
  NoDup (map song_id (songs d)) -> NoDup (map genre_id (genres d)) ->
  (80 < hundredths (confidence_score p))%Z ->
  get_existing_classification (save_artist_classification first_chart_appearance hundredths d a p year) a
    = Some (g, hundredths (confidence_score p)).
Proof.
  intros d a p year g Hp Hg Hs Y Hr Ns Ng Hc.
  unfold save_artist_classification. rewrite (save_songs_artist _ _ _ Y).
  rewrite Hp. destruct g as [|g0 g']; [contradiction|].
  set (c := hundredths (confidence_score p)).
  destruct (artist_songs d a) as [|s0 ss'] eqn:AS; [contradiction|].
  assert (NS : NoDup (map song_id (s0 :: ss'))).
  { rewrite <- AS. apply nodup_map_filter. exact Ns. }
  cbv beta iota zeta.
  destruct (find (fun x => list_ascii_eqb (genre_name x) (g0 :: g')) (genres d)) as [x|] eqn:F;
    cbv beta iota zeta; rewrite fold_rows by assumption;
    unfold get_existing_classification; cbn [songs song_genres genres];
    (replace (artist_songs {| songs := songs d; song_genres := _; genres := _ |} a)
       with (s0 :: ss') by (rewrite <- AS; reflexivity)); cbv beta iota zeta.
  all: rewrite filter_saved_rows by assumption; rewrite length_map, Nat.eqb_refl; simpl.
  - apply find_genre_name in F as [I N]. unfold genre_of. cbn [genres].
    rewrite (find_by_id _ _ Ng I). simpl. rewrite (find_by_id _ _ Ng I), N. reflexivity.
  - unfold genre_of. cbn [genres].
    assert (Lt : forall x, In x (genres d) -> (genre_id x < next_genre_id d)%Z).
    { intros x I. unfold next_genre_id.
      destruct (fold_max_ge (map genre_id (genres d)) 0) as [_ B].
      specialize (B (genre_id x) (in_map _ _ _ I)). lia. }
    cbn [row_of sg_genre_id].
    rewrite (find_fresh _ _ _ Lt). simpl. rewrite (find_fresh _ _ _ Lt). reflexivity.
Qed.

(** Saving a profile for an artist, then classifying the artist again,
    returns the saved primary genre and confidence from the database, keeps
    the cache and calls no source: the save/read round trip of
    [save_artist_classification] and [classify_artist]. It needs a non-empty
    primary genre, at least one song of the artist, every song of the artist
    (matched by name with no year filter, as [classify_artist] reads them)
    kept by the save's year filter, no earlier rows for those songs, unique
    song and genre ids, and a stored confidence above 0.80. *)
Theorem classify_after_save set_list (srcs : @sources R) d a (p : @profile R) year g (c : @cache R) :
  primary_genre p = Some g -> g <> [] -> artist_songs d a <> [] ->
  (forall s, In s (artist_songs d a) -> year_match first_chart_appearance year s = true) ->
  (forall r, In r (song_genres d) -> ~ In (sg_song_id r) (map song_id (artist_songs d a))) ->
  NoDup (map song_id (songs d)) -> NoDup (map genre_id (genres d)) ->
  (80 < hundredths (confidence_score p))%Z ->
  classify_artist set_list srcs (save_artist_classification first_chart_appearance hundredths d a p year) c a =
  ({| artist_name := a; classifications := [];
      confidence_score := num (hundredths (confidence_score p)) 100; primary_genre := Some g;
      secondary_tags := []; crossover_indicators := [] |}, c, []).
Proof.
  intros Hp Hg Hs Y Hr Ns Ng Hc. unfold classify_artist.
  rewrite (existing_after_save d a p year g Hp Hg Hs Y Hr Ns Ng Hc).
  rewrite (proj2 (Z.ltb_lt _ _) Hc). reflexivity.
Qed.
(** [find] by name on a list with one more genre at the end. *)
Lemma find_name_app (l : list genre) x g :
  find (fun y => list_ascii_eqb (genre_name y) g) l = None -> genre_name x = g ->
  find (fun y => list_ascii_eqb (genre_name y) g) (l ++ [x]) = Some x.
Proof.
  intros F N. induction l as [|y l IH]; simpl in *.
  - rewrite (proj2 (list_ascii_eqb_spec _ _) N). reflexivity.
  - destruct (list_ascii_eqb (genre_name y) g); [discriminate|]. apply IH. exact F.
Qed.

(** The save leaves the songs table as it is. *)
Lemma save_songs_of_save d a (p : @profile R) year a2 year2 :
  save_songs first_chart_appearance (save_artist_classification first_chart_appearance hundredths d a p year) a2 year2
  = save_songs first_chart_appearance d a2 year2.
Proof.
  unfold save_artist_classification.
  destruct (save_songs first_chart_appearance d a year); [reflexivity|].
  destruct (primary_genre p) as [[|g0 g']|]; try reflexivity.
  destruct (find _ (genres d)); reflexivity.
Qed.

(** [save_artist_classification] is idempotent: saving the same profile for
    the same artist and year a second time changes nothing. The genre is
    found by name instead of created again, and every song already has its
    [SongGenres] row, so no row is added. *)
Theorem save_artist_classification_idempotent d a (p : @profile R) year :
  save_artist_classification first_chart_appearance hundredths
    (save_artist_classification first_chart_appearance hundredths d a p year) a p year
  = save_artist_classification first_chart_appearance hundredths d a p year.
Proof.
  set (d' := save_artist_classification first_chart_appearance hundredths d a p year).
  assert (E : save_songs first_chart_appearance d' a year = save_songs first_chart_appearance d a year)
    by apply save_songs_of_save.
  unfold save_artist_classification at 1. rewrite E.
  destruct (save_songs first_chart_appearance d a year) as [|s0 ss] eqn:SS; [reflexivity|].
  destruct (primary_genre p) as [[|g0 g']|] eqn:Hp; try reflexivity.
  set (g := g0 :: g').
  pose (has := fun gid (rows : list song_genre) (s : song) =>
        existsb (fun r => Z.eqb (sg_song_id r) (song_id s) && Z.eqb (sg_genre_id r) gid) rows).
  pose (new := fun gid (s : song) =>
        {| sg_song_id := song_id s; sg_genre_id := gid; sg_confidence := hundredths (confidence_score p) |}).
  assert (HA : forall gid rows t s, has gid rows s = true -> has gid (rows ++ t) s = true).
  { intros gid rows t s. unfold has. rewrite existsb_app. intros ->. reflexivity. }
  assert (HN : forall gid rows s, has gid (rows ++ [new gid s]) s = true).
  { intros gid rows s. unfold has, new. rewrite existsb_app. simpl.
    rewrite !Z.eqb_refl. apply orb_true_r. }
  assert (NOOP : forall gid, fold_left (fun rows s => if has gid rows s then rows else rows ++ [new gid s])
                    (s0 :: ss) (fold_left (fun rows s => if has gid rows s then rows else rows ++ [new gid s])
                    (s0 :: ss) (song_genres d))
                 = fold_left (fun rows s => if has gid rows s then rows else rows ++ [new gid s])
                    (s0 :: ss) (song_genres d)).
  { intro gid. apply fold_add_noop. intros s I. apply fold_add_has; auto. }
  unfold has, new in NOOP.
  subst d'. unfold save_artist_classification. rewrite SS, Hp. fold g.
  destruct (find (fun x => list_ascii_eqb (genre_name x) g) (genres d)) as [x|] eqn:F;
    cbv beta iota zeta; cbn [genres songs song_genres].
  - rewrite F. cbv beta iota zeta. rewrite NOOP. reflexivity.
  - erewrite find_name_app; [|exact F|reflexivity]. cbv beta iota zeta. rewrite NOOP. reflexivity.
Qed.

End WithNum.

(** The round trip on a one-song database with no genres yet. *)
Lemma classify_after_save_witness :
  classify_artist (fun l => l) EngineDefs.srcs_lastfm
    (save_artist_classification (fun _ => None) SaveDefs.hundredths_q SaveDefs.db_one
       (chars "Drake") SaveDefs.p_hiphop None) [] (chars "Drake")
  = ({| artist_name := chars "Drake"; classifications := [];
        confidence_score := num 90 100; primary_genre := Some (chars "hip-hop");
        secondary_tags := []; crossover_indicators := [] |}, [], []).
Proof.
  apply (classify_after_save (fun _ => None) SaveDefs.hundredths_q (fun l => l)
           EngineDefs.srcs_lastfm SaveDefs.db_one (chars "Drake") SaveDefs.p_hiphop None
           (chars "hip-hop") []).
  - reflexivity.
  - discriminate.
  - vm_compute. discriminate.
  - intros s _. reflexivity.
  - intros r [].
  - vm_compute. repeat constructor; simpl; tauto.
  - vm_compute. constructor.
  - vm_compute. reflexivity.
Defined.
End SaveProofs.

Module SubgenreSaveProofs.
Import PyStr Engine SubgenreSave SubgenreSaveDefs InsightsProofs.
Local Open Scope Q_scope.



(** [nltb] on [Q] is [<]. *)
Lemma nltb_q (a b : Q) : nltb a b = true <-> a < b.
Proof.
  simpl. rewrite negb_true_iff. split.
  - intro E. apply Qnot_le_lt. intro L. apply Qle_bool_iff in L. congruence.
  - intro L. apply not_true_is_false. intro E. apply Qle_bool_iff in E. apply (Qlt_not_le _ _ L E).
Qed.

Lemma nltb_q_false (a b : Q) : nltb a b = false <-> b <= a.
Proof.
  split.
  - intro E. apply Qnot_lt_le. intro L. apply nltb_q in L. congruence.
  - intro L. apply not_true_is_false. intro E. apply nltb_q in E. apply (Qlt_not_le _ _ E L).
Qed.

(** One step of [seen_update]. *)
Lemma seen_update_cons (d e : (@detail Q)) s :
  seen_update d (e :: s) =
    if list_ascii_eqb (d_name e) (d_name d) then
      (if nltb (d_confidence e) (d_confidence d) then d else e) :: s
    else e :: seen_update d s.
Proof. reflexivity. Qed.

(** [seen_update] keeps entries or adds the new detail, and keeps the
    names unique; the entry of the detail's name is at least as confident
    as the detail, and no entry loses confidence. *)
Lemma seen_update_in (d e : (@detail Q)) s : In e (seen_update d s) -> e = d \/ In e s.
Proof.
  induction s as [|x s IH]; [simpl; intros [<-|[]]; auto|]. rewrite seen_update_cons.
  destruct (list_ascii_eqb (d_name x) (d_name d)).
  - destruct (nltb (d_confidence x) (d_confidence d)); simpl; intros [<-|I]; auto.
  - simpl. intros [<-|I]; auto. destruct (IH I); auto.
Qed.

Lemma seen_update_names (d : (@detail Q)) s x :
  In x (map d_name (seen_update d s)) -> x = d_name d \/ In x (map d_name s).
Proof.
  intro I. apply in_map_iff in I as (e & <- & I). apply seen_update_in in I as [->|I]; auto.
  right. apply in_map. exact I.
Qed.

Lemma seen_update_nodup (d : (@detail Q)) s : NoDup (map d_name s) -> NoDup (map d_name (seen_update d s)).
Proof.
  induction s as [|x s IH]; intro N; [simpl; repeat constructor; simpl; tauto|].
  rewrite seen_update_cons. simpl in N.
  inversion N as [|? ? Nx Ns]; subst.
  destruct (list_ascii_eqb (d_name x) (d_name d)) eqn:E.
  - apply list_ascii_eqb_spec in E.
    destruct (nltb (d_confidence x) (d_confidence d)); simpl; [rewrite <- E|]; constructor; auto.
  - simpl. constructor; [|apply IH; exact Ns].
    intro I. apply seen_update_names in I as [I|I]; [|contradiction].
    rewrite I in E. rewrite (proj2 (list_ascii_eqb_spec _ _) eq_refl) in E. discriminate.
Qed.

Lemma seen_update_new (d : (@detail Q)) s :
  exists e, In e (seen_update d s) /\ d_name e = d_name d /\ d_confidence d <= d_confidence e.
Proof.
  induction s as [|x s IH].
  - exists d. split; [left; reflexivity|split; [reflexivity|apply Qle_refl]].
  - rewrite seen_update_cons. destruct (list_ascii_eqb (d_name x) (d_name d)) eqn:E.
    + apply list_ascii_eqb_spec in E.
      destruct (nltb (d_confidence x) (d_confidence d)) eqn:L.
      * exists d. split; [left; reflexivity|split; [reflexivity|apply Qle_refl]].
      * exists x. split; [left; reflexivity|]. split; [exact E|]. apply nltb_q_false. exact L.
    + destruct IH as (e & I & N & C). exists e. split; [right; exact I|auto].
Qed.

Lemma seen_update_mono (d : (@detail Q)) s e : In e s ->
  exists e', In e' (seen_update d s) /\ d_name e' = d_name e /\ d_confidence e <= d_confidence e'.
Proof.
  induction s as [|x s IH]; [intros []|]. rewrite seen_update_cons. intros [->|I].
  - destruct (list_ascii_eqb (d_name e) (d_name d)) eqn:E.
    + apply list_ascii_eqb_spec in E.
      destruct (nltb (d_confidence e) (d_confidence d)) eqn:L.
      * exists d. split; [left; reflexivity|]. split; [auto|]. apply Qlt_le_weak, nltb_q. exact L.
      * exists e. split; [left; reflexivity|split; [reflexivity|apply Qle_refl]].
    + exists e. split; [left; reflexivity|split; [reflexivity|apply Qle_refl]].
  - destruct (list_ascii_eqb (d_name x) (d_name d)).
    + destruct (nltb (d_confidence x) (d_confidence d));
        exists e; (split; [right; exact I|split; [reflexivity|apply Qle_refl]]).
    + destruct (IH I) as (e' & I' & N & C). exists e'. split; [right; exact I'|auto].
Qed.

(** The dict [seen_names] after the loop. *)
Lemma dedup_details_inv (ds : list (@detail Q)) : dedup_inv ds (dedup_details ds).
Proof.
  unfold dedup_details. induction ds as [|d ds IH] using rev_ind.
  - simpl. split; [constructor|split; intros ? []].
  - rewrite fold_left_app. simpl. destruct IH as (N & Sub & Dom). split; [|split].
    + apply seen_update_nodup. exact N.
    + intros e I. apply seen_update_in in I as [->|I]; apply in_or_app; [right; left; reflexivity|].
      left. apply Sub. exact I.
    + intros d' I. apply in_app_or in I as [I|[<-|[]]]; [|apply seen_update_new].
      destruct (Dom d' I) as (e & Ie & Ne & Ce).
      destruct (seen_update_mono d _ _ Ie) as (e' & I' & N' & C'). exists e'.
      split; [exact I'|]. split; [congruence|]. eapply Qle_trans; eauto.
Qed.

(** The insertion sort is a permutation and sorts by decreasing confidence. *)
Lemma insert_desc_cons (x y : (@detail Q)) l :
  insert_desc x (y :: l) =
    if nltb (d_confidence y) (d_confidence x) then x :: y :: l else y :: insert_desc x l.
Proof. reflexivity. Qed.

Lemma insert_desc_perm (x : (@detail Q)) l : Permutation (insert_desc x l) (x :: l).
Proof.
  induction l as [|y l IH]; [reflexivity|]. rewrite insert_desc_cons.
  destruct (nltb (d_confidence y) (d_confidence x)); [reflexivity|].
  rewrite IH. apply perm_swap.
Qed.

Lemma insert_desc_hd (x y : (@detail Q)) l :
  HdRel (fun a b => d_confidence b <= d_confidence a) y l -> d_confidence x <= d_confidence y ->
  HdRel (fun a b => d_confidence b <= d_confidence a) y (insert_desc x l).
Proof.
  intros Hd Hx. destruct l as [|z l]; [constructor; exact Hx|]. rewrite insert_desc_cons.
  destruct (nltb (d_confidence z) (d_confidence x)); constructor; [exact Hx|].
  inversion Hd; assumption.
Qed.

Lemma insert_desc_sorted (x : (@detail Q)) l :
  Sorted (fun a b => d_confidence b <= d_confidence a) l ->
  Sorted (fun a b => d_confidence b <= d_confidence a) (insert_desc x l).
Proof.
  induction l as [|y l IH]; intro S; [repeat constructor|]. rewrite insert_desc_cons.
  inversion S as [|? ? Sl Hd]; subst.
  destruct (nltb (d_confidence y) (d_confidence x)) eqn:L.
  - constructor; [exact S|]. constructor. apply Qlt_le_weak, nltb_q. exact L.
  - constructor; [apply IH; exact Sl|]. apply insert_desc_hd; [exact Hd|]. apply nltb_q_false. exact L.
Qed.

Lemma sort_desc_snoc (l : list (@detail Q)) x : sort_desc (l ++ [x]) = insert_desc x (sort_desc l).
Proof. unfold sort_desc. rewrite fold_left_app. reflexivity. Qed.

Lemma sort_desc_perm (l : list (@detail Q)) : Permutation (sort_desc l) l.
Proof.
  induction l as [|x l IH] using rev_ind; [reflexivity|]. rewrite sort_desc_snoc, insert_desc_perm, IH.
  apply Permutation_cons_append.
Qed.

Lemma sort_desc_sorted (l : list (@detail Q)) :
  StronglySorted (fun a b => d_confidence b <= d_confidence a) (sort_desc l).
Proof.
  apply Sorted_StronglySorted; [intros a b c H1 H2; eapply Qle_trans; eauto|].
  induction l as [|x l IH] using rev_ind; [constructor|]. rewrite sort_desc_snoc.
  apply insert_desc_sorted. exact IH.
Qed.

(** A sorted list cut in two: each part sorted, the first above the second. *)
Lemma strongly_sorted_app {A} (Rl : A -> A -> Prop) l1 l2 :
  StronglySorted Rl (l1 ++ l2) ->
  StronglySorted Rl l1 /\ forall a b, In a l1 -> In b l2 -> Rl a b.
Proof.
  induction l1 as [|x l1 IH]; simpl; intro S; [split; [constructor|intros ? ? []]|].
  apply StronglySorted_inv in S as [S F]. destruct (IH S) as [S1 F1]. split.
  - constructor; [exact S1|]. apply Forall_forall. intros y I. rewrite Forall_forall in F.
    apply F. apply in_or_app. left. exact I.
  - intros a b [<-|I] Ib; [|apply F1; assumption]. rewrite Forall_forall in F.
    apply F. apply in_or_app. right. exact Ib.
Qed.

(** The two skips of the loop over the classifications. *)
Lemma existsb_name_in (n : list ascii) l : existsb (list_ascii_eqb n) l = true <-> In n l.
Proof.
  rewrite existsb_exists. split.
  - intros (x & I & E). apply list_ascii_eqb_spec in E. subst. exact I.
  - intro I. exists n. split; [exact I|apply list_ascii_eqb_spec; reflexivity].
Qed.

Lemma primary_skip (p : option (list ascii)) n :
  match p with Some g => list_ascii_eqb n g | None => false end = true <-> p = Some n.
Proof.
  destruct p as [g|]; [|split; discriminate]. rewrite list_ascii_eqb_spec.
  split; [intros ->; reflexivity|intro E; injection E; auto].
Qed.

(** [detailed_genres] holds the lowered names of the classifications
    that are neither the primary genre nor a genre-level term or a name of
    the [Genres] table, with their confidence and source. *)
Lemma detailed_genres_in p gn (cs : list (@classification Q)) e :
  In e (detailed_genres p gn cs) <->
  exists c, In c cs /\ p <> Some (lower (c_name c)) /\
    ~ In (lower (c_name c)) (map lower gn ++ genre_level_terms) /\
    e = {| d_name := lower (c_name c); d_confidence := c_confidence c; d_source := c_source c |}.
Proof.
  unfold detailed_genres. rewrite in_flat_map. split.
  - intros (c & I & Ie). exists c. split; [exact I|].
    destruct (match p with Some g => list_ascii_eqb (lower (c_name c)) g | None => false end) eqn:P;
      [destruct Ie|].
    destruct (existsb (list_ascii_eqb (lower (c_name c))) (map lower gn ++ genre_level_terms)) eqn:X;
      [destruct Ie|].
    destruct Ie as [<-|[]]. split; [|split; [|reflexivity]].
    + intro E. apply primary_skip in E. congruence.
    + intro I'. apply existsb_name_in in I'. congruence.
  - intros (c & I & P & X & ->). exists c. split; [exact I|].
    destruct (match p with Some g => list_ascii_eqb (lower (c_name c)) g | None => false end) eqn:P';
      [apply primary_skip in P'; contradiction|].
    destruct (existsb (list_ascii_eqb (lower (c_name c))) (map lower gn ++ genre_level_terms)) eqn:X';
      [apply existsb_name_in in X'; contradiction|].
    left. reflexivity.
Qed.

Lemma in_firstn {A} n (l : list A) x : In x (firstn n l) -> In x l.
Proof. intro I. rewrite <- (firstn_skipn n l). apply in_or_app. left. exact I. Qed.

Lemma nodup_name_unique (l : list (@detail Q)) a b :
  NoDup (map d_name l) -> In a l -> In b l -> d_name a = d_name b -> a = b.
Proof.
  induction l as [|x l IH]; simpl; [tauto|]. intro N. inversion N as [|? ? Nx Nl]; subst.
  intros [<-|Ia] [<-|Ib] E; auto; exfalso; apply Nx.
  - rewrite E. apply in_map. exact Ib.
  - rewrite <- E. apply in_map. exact Ia.
Qed.

(** [save_artist_subgenres] saves at most 3 subgenres, with distinct
    names, by decreasing confidence. None is the primary genre, a genre
    name of the [Genres] table (ignoring case) or one of the genre-level
    terms. Each comes from a classification of the profile (its lowered
    name, its confidence and its source), and has the highest confidence
    among the classifications of that name. *)
Theorem top_subgenres_sound (primary : option (list ascii)) (genre_names : list (list ascii))
    (cs : list (@classification Q)) :
  let top := top_subgenres primary genre_names cs in
  (length top <= 3)%nat /\ NoDup (map d_name top) /\
  StronglySorted (fun a b => d_confidence b <= d_confidence a) top /\
  forall e, In e top ->
    primary <> Some (d_name e) /\ ~ In (d_name e) (map lower genre_names ++ genre_level_terms) /\
    (exists c, In c cs /\ lower (c_name c) = d_name e /\ c_confidence c = d_confidence e /\
               c_source c = d_source e) /\
    (forall c, In c cs -> lower (c_name c) = d_name e -> c_confidence c <= d_confidence e).
Proof.
  unfold top_subgenres. cbv zeta.
  set (ds := detailed_genres primary genre_names cs).
  destruct (dedup_details_inv ds) as (N & Sub & Dom).
  set (seen := dedup_details ds) in *.
  pose proof (sort_desc_perm seen) as P. pose proof (sort_desc_sorted seen) as S.
  set (sorted := sort_desc seen) in *.
  rewrite <- (firstn_skipn 3 sorted) in S. apply strongly_sorted_app in S as [S1 _].
  assert (NS : NoDup (map d_name sorted)).
  { eapply Permutation_NoDup; [|exact N]. apply Permutation_map. symmetry. exact P. }
  split; [apply firstn_le_length|]. split.
  { rewrite <- (firstn_skipn 3 sorted), map_app in NS. eapply NoDup_app_remove_r. exact NS. }
  split; [exact S1|].
  intros e Ie. apply in_firstn in Ie. apply (Permutation_in _ P), Sub in Ie as Id.
  pose proof Id as Id'. apply detailed_genres_in in Id' as (c & Ic & Pc & Xc & ->). cbn [d_name d_confidence d_source].
  split; [exact Pc|]. split; [exact Xc|]. split; [exists c; auto|].
  intros c' Ic' Nc'.
  assert (Id2 : In {| d_name := lower (c_name c'); d_confidence := c_confidence c'; d_source := c_source c' |} ds).
  { apply detailed_genres_in. exists c'. rewrite Nc'. auto. }
  destruct (Dom _ Id2) as (e2 & Ie2 & Ne2 & Ce2). cbn [d_name d_confidence] in Ne2, Ce2.
  rewrite (nodup_name_unique seen e2 _ N Ie2 Ie) in Ce2; [exact Ce2|]. rewrite Ne2, Nc'. reflexivity.
Qed.

(** Every eligible classification (not the primary genre, not a
    genre-level term, not a name of the [Genres] table) either has its name
    among the saved subgenres, or 3 subgenres are saved, each with a
    confidence at least its own. *)
Theorem top_subgenres_best (primary : option (list ascii)) (genre_names : list (list ascii))
    (cs : list (@classification Q)) c :
  In c cs -> primary <> Some (lower (c_name c)) ->
  ~ In (lower (c_name c)) (map lower genre_names ++ genre_level_terms) ->
  In (lower (c_name c)) (map d_name (top_subgenres primary genre_names cs)) \/
  (length (top_subgenres primary genre_names cs) = 3%nat /\
   forall e, In e (top_subgenres primary genre_names cs) -> c_confidence c <= d_confidence e).
Proof.
  intros Ic Pc Xc. unfold top_subgenres.
  set (ds := detailed_genres primary genre_names cs).
  destruct (dedup_details_inv ds) as (N & Sub & Dom).
  set (seen := dedup_details ds) in *.
  pose proof (sort_desc_perm seen) as P. pose proof (sort_desc_sorted seen) as S.
  set (sorted := sort_desc seen) in *.
  assert (Id : In {| d_name := lower (c_name c); d_confidence := c_confidence c; d_source := c_source c |} ds).
  { apply detailed_genres_in. exists c. auto. }
  destruct (Dom _ Id) as (e0 & Ie0 & Ne0 & Ce0). cbn [d_name d_confidence] in Ne0, Ce0.
  apply (Permutation_in _ (Permutation_sym P)) in Ie0.
  rewrite <- (firstn_skipn 3 sorted) in Ie0, S. apply strongly_sorted_app in S as [_ F].
  apply in_app_or in Ie0 as [It|Ir].
  - left. rewrite <- Ne0. apply in_map. exact It.
  - right. split.
    + apply firstn_length_le. destruct (Nat.le_gt_cases 3 (length sorted)) as [L|L]; [exact L|].
      rewrite skipn_all2 in Ir; [destruct Ir|]. apply Nat.lt_le_incl. exact L.
    + intros e Ie. eapply Qle_trans; [exact Ce0|]. exact (F e e0 Ie Ir).
Qed.
(** On a rock profile, "nu metal" is eligible and saved. *)
Lemma top_subgenres_best_witness :
  In (lower (c_name (cl_lastfm "Nu Metal" (7 # 10)))) (map d_name (top_subgenres (Some (chars "rock")) []
     [cl_lastfm "Rock" (9 # 10); cl_lastfm "Nu Metal" (7 # 10); cl_lastfm "Rap Metal" (6 # 10)])) \/
  (length (top_subgenres (Some (chars "rock")) []
     [cl_lastfm "Rock" (9 # 10); cl_lastfm "Nu Metal" (7 # 10); cl_lastfm "Rap Metal" (6 # 10)]) = 3%nat /\
   forall e, In e (top_subgenres (Some (chars "rock")) []
     [cl_lastfm "Rock" (9 # 10); cl_lastfm "Nu Metal" (7 # 10); cl_lastfm "Rap Metal" (6 # 10)]) ->
     c_confidence (cl_lastfm "Nu Metal" (7 # 10)) <= d_confidence e).
Proof.
  apply top_subgenres_best.
  - simpl. auto.
  - vm_compute. discriminate.
  - vm_compute. intro I. repeat (destruct I as [I|I]; [discriminate|]). exact I.
Defined.
End SubgenreSaveProofs.

(** ** [analyze_producer_contribution] *)
Module ProducerContribProofs.
Import ListNotations Producer.
Local Open Scope string_scope.
Local Open Scope Q_scope.
Local Open Scope list_scope.

(** [Counter]: its keys are the elements of the list, once each. *)
Lemma count_add_keys x (d : list (string * nat)) k :
  In k (map fst (count_add x d)) <-> x = k \/ In k (map fst d).
Proof.
  induction d as [|[y n] d IH]; simpl; [tauto|].
  destruct (String.eqb x y) eqn:E; simpl.
  - apply String.eqb_eq in E. subst. tauto.
  - rewrite IH. tauto.
Qed.

Lemma count_add_nodup x (d : list (string * nat)) : NoDup (map fst d) -> NoDup (map fst (count_add x d)).
Proof.
  induction d as [|[y n] d IH]; simpl; intro N; [repeat constructor; simpl; tauto|].
  inversion N as [|? ? Ny Nd]; subst.
  destruct (String.eqb x y) eqn:E; simpl; constructor; auto.
  rewrite count_add_keys. intros [<-|I]; [|contradiction]. rewrite String.eqb_refl in E. discriminate.
Qed.

Lemma counter_keys (l : list string) :
  NoDup (map fst (counter l)) /\ forall k, In k (map fst (counter l)) -> In k l.
Proof.
  unfold counter. induction l as [|x l IH] using rev_ind; simpl; [split; [constructor|tauto]|].
  rewrite fold_left_app. simpl. destruct IH as [N S]. split; [apply count_add_nodup; exact N|].
  intros k I. apply count_add_keys in I as [->|I]; apply in_or_app; [right; left; reflexivity|].
  left. apply S. exact I.
Qed.

(** [most_common(n)]: at most [n] distinct keys of the counter. *)
Lemma insert_count_perm (x : string * nat) l : Permutation (insert_count x l) (x :: l).
Proof.
  induction l as [|y l IH]; simpl; [reflexivity|].
  destruct (Nat.ltb (snd y) (snd x)); [reflexivity|]. rewrite IH. apply perm_swap.
Qed.

Lemma sort_count_perm (c : list (string * nat)) :
  Permutation (fold_left (fun acc x => insert_count x acc) c []) c.
Proof.
  induction c as [|x c IH] using rev_ind; [reflexivity|]. rewrite fold_left_app. simpl.
  rewrite insert_count_perm, IH. apply Permutation_cons_append.
Qed.

Lemma most_common_keys n (c : list (string * nat)) :
  NoDup (map fst c) ->
  (length (most_common n c) <= n)%nat /\ NoDup (map fst (most_common n c)) /\
  forall k, In k (map fst (most_common n c)) -> In k (map fst c).
Proof.
  intro N. unfold most_common. pose proof (sort_count_perm c) as P.
  set (s := fold_left (fun acc x => insert_count x acc) c []) in *.
  assert (Ns : NoDup (map fst s)).
  { eapply Permutation_NoDup; [|exact N]. apply Permutation_map. symmetry. exact P. }
  rewrite <- (firstn_skipn n s), map_app in Ns.
  split; [apply firstn_le_length|]. split; [eapply NoDup_app_remove_r; exact Ns|].
  intros k I. apply (Permutation_in _ (Permutation_map fst P)).
  rewrite <- (firstn_skipn n s), map_app. apply in_or_app. left. exact I.
Qed.


(** Every signature of [PRODUCER_GENRE_SIGNATURES] has a non-negative
    confidence, and so has every result of [get_producer_subgenres]. *)
Lemma sget_in {A : Type} k (l : list (string * A)) v : sget k l = Some v -> In (k, v) l.
Proof.
  induction l as [|[k' v'] l IH]; simpl; [discriminate|].
  destruct (String.eqb k k') eqn:E; [|intro G; right; exact (IH G)].
  intro G. injection G as <-. apply String.eqb_eq in E. subst. left. reflexivity.
Qed.

Lemma signatures_nonneg k (sig : @signature Q) :
  sget k PRODUCER_GENRE_SIGNATURES = Some sig -> 0 <= confidence sig.
Proof.
  intro G. apply sget_in in G.
  assert (T : forallb (fun kv => Qle_bool 0 (confidence (snd kv))) (@PRODUCER_GENRE_SIGNATURES Q _) = true)
    by (vm_compute; reflexivity).
  rewrite forallb_forall in T. apply Qle_bool_iff. exact (T _ G).
Qed.

Lemma producer_subgenres_nonneg sl p y (sig : @signature Q) :
  get_producer_subgenres sl p y = Some sig -> 0 <= confidence sig.
Proof.
  unfold get_producer_subgenres.
  match goal with |- context [sget ?k PRODUCER_GENRE_SIGNATURES] =>
    destruct (sget k PRODUCER_GENRE_SIGNATURES) as [s0|] eqn:E end; [|discriminate].
  apply signatures_nonneg in E.
  destruct y as [y|]; [|intro G; injection G as <-; exact E].
  destruct (negb (y =? 0)%Z && _); [|intro G; injection G as <-; exact E].
  destruct (get_era_subgenres (primary s0) y); intro G; injection G as <-; exact E.
Qed.

(** The loop over the producers: the subgenres come from recognized
    producers, and the total confidence stays non-negative. *)
Lemma contribution_fold sl y ps (acc : list string * Q) :
  let F := fold_left
            (fun (acc : list string * Q) producer =>
               match get_producer_subgenres sl producer y with
               | Some s => (fst acc ++ subgenres s, nadd (snd acc) (confidence s))
               | None => acc
               end) ps acc in
  (forall s, In s (fst F) -> In s (fst acc) \/
     exists p sig, In p ps /\ get_producer_subgenres sl p y = Some sig /\ In s (subgenres sig)) /\
  (0 <= snd acc -> 0 <= snd F).
Proof.
  revert acc. induction ps as [|p ps IH]; intro acc; cbv zeta; cbn [fold_left].
  - split; [auto|auto].
  - destruct (get_producer_subgenres sl p y) as [sig|] eqn:G.
    + destruct (IH (fst acc ++ subgenres sig, nadd (snd acc) (confidence sig))) as [I1 I2].
      cbv zeta in I1, I2. split.
      * intros s I. destruct (I1 s I) as [J|(p' & sig' & Ip & Gp & Is)].
        -- cbn [fst] in J. apply in_app_or in J as [J|J]; [left; exact J|].
           right. exists p, sig. split; [left; reflexivity|]. auto.
        -- right. exists p', sig'. split; [right; exact Ip|]. auto.
      * intro N. apply I2. cbn [snd nadd q_num]. pose proof (producer_subgenres_nonneg _ _ _ _ G). lra.
    + destruct (IH acc) as [I1 I2]. cbv zeta in I1, I2. split; [|exact I2].
      intros s I. destruct (I1 s I) as [J|(p' & sig' & Ip & Gp & Is)]; [left; exact J|].
      right. exists p', sig'. split; [right; exact Ip|]. auto.
Qed.

(** When [analyze_producer_contribution] returns a result, it suggests at
    most 3 distinct subgenres, each one a subgenre of the signature of one
    of the song's producers (for the song's year). It counts between 1 and
    [len(song_producers)] recognized producers, and its confidence is
    between 0 and 1. *)
Theorem producer_contribution_spec (set_list : list string -> list string) (ps : list string)
    (y : option Z) (r : @contribution Q) :
  analyze_producer_contribution set_list ps y = Some r ->
  (length (suggested_subgenres r) <= 3)%nat /\ NoDup (suggested_subgenres r) /\
  (forall s, In s (suggested_subgenres r) ->
     exists p sig, In p ps /\ get_producer_subgenres set_list p y = Some sig /\ In s (subgenres sig)) /\
  (1 <= num_producers r <= length ps)%nat /\ 0 <= pc_confidence r <= 1.
Proof.
  unfold analyze_producer_contribution.
  destruct ps as [|p0 ps'] eqn:Eps; [discriminate|]. rewrite <- Eps.
  destruct (contribution_fold set_list y ps ([], num 0 1)) as [F1 F2]. cbv zeta in F1, F2.
  destruct (fold_left _ ps ([], num 0 1)) as [all total] eqn:EF.
  cbn [fst snd] in F1, F2.
  destruct all as [|a0 all'] eqn:Ea; [discriminate|]. rewrite <- Ea in F1 |- *.
  intro G. injection G as <-. cbn [suggested_subgenres num_producers pc_confidence].
  destruct (counter_keys all) as [Nc Sc].
  destruct (most_common_keys 3 (counter all) Nc) as (L & N & S).
  split; [rewrite length_map; exact L|]. split; [exact N|]. split.
  - intros s I. destruct (F1 s (Sc s (S s I))) as [[]|X]. exact X.
  - split.
    + split; [|apply filter_length_le].
      destruct (F1 a0) as [[]|(p & sig & Ip & Gp & _)]; [rewrite Ea; left; reflexivity|].
      destruct (filter _ ps) eqn:Ef; [|simpl; lia].
      exfalso. assert (Hp : In p (filter (fun p => match get_producer_subgenres set_list p y with
                                                 | Some _ => true | None => false end) ps)).
      { apply filter_In. rewrite Gp. auto. }
      rewrite Ef in Hp. destruct Hp.
    + assert (T : 0 <= total) by (apply F2; simpl; lra).
      assert (Lp : 0 < num (Z.of_nat (length ps)) 1).
      { rewrite Eps. cbn [num q_num]. unfold Qlt. simpl. lia. }
      cbn [num q_num] in Lp.
      assert (A : 0 <= total / (Z.of_nat (length ps) # 1)).
      { apply Qle_shift_div_l; [exact Lp|]. rewrite Qmult_0_l. exact T. }
      destruct (Qle_bool (total / (Z.of_nat (length ps) # 1)) 1) eqn:B; simpl.
      * apply Qle_bool_iff in B. split; assumption.
      * split; [discriminate|apply Qle_refl].
Qed.

(** Max Martin and an unknown producer, no year. *)
Lemma producer_contribution_spec_witness :
  let r := {| suggested_subgenres := ["dance-pop"; "teen-pop"; "electropop"];
              pc_confidence := 95 # 200; num_producers := 1;
              source := "producer_specialization" |} in
  analyze_producer_contribution (fun l => l) ["Max Martin"; "Someone"] None = Some r /\
  (length (suggested_subgenres r) <= 3)%nat /\ NoDup (suggested_subgenres r) /\
  (forall s, In s (suggested_subgenres r) ->
     exists p sig, In p ["Max Martin"; "Someone"] /\
       get_producer_subgenres (fun l => l) p None = Some sig /\ In s (subgenres sig)) /\
  (1 <= num_producers r <= length ["Max Martin"; "Someone"])%nat /\ 0 <= pc_confidence r <= 1.
Proof.
  intro r. assert (E : analyze_producer_contribution (fun l => l) ["Max Martin"; "Someone"] None = Some r)
    by (vm_compute; reflexivity).
  split; [exact E|]. exact (producer_contribution_spec _ _ _ _ E).
Defined.
End ProducerContribProofs.
